(** * Breathing Cosmos: breath detector, particle field, synthesizer, palettes

    A shallow embedding of the JavaScript sources

      - breathing.js        (class [BreathingDetector])
      - visuals/nebula.js   (classes [Particle], [NebulaVisual])
      - audio/synth.js      (class [BreathingSynth])
      - audio/engine.js     (class [AudioEngine])
      - utils.js            ([lerp], [clamp], [Easing], colour helpers, [Vector2])

    Numbers.  The detector, the particle physics and the synthesizer call
    [Math.cos], [Math.sin] and [Math.sqrt]; their JavaScript numbers are
    modelled as real numbers ([R]), the idealisation of IEEE doubles in
    which no rounding happens and no NaN arises.  The colour helpers of
    utils.js only use field arithmetic, [Math.floor] and [Math.round]; they are
    modelled over [Q] and integers so that they evaluate.  [randomInt]
    takes [Math.floor] of a rounded sum and is modelled on binary64
    itself, with the primitive floats. *)

From Stdlib Require Import Reals Lqa Lra Lia List Bool Arith ZArith.
From Stdlib Require Import QArith Qround.
From Stdlib Require Import String Ascii.
From Stdlib Require Floats Uint63.
Import ListNotations.

(* ================================================================== *)
(** * utils.js, numeric helpers over the reals *)
(* ================================================================== *)

Module MathUtils.
Local Open Scope R_scope.

(** [export function lerp(start, end, t)] *)
Definition lerp (start end_ t : R) : R := start + (end_ - start) * t.

(** [export function clamp(value, min, max)]:
    [Math.min(Math.max(value, min), max)] *)
Definition clamp (value min max : R) : R := Rmin (Rmax value min) max.

(** [Easing.easeInOutSine: t => -(Math.cos(Math.PI * t) - 1) / 2] *)
Definition easeInOutSine (t : R) : R := - (cos (PI * t) - 1) / 2.

End MathUtils.

(* ================================================================== *)
(** * breathing.js *)
(* ================================================================== *)

Module Breathing.
Import MathUtils.
Local Open Scope R_scope.

(** [export const BreathPhase = { INHALE, HOLD_IN, EXHALE, HOLD_OUT }] *)
Inductive BreathPhase : Type := INHALE | HOLD_IN | EXHALE | HOLD_OUT.

Definition BreathPhase_eq_dec (a b : BreathPhase) : {a = b} + {a <> b}.
Proof. decide equality. Defined.

(** [this.mode]: ['manual'], ['mic'] or ['guided']. *)
Inductive Mode : Type := manual | mic | guided.

Definition Mode_eq_guided (m : Mode) : {m = guided} + {m <> guided}.
Proof. destruct m; (left; reflexivity) || (right; discriminate). Defined.

(** [this.state] *)
Record BreathState : Type := mkState {
  phase : BreathPhase;
  intensity : R;          (* 0.0 - 1.0 *)
  duration : R;           (* time in current phase (seconds) *)
  totalCycles : nat;      (* complete breath cycles *)
  isActive : bool
}.

(** The argument of [setGuidedPattern]:
    [{ inhale: 4, holdIn: 7, exhale: 8, holdOut: 0 }]. *)
Record GuidedPattern : Type := mkPattern {
  inhale : R;
  holdIn : R;
  exhale : R;
  holdOut : R
}.

(** What [_emitEvent] hands to the registered listeners, in call order. *)
Inductive Event : Type :=
| phaseChange (newPhase : BreathPhase)
| cycleComplete.

(** The fields of [BreathingDetector] that [update] reads or writes.
    [micReady] stands for [this.analyser && this.micDataArray]. *)
Record BreathingDetector : Type := mkDetector {
  mode : Mode;
  state : BreathState;
  isPressed : bool;
  targetIntensity : R;
  micReady : bool;
  guidedPattern : option GuidedPattern;
  guidedTimer : R;
  smoothingFactor : R;
  transitionSpeed : R
}.

Definition with_state (d : BreathingDetector) (s : BreathState) :=
  mkDetector (mode d) s (isPressed d) (targetIntensity d) (micReady d)
             (guidedPattern d) (guidedTimer d) (smoothingFactor d)
             (transitionSpeed d).

Definition with_target (d : BreathingDetector) (t : R) :=
  mkDetector (mode d) (state d) (isPressed d) t (micReady d)
             (guidedPattern d) (guidedTimer d) (smoothingFactor d)
             (transitionSpeed d).

Definition with_timer (d : BreathingDetector) (t : R) :=
  mkDetector (mode d) (state d) (isPressed d) (targetIntensity d) (micReady d)
             (guidedPattern d) t (smoothingFactor d) (transitionSpeed d).

Definition with_phase (s : BreathState) (p : BreathPhase) :=
  mkState p (intensity s) (duration s) (totalCycles s) (isActive s).

Definition with_intensity (s : BreathState) (i : R) :=
  mkState (phase s) i (duration s) (totalCycles s) (isActive s).

Definition with_duration (s : BreathState) (t : R) :=
  mkState (phase s) (intensity s) t (totalCycles s) (isActive s).

Definition with_totalCycles (s : BreathState) (n : nat) :=
  mkState (phase s) (intensity s) (duration s) n (isActive s).

Definition with_isActive (s : BreathState) (b : bool) :=
  mkState (phase s) (intensity s) (duration s) (totalCycles s) b.

(** [constructor()] *)
Definition new_detector : BreathingDetector :=
  mkDetector manual (mkState EXHALE 0.5 0 0%nat false)
             false 0.5 false None 0 0.15 2.0.

(** The pointer and key handlers of [_setupManualControls]. *)
Definition handlePointerDown (d : BreathingDetector) : BreathingDetector :=
  match mode d with
  | manual =>
      mkDetector (mode d) (state d) true 1.0 (micReady d) (guidedPattern d)
                 (guidedTimer d) (smoothingFactor d) (transitionSpeed d)
  | _ => d
  end.

Definition handlePointerUp (d : BreathingDetector) : BreathingDetector :=
  match mode d with
  | manual =>
      mkDetector (mode d) (state d) false 0.0 (micReady d) (guidedPattern d)
                 (guidedTimer d) (smoothingFactor d) (transitionSpeed d)
  | _ => d
  end.

(** [initMicrophone()]; [granted] tells whether [getUserMedia] resolved.
    It returns the detector and the boolean result. *)
Definition initMicrophone (granted : bool) (d : BreathingDetector)
  : BreathingDetector * bool :=
  if granted then
    (mkDetector mic (state d) (isPressed d) (targetIntensity d) true
                (guidedPattern d) (guidedTimer d) (smoothingFactor d)
                (transitionSpeed d), true)
  else
    (mkDetector manual (state d) (isPressed d) (targetIntensity d)
                (micReady d) (guidedPattern d) (guidedTimer d)
                (smoothingFactor d) (transitionSpeed d), false).

(** [_updateFromMicrophone()]; [frame] is what
    [analyser.getByteFrequencyData] writes into [micDataArray].  On an empty
    buffer the mean is [0/0], every comparison with it is false and the
    target is left alone. *)
Definition _updateFromMicrophone (frame : list nat) (d : BreathingDetector)
  : BreathingDetector :=
  if negb (micReady d) then d
  else
    match frame with
    | [] => d
    | _ =>
        let sum := fold_left (fun s b => s + INR b * INR b) frame 0 in
        let rms := sqrt (sum / INR (List.length frame)) in
        let rawIntensity := clamp (rms / 128) 0 1 in
        let delta := rawIntensity - intensity (state d) in
        if Rgt_dec (Rabs delta) 0.01 then with_target d rawIntensity else d
    end.

(** [setGuidedPattern(pattern)] *)
Definition setGuidedPattern (p : GuidedPattern) (d : BreathingDetector) :=
  mkDetector guided (state d) (isPressed d) (targetIntensity d) (micReady d)
             (Some p) 0 (smoothingFactor d) (transitionSpeed d).

(** [_updateFromGuided(deltaTime)] *)
Definition _updateFromGuided (deltaTime : R) (d : BreathingDetector)
  : BreathingDetector * list Event :=
  match guidedPattern d with
  | None => (d, [])
  | Some p =>
      let timer := guidedTimer d + deltaTime in
      let totalTime := inhale p + holdIn p + exhale p + holdOut p in
      let '(timer, ev) :=
        if Rge_dec timer totalTime then (0, [cycleComplete]) else (timer, [])
      in
      let d := with_timer d timer in
      let elapsed := timer in
      if Rlt_dec elapsed (inhale p) then
        let t := elapsed / inhale p in
        (with_state (with_target d (easeInOutSine t))
                    (with_phase (state d) INHALE), ev)
      else if Rlt_dec elapsed (inhale p + holdIn p) then
        (with_state (with_target d 1.0) (with_phase (state d) HOLD_IN), ev)
      else if Rlt_dec elapsed (inhale p + holdIn p + exhale p) then
        let t := (elapsed - inhale p - holdIn p) / exhale p in
        (with_state (with_target d (1.0 - easeInOutSine t))
                    (with_phase (state d) EXHALE), ev)
      else
        (with_state (with_target d 0.0) (with_phase (state d) HOLD_OUT), ev)
  end.

(** The threshold cascade of [update] (manual and mic modes). *)
Definition detectPhase (i : R) : BreathPhase :=
  if Rgt_dec i 0.8 then INHALE
  else if Rgt_dec i 0.6 then HOLD_IN
  else if Rgt_dec i 0.2 then EXHALE
  else HOLD_OUT.

(** [update(deltaTime)].  The result is the detector after the call and the
    events emitted during it, oldest first. *)
Definition update (frame : list nat) (deltaTime : R) (d : BreathingDetector)
  : BreathingDetector * list Event :=
  if negb (isActive (state d)) then (d, [])
  else
    (* Update based on mode *)
    let '(d, ev) :=
      match mode d with
      | mic => (_updateFromMicrophone frame d, [])
      | guided => _updateFromGuided deltaTime d
      | manual => (d, [])
      end in
    (* Smooth intensity transition *)
    let intensityDelta := targetIntensity d - intensity (state d) in
    let s := with_intensity (state d)
               (intensity (state d) + intensityDelta * smoothingFactor d) in
    (* Clamp intensity *)
    let s := with_intensity s (clamp (intensity s) 0 1) in
    (* Update duration *)
    let s := with_duration s (duration s + deltaTime) in
    (* Phase detection (for manual/mic modes) *)
    match mode d with
    | guided => (with_state d s, ev)
    | _ =>
        let prevPhase := phase s in
        let s := with_phase s (detectPhase (intensity s)) in
        if BreathPhase_eq_dec prevPhase (phase s) then (with_state d s, ev)
        else
          let s := with_duration s 0 in
          let ev := ev ++ [phaseChange (phase s)] in
          match prevPhase, phase s with
          | EXHALE, INHALE =>
              (with_state d (with_totalCycles s (S (totalCycles s))),
               ev ++ [cycleComplete])
          | _, _ => (with_state d s, ev)
          end
    end.

(** [start()], [pause()], [reset()] *)
Definition start (d : BreathingDetector) :=
  with_state d (with_isActive (state d) true).

Definition pause (d : BreathingDetector) :=
  with_state d (with_isActive (state d) false).

Definition reset (d : BreathingDetector) :=
  with_state d (mkState EXHALE 0.5 0 0%nat (isActive (state d))).

(** The pattern of the comment in [setGuidedPattern]. *)
Definition pattern478 : GuidedPattern := mkPattern 4 7 8 0.

(** A guided session as a caller sets it up:
    [new BreathingDetector()], [setGuidedPattern({4,7,8,0})], [start()]. *)
Definition session478 : BreathingDetector :=
  start (setGuidedPattern pattern478 new_detector).

(** A guided session 18.95 s into its 19 s cycle. *)
Definition lateSession478 : BreathingDetector :=
  mkDetector guided (mkState EXHALE 0.1 7.95 0%nat true)
             false 0.1 false (Some pattern478) 18.95 0.15 2.0.

(** How often an event kind occurs in one call's emissions. *)
Definition isCycleComplete (e : Event) : bool :=
  match e with cycleComplete => true | _ => false end.

Definition countCycleComplete (ev : list Event) : nat :=
  List.length (filter isCycleComplete ev).

End Breathing.

(* ================================================================== *)
(** * utils.js, [Vector2] and [random] *)
(* ================================================================== *)

Module Vec.
Local Open Scope R_scope.

(** [export class Vector2].  The methods mutate [this] and return it; here
    they return the vector [this] has become.  No vector of the particle
    code is shared between two owners ([copy()] is taken before the one
    chained mutation of a velocity), so values are enough. *)
Record Vector2 : Type := mkVec { x : R; y : R }.

Definition add (this v : Vector2) : Vector2 :=
  mkVec (x this + x v) (y this + y v).

Definition subtract (this v : Vector2) : Vector2 :=
  mkVec (x this - x v) (y this - y v).

Definition multiply (this : Vector2) (scalar : R) : Vector2 :=
  mkVec (x this * scalar) (y this * scalar).

Definition divide (this : Vector2) (scalar : R) : Vector2 :=
  if Req_dec_T scalar 0 then this
  else mkVec (x this / scalar) (y this / scalar).

Definition magnitude (this : Vector2) : R :=
  sqrt (x this * x this + y this * y this).

Definition normalize (this : Vector2) : Vector2 :=
  let mag := magnitude this in
  if Rgt_dec mag 0 then divide this mag else this.

Definition limit (this : Vector2) (max : R) : Vector2 :=
  let mag := magnitude this in
  if Rgt_dec mag max then multiply (normalize this) max else this.

Definition copy (this : Vector2) : Vector2 := mkVec (x this) (y this).

(** [Math.random()]: the [k]-th call of a run returns [rnd k].  Code that
    draws takes the number of calls made so far and returns the new one. *)
Definition Rand : Type := nat -> R.

(** [export function random(min, max)] *)
Definition random (rnd : Rand) (k : nat) (min max : R) : R * nat :=
  (rnd k * (max - min) + min, S k).

(** [static random(min = -1, max = 1)] *)
Definition Vector2_random (rnd : Rand) (k : nat) (min max : R)
  : Vector2 * nat :=
  let '(a, k) := random rnd k min max in
  let '(b, k) := random rnd k min max in
  (mkVec a b, k).

End Vec.

(* ================================================================== *)
(** * visuals/nebula.js *)
(* ================================================================== *)

Module Nebula.
Import MathUtils Vec.
Local Open Scope R_scope.

(** [class Particle] *)
Record Particle : Type := mkParticle {
  position : Vector2;
  velocity : Vector2;
  acceleration : Vector2;
  baseSize : R;
  size : R;
  maxSize : R;
  life : R;
  maxLife : R;
  age : R;
  palette : string;
  colorPosition : R;
  twinklePhase : R;
  twinkleSpeed : R;
  opacity : R
}.

(** [constructor(x, y, palette = 'deepSpace')]: eight draws, in source
    order. *)
Definition new_Particle (rnd : Rand) (k : nat) (px py : R)
           (pal : string) : Particle * nat :=
  let '(vel, k) := Vector2_random rnd k (-0.5) 0.5 in
  let '(bs, k) := random rnd k 1 4 in
  let '(ml, k) := random rnd k 3 8 in
  let '(cp, k) := random rnd k 0.3 0.9 in
  let '(tp, k) := random rnd k 0 (PI * 2) in
  let '(ts, k) := random rnd k 1 3 in
  let '(op, k) := random rnd k 0.4 1.0 in
  (mkParticle (mkVec px py) vel (mkVec 0 0) bs bs (bs * 3) 1.0 ml 0
              pal cp tp ts op, k).

(** The four wrap-around statements of [Particle.update], for one axis:
    [if (c < 0) c = extent; if (c > extent) c = 0;] *)
Definition wrap (c extent : R) : R :=
  let c := if Rlt_dec c 0 then extent else c in
  if Rgt_dec c extent then 0 else c.

(** [update(deltaTime, breathIntensity, canvasWidth, canvasHeight)]: the
    particle after the call and the returned [this.life > 0]. *)
Definition Particle_update (deltaTime breathIntensity canvasWidth
                            canvasHeight : R) (p : Particle)
  : Particle * bool :=
  (* Age particle *)
  let age' := age p + deltaTime in
  let life' := 1.0 - age' / maxLife p in
  (* Apply forces *)
  let velocity' := limit (add (velocity p) (acceleration p)) 2 in
  let position' :=
    add (position p) (multiply (copy velocity') (deltaTime * 60)) in
  (* Breathing effect on size *)
  let breathScale := 1.0 + breathIntensity * 0.8 in
  let size' := clamp (baseSize p * breathScale) (baseSize p) (maxSize p) in
  let centerX := canvasWidth / 2 in
  let centerY := canvasHeight / 2 in
  let acceleration' :=
    if Rlt_dec breathIntensity 0.3 then
      (* Slight drift toward center on exhale *)
      let toCenter :=
        mkVec (centerX - x position') (centerY - y position') in
      add (acceleration p) (multiply (normalize toCenter) 0.02)
    else
      (* Expand outward on inhale *)
      let fromCenter :=
        mkVec (x position' - centerX) (y position' - centerY) in
      add (acceleration p)
          (multiply (normalize fromCenter) (0.01 * breathIntensity)) in
  (* Wrap around edges *)
  let position' :=
    mkVec (wrap (x position') canvasWidth) (wrap (y position') canvasHeight) in
  (* Twinkle effect *)
  let twinklePhase' := twinklePhase p + twinkleSpeed p * deltaTime in
  (* Reset acceleration *)
  let acceleration' := multiply acceleration' 0 in
  (mkParticle position' velocity' acceleration' (baseSize p) size'
              (maxSize p) life' (maxLife p) age' (palette p)
              (colorPosition p) twinklePhase' (twinkleSpeed p) (opacity p),
   if Rgt_dec life' 0 then true else false).

(** An entry of [backgroundStars]. *)
Record BackgroundStar : Type := mkStar {
  star_x : R;
  star_y : R;
  star_size : R;
  star_opacity : R;
  star_twinklePhase : R;
  star_twinkleSpeed : R
}.

(** [export class NebulaVisual] *)
Record NebulaVisual : Type := mkNebula {
  canvasWidth : R;
  canvasHeight : R;
  particles : list Particle;
  targetParticleCount : nat;
  maxParticles : nat;
  nebula_palette : string;
  spawnTimer : R;
  spawnRate : R;
  backgroundStars : list BackgroundStar
}.

(** [_generateBackgroundStars(count)] *)
Fixpoint _generateBackgroundStars (rnd : Rand) (k : nat) (w h : R)
         (count : nat) : list BackgroundStar * nat :=
  match count with
  | O => ([], k)
  | S count' =>
      let '(sx, k) := random rnd k 0 w in
      let '(sy, k) := random rnd k 0 h in
      let '(ss, k) := random rnd k 0.5 2 in
      let '(so, k) := random rnd k 0.3 0.8 in
      let '(sp, k) := random rnd k 0 (PI * 2) in
      let '(sv, k) := random rnd k 0.5 2 in
      let '(rest, k) := _generateBackgroundStars rnd k w h count' in
      (mkStar sx sy ss so sp sv :: rest, k)
  end.

(** [constructor(canvasWidth, canvasHeight)] *)
Definition new_NebulaVisual (rnd : Rand) (k : nat) (w h : R)
  : NebulaVisual * nat :=
  let '(stars, k) := _generateBackgroundStars rnd k w h 200 in
  (mkNebula w h [] 800 1500 "deepSpace"%string 0 0.05 stars, k).

(** [setPalette(paletteName)] *)
Definition setPalette (paletteName : string) (v : NebulaVisual) :=
  mkNebula (canvasWidth v) (canvasHeight v) (particles v)
           (targetParticleCount v) (maxParticles v) paletteName
           (spawnTimer v) (spawnRate v) (backgroundStars v).

(** [_spawnParticle(breathIntensity)], given the particle list and the
    canvas it reads: the list with the new particle pushed. *)
Definition _spawnParticle (rnd : Rand) (k : nat) (breathIntensity : R)
           (w h : R) (pal : string) (ps : list Particle)
  : list Particle * nat :=
  let centerX := w / 2 in
  let centerY := h / 2 in
  let '(angle, k) := random rnd k 0 (PI * 2) in
  let '(distance, k) := random rnd k 0 (100 * breathIntensity) in
  let px := centerX + cos angle * distance in
  let py := centerY + sin angle * distance in
  let '(particle, k) := new_Particle rnd k px py pal in
  (* Give initial velocity based on spawn angle *)
  let '(r, k) := random rnd k 10 30 in
  let speed := r * breathIntensity in
  let particle :=
    mkParticle (position particle) (mkVec (cos angle * speed)
                                          (sin angle * speed))
               (acceleration particle) (baseSize particle) (size particle)
               (maxSize particle) (life particle) (maxLife particle)
               (age particle) (palette particle) (colorPosition particle)
               (twinklePhase particle) (twinkleSpeed particle)
               (opacity particle) in
  (ps ++ [particle], k).

(** The spawn loop of [update]:
    [while (spawnTimer >= adjustedSpawnRate && particles.length < maxParticles)].
    Every turn pushes one particle, so [maxParticles - particles.length]
    turns are all the loop can take; [fuel] is given that value by
    [update] and [spawnLoop_exit] shows the loop condition is false when
    [spawnLoop] returns. *)
Fixpoint spawnLoop (fuel : nat) (rnd : Rand) (k : nat)
         (breathIntensity adjustedSpawnRate w h : R) (pal : string)
         (maxP : nat) (timer : R) (ps : list Particle)
  : R * list Particle * nat :=
  if andb (if Rge_dec timer adjustedSpawnRate then true else false)
          (List.length ps <? maxP)%nat
  then
    match fuel with
    | O => (timer, ps, k)
    | S fuel' =>
        let timer := timer - adjustedSpawnRate in
        let '(ps, k) := _spawnParticle rnd k breathIntensity w h pal ps in
        spawnLoop fuel' rnd k breathIntensity adjustedSpawnRate w h pal
                  maxP timer ps
    end
  else (timer, ps, k).

(** [update(breathState, deltaTime)] *)
Definition update (rnd : Rand) (k : nat)
           (breathState : Breathing.BreathState) (deltaTime : R)
           (v : NebulaVisual) : NebulaVisual * nat :=
  let intensity := Breathing.intensity breathState in
  (* Spawn particles based on breath intensity *)
  let timer := spawnTimer v + deltaTime in
  let spawnMultiplier := 1.0 + intensity * 2 in
  let adjustedSpawnRate := spawnRate v / spawnMultiplier in
  let '(timer, ps, k) :=
    spawnLoop (maxParticles v - List.length (particles v)) rnd k intensity
              adjustedSpawnRate (canvasWidth v) (canvasHeight v)
              (nebula_palette v) (maxParticles v) timer (particles v) in
  (* Update particles *)
  let ps :=
    map fst
        (filter snd
           (map (Particle_update deltaTime intensity (canvasWidth v)
                                 (canvasHeight v)) ps)) in
  (* Adjust target particle count based on breath cycles *)
  let target :=
    if (0 <? Breathing.totalCycles breathState)%nat then
      Nat.min (800 + Breathing.totalCycles breathState * 50) (maxParticles v)
    else targetParticleCount v in
  (* Update background stars twinkle *)
  let stars :=
    map (fun s => mkStar (star_x s) (star_y s) (star_size s) (star_opacity s)
                         (star_twinklePhase s + star_twinkleSpeed s * deltaTime)
                         (star_twinkleSpeed s))
        (backgroundStars v) in
  (mkNebula (canvasWidth v) (canvasHeight v) ps target (maxParticles v)
            (nebula_palette v) timer (spawnRate v) stars, k).

(** [resize(width, height)] *)
Definition resize (rnd : Rand) (k : nat) (width height : R)
           (v : NebulaVisual) : NebulaVisual * nat :=
  let '(stars, k) := _generateBackgroundStars rnd k width height 200 in
  (mkNebula width height (particles v) (targetParticleCount v)
            (maxParticles v) (nebula_palette v) (spawnTimer v) (spawnRate v)
            stars, k).

(** [reset()] *)
Definition reset (v : NebulaVisual) : NebulaVisual :=
  mkNebula (canvasWidth v) (canvasHeight v) [] (targetParticleCount v)
           (maxParticles v) (nebula_palette v) 0 (spawnRate v)
           (backgroundStars v).

(** The simulations a caller can build: a constructed one, and whatever
    the public methods make of one. *)
Inductive reachable : NebulaVisual -> Prop :=
| reach_new rnd k w h : reachable (fst (new_NebulaVisual rnd k w h))
| reach_update rnd k bs dt v :
    reachable v -> reachable (fst (update rnd k bs dt v))
| reach_resize rnd k w h v :
    reachable v -> reachable (fst (resize rnd k w h v))
| reach_setPalette pal v : reachable v -> reachable (setPalette pal v)
| reach_reset v : reachable v -> reachable (reset v).

(** A particle as [_spawnParticle] leaves it at intensity 0.5, aged one
    second, drifting right at one unit per frame. *)
Definition drifting : Particle :=
  mkParticle (mkVec 100 100) (mkVec 1 0) (mkVec 0 0) 2 2 6 0.8 5 1
             "deepSpace"%string 0.5 0 1 1.

(** A freshly spawned particle: its speed is [random(10, 30) * intensity],
    here 10. *)
Definition fresh : Particle :=
  mkParticle (mkVec 100 100) (mkVec 10 0) (mkVec 0 0) 2 2 6 1.0 5 0
             "deepSpace"%string 0.5 0 1 1.

(** A source of draws that always returns one half. *)
Definition half : Rand := fun _ => 0.5.

End Nebula.

(* ================================================================== *)
(** * The Web Audio objects the synthesizer drives *)
(* ================================================================== *)

Module WebAudio.
Local Open Scope R_scope.

(** The automation calls the sources make on an [AudioParam]. *)
Inductive ParamEvent : Type :=
| setValueAtTime (v t : R)
| linearRampToValueAtTime (v endTime : R)
| setTargetAtTime (target startTime timeConstant : R).

Definition eventTime (e : ParamEvent) : R :=
  match e with
  | setValueAtTime _ t => t
  | linearRampToValueAtTime _ t => t
  | setTargetAtTime _ t _ => t
  end.

(** Where an automation event takes the parameter. *)
Definition eventTarget (e : ParamEvent) : R :=
  match e with
  | setValueAtTime v _ => v
  | linearRampToValueAtTime v _ => v
  | setTargetAtTime v _ _ => v
  end.

(** An [AudioParam]: the value last assigned to [.value] and the
    automation timeline.  Web Audio keeps the events of a parameter in the
    order of their times, whatever the order of the calls.  A [GainNode]
    is represented by its [gain] parameter. *)
Record AudioParam : Type := mkParam {
  value : R;
  timeline : list ParamEvent
}.

Definition param (v : R) : AudioParam := mkParam v [].

(** Where a new event goes: before the first event with a later time, so
    after the events already there with the same or an earlier time. *)
Fixpoint insertEvent (e : ParamEvent) (l : list ParamEvent)
  : list ParamEvent :=
  match l with
  | [] => [e]
  | x :: l' =>
      if Rlt_dec (eventTime e) (eventTime x) then e :: x :: l'
      else x :: insertEvent e l'
  end.

Definition schedule (e : ParamEvent) (p : AudioParam) : AudioParam :=
  mkParam (value p) (insertEvent e (timeline p)).

(** [cancelScheduledValues(t)] drops the events at or after [t]. *)
Definition cancelScheduledValues (t : R) (p : AudioParam) : AudioParam :=
  mkParam (value p)
          (filter (fun e => if Rlt_dec (eventTime e) t then true else false)
                  (timeline p)).

(** The level a parameter ends at: the target of the last event of the
    timeline, or the assigned value when nothing is scheduled.  From its
    time on, the last event alone drives the parameter: a
    [setValueAtTime] or a ramp holds its value, a [setTargetAtTime]
    approaches its target.  It is where the parameter settles, not the
    value the audio thread computes at a given instant. *)
Definition heading (p : AudioParam) : R :=
  match rev (timeline p) with
  | e :: _ => eventTarget e
  | [] => value p
  end.

(** No event of the parameter lies after [t]. *)
Definition settledBy (t : R) (p : AudioParam) : Prop :=
  Forall (fun e => eventTime e <= t) (timeline p).


Inductive OscillatorType : Type := sine | triangle.

(** An [OscillatorNode].  [start()] on a node already started and
    [stop()] on a node never started throw [InvalidStateError]; a thrown
    call is [None]. *)
Record Oscillator : Type := mkOsc {
  osc_type : OscillatorType;
  frequency : AudioParam;
  started : bool;
  stopped : bool
}.

Definition osc_start (o : Oscillator) : option Oscillator :=
  if started o then None
  else Some (mkOsc (osc_type o) (frequency o) true (stopped o)).

Definition osc_stop (o : Oscillator) : option Oscillator :=
  if started o then Some (mkOsc (osc_type o) (frequency o) true true)
  else None.

(** A generator that sounds: started and not stopped. *)
Definition running (o : Oscillator) : bool :=
  andb (started o) (negb (stopped o)).

(** The low-pass [BiquadFilterNode]. *)
Record Filter : Type := mkFilter {
  filter_frequency : AudioParam;
  filter_Q : AudioParam
}.

End WebAudio.

(* ================================================================== *)
(** * audio/synth.js *)
(* ================================================================== *)

Module Synth.
Import MathUtils WebAudio.
Local Open Scope R_scope.

(** [export class BreathingSynth].  [pendingStops] counts the callbacks
    that [stop()] has handed to [setTimeout] and that have not run yet. *)
Record BreathingSynth : Type := mkSynth {
  droneOsc : Oscillator;
  breathOsc : Oscillator;
  shimmerOsc : Oscillator;
  droneGain : AudioParam;
  breathGain : AudioParam;
  shimmerGain : AudioParam;
  masterGain : AudioParam;
  filter : Filter;
  isPlaying : bool;
  currentBreathFreq : R;
  targetBreathFreq : R;
  pendingStops : nat
}.

(** [_init()]: fresh nodes; the three plain fields are not touched. *)
Definition _init (playing : bool) (current target : R) (pending : nat)
  : BreathingSynth :=
  mkSynth (mkOsc sine (param 60) false false)
          (mkOsc triangle (param 200) false false)
          (mkOsc sine (param 1200) false false)
          (param 0.15) (param 0) (param 0) (param 0.3)
          (mkFilter (param 2000) (param 1))
          playing current target pending.

(** [constructor(audioContext)] *)
Definition new_BreathingSynth : BreathingSynth := _init false 200 200 0.

Definition with_masterGain (s : BreathingSynth) (g : AudioParam) :=
  mkSynth (droneOsc s) (breathOsc s) (shimmerOsc s) (droneGain s)
          (breathGain s) (shimmerGain s) g (filter s) (isPlaying s)
          (currentBreathFreq s) (targetBreathFreq s) (pendingStops s).

(** [start()]; [now] is [this.ctx.currentTime]. *)
Definition start (now : R) (s : BreathingSynth) : option BreathingSynth :=
  if isPlaying s then Some s
  else
    match osc_start (droneOsc s), osc_start (breathOsc s),
          osc_start (shimmerOsc s) with
    | Some d, Some b, Some h =>
        (* Fade in master gain *)
        let g := cancelScheduledValues now (masterGain s) in
        let g := schedule (setValueAtTime 0 now) g in
        let g := schedule (linearRampToValueAtTime 0.3 (now + 2.0)) g in
        Some (mkSynth d b h (droneGain s) (breathGain s) (shimmerGain s) g
                      (filter s) true (currentBreathFreq s)
                      (targetBreathFreq s) (pendingStops s))
    | _, _, _ => None
    end.

(** [stop()]; [level] is what reading [this.masterGain.gain.value] gives
    at that moment. *)
Definition stop (now level : R) (s : BreathingSynth) : BreathingSynth :=
  if negb (isPlaying s) then s
  else
    (* Fade out *)
    let g := cancelScheduledValues now (masterGain s) in
    let g := schedule (setValueAtTime level now) g in
    let g := schedule (linearRampToValueAtTime 0 (now + 1.0)) g in
    mkSynth (droneOsc s) (breathOsc s) (shimmerOsc s) (droneGain s)
            (breathGain s) (shimmerGain s) g (filter s) (isPlaying s)
            (currentBreathFreq s) (targetBreathFreq s) (S (pendingStops s)).

(** The callback [stop()] schedules for 1100 ms later. *)
Definition stopTimeout (s : BreathingSynth) : option BreathingSynth :=
  match osc_stop (droneOsc s), osc_stop (breathOsc s),
        osc_stop (shimmerOsc s) with
  | Some _, Some _, Some _ =>
      (* Reinitialize for next play *)
      Some (_init false (currentBreathFreq s) (targetBreathFreq s)
                  (pred (pendingStops s)))
  | _, _, _ => None
  end.

(** [update(breathState)] *)
Definition update (breathState : Breathing.BreathState) (now : R)
           (s : BreathingSynth) : BreathingSynth :=
  if negb (isPlaying s) then s
  else
    let intensity := Breathing.intensity breathState in
    let phase := Breathing.phase breathState in
    (* Map breath intensity to frequency (200Hz - 800Hz) *)
    let target := lerp 200 800 intensity in
    (* Smooth frequency transition *)
    let current := lerp (currentBreathFreq s) target 0.1 in
    (* Update breath oscillator frequency *)
    let bo := breathOsc s in
    let bo := mkOsc (osc_type bo)
                    (schedule (setTargetAtTime current now 0.1)
                              (frequency bo))
                    (started bo) (stopped bo) in
    (* Update breath gain (volume follows intensity) *)
    let breathVolume := clamp (intensity * 0.25) 0 0.25 in
    let bg := schedule (setTargetAtTime breathVolume now 0.1)
                       (breathGain s) in
    (* Update filter cutoff (opens on inhale, closes on exhale) *)
    let filterFreq := lerp 800 4000 intensity in
    let fl := mkFilter (schedule (setTargetAtTime filterFreq now 0.15)
                                 (filter_frequency (filter s)))
                       (filter_Q (filter s)) in
    (* Trigger shimmer on breath holds *)
    let sg :=
      match phase with
      | Breathing.HOLD_IN | Breathing.HOLD_OUT =>
          schedule (setTargetAtTime 0.08 now 0.2) (shimmerGain s)
      | _ => schedule (setTargetAtTime 0 now 0.3) (shimmerGain s)
      end in
    (* Modulate shimmer frequency slightly *)
    let shimmerFreq := lerp 1000 1500 (sin (now * 2) * 0.5 + 0.5) in
    let so := shimmerOsc s in
    let so := mkOsc (osc_type so)
                    (schedule (setTargetAtTime shimmerFreq now 0.5)
                              (frequency so))
                    (started so) (stopped so) in
    mkSynth (droneOsc s) bo so (droneGain s) bg sg (masterGain s) fl
            (isPlaying s) current target (pendingStops s).

(** [setVolume(volume)], [mute()], [unmute()] *)
Definition setVolume (volume now : R) (s : BreathingSynth) : BreathingSynth :=
  with_masterGain s
    (schedule (setTargetAtTime (clamp volume 0 1) now 0.1) (masterGain s)).

Definition mute (now : R) (s : BreathingSynth) : BreathingSynth :=
  setVolume 0 now s.

Definition unmute (now : R) (s : BreathingSynth) : BreathingSynth :=
  setVolume 0.3 now s.

(** A synthesizer that has been started at time 0. *)
Definition playing0 : BreathingSynth :=
  match start 0 new_BreathingSynth with
  | Some s => s
  | None => new_BreathingSynth
  end.

(** The generators of a synthesizer. *)
Definition generators (s : BreathingSynth) : list Oscillator :=
  [droneOsc s; breathOsc s; shimmerOsc s].

(** No automation of the five parameters [update] drives lies after
    [now].  They only ever receive [setTargetAtTime(_, ctx.currentTime, _)]
    and the clock of the context does not run back. *)
Definition upToDate (now : R) (s : BreathingSynth) : Prop :=
  settledBy now (frequency (breathOsc s)) /\
  settledBy now (breathGain s) /\
  settledBy now (filter_frequency (filter s)) /\
  settledBy now (shimmerGain s) /\
  settledBy now (frequency (shimmerOsc s)).


End Synth.

(* ================================================================== *)
(** * audio/engine.js *)
(* ================================================================== *)

Module Engine.
Import WebAudio.
Local Open Scope R_scope.

(** [AudioContext.state] *)
Inductive ContextState : Type := ctx_running | ctx_suspended.

(** [export class AudioEngine].  [ctx] is [None] while [this.ctx] is
    [null]. *)
Record AudioEngine : Type := mkEngine {
  ctx : option ContextState;
  synth : option Synth.BreathingSynth;
  isInitialized : bool;
  isPlaying : bool;
  isMuted : bool;
  currentPalette : string
}.

(** [constructor()] *)
Definition new_AudioEngine : AudioEngine :=
  mkEngine None None false false false "deepSpace"%string.

(** [init()]; [created] is the state of the context [new AudioContext()]
    returns, or [None] when it throws. *)
Definition init (created : option ContextState) (e : AudioEngine)
  : AudioEngine * bool :=
  if isInitialized e then (e, true)
  else
    match created with
    | Some st =>
        (mkEngine (Some st) (Some Synth.new_BreathingSynth) true
                  (isPlaying e) (isMuted e) (currentPalette e), true)
    | None => (e, false)
    end.

(** [start()]; [None] when the call rejects ([this.ctx] is [null], or an
    oscillator throws). *)
Definition start (created : option ContextState) (now : R) (e : AudioEngine)
  : option AudioEngine :=
  let e := if negb (isInitialized e) then fst (init created e) else e in
  match ctx e with
  | None => None
  | Some st =>
      (* Resume AudioContext if suspended (browser autoplay policy) *)
      let c := match st with
               | ctx_suspended => ctx_running
               | ctx_running => ctx_running
               end in
      match synth e with
      | Some s =>
          if negb (isPlaying e) then
            match Synth.start now s with
            | Some s' =>
                Some (mkEngine (Some c) (Some s') (isInitialized e) true
                               (isMuted e) (currentPalette e))
            | None => None
            end
          else
            Some (mkEngine (Some c) (synth e) (isInitialized e)
                           (isPlaying e) (isMuted e) (currentPalette e))
      | None =>
          Some (mkEngine (Some c) (synth e) (isInitialized e) (isPlaying e)
                         (isMuted e) (currentPalette e))
      end
  end.

(** [stop()] *)
Definition stop (now level : R) (e : AudioEngine) : AudioEngine :=
  match synth e with
  | Some s =>
      if isPlaying e then
        mkEngine (ctx e) (Some (Synth.stop now level s)) (isInitialized e)
                 false (isMuted e) (currentPalette e)
      else e
  | None => e
  end.

(** [update(breathState)] *)
Definition update (breathState : Breathing.BreathState) (now : R)
           (e : AudioEngine) : AudioEngine :=
  match synth e with
  | Some s =>
      if andb (isPlaying e) (negb (isMuted e)) then
        mkEngine (ctx e) (Some (Synth.update breathState now s))
                 (isInitialized e) (isPlaying e) (isMuted e)
                 (currentPalette e)
      else e
  | None => e
  end.

(** [toggleMute()] *)
Definition toggleMute (now : R) (e : AudioEngine) : AudioEngine * bool :=
  let muted := negb (isMuted e) in
  let s :=
    match synth e with
    | Some s => Some (if muted then Synth.mute now s else Synth.unmute now s)
    | None => None
    end in
  (mkEngine (ctx e) s (isInitialized e) (isPlaying e) muted
            (currentPalette e), muted).

(** [setVolume(volume)] *)
Definition setVolume (volume now : R) (e : AudioEngine) : AudioEngine :=
  match synth e with
  | Some s =>
      mkEngine (ctx e) (Some (Synth.setVolume volume now s))
               (isInitialized e) (isPlaying e) (isMuted e) (currentPalette e)
  | None => e
  end.

(** An engine after [start()] on a fresh instance whose context came up
    suspended. *)
Definition started0 : AudioEngine :=
  match start (Some ctx_suspended) 0 new_AudioEngine with
  | Some e => e
  | None => new_AudioEngine
  end.

End Engine.

(* ================================================================== *)
(** * utils.js, colour helpers *)
(* ================================================================== *)

Module Color.
Local Open Scope Z_scope.

(** A JavaScript value that is a string or [undefined] ([None]). *)
Definition JsString : Type := option string.

(** What [String(v)] makes of it, as [RegExp.prototype.exec] does. *)
Definition toStr (v : JsString) : string :=
  match v with
  | Some s => s
  | None => "undefined"%string
  end.

(** [{ r, g, b }] *)
Record Rgb : Type := mkRgb { r : Z; g : Z; b : Z }.

(** One character of the class [[a-f\d]] under the [i] flag, with its
    value in base 16. *)
Definition hexValue (c : ascii) : option Z :=
  let n := Z.of_nat (nat_of_ascii c) in
  if andb (48 <=? n) (n <=? 57) then Some (n - 48)
  else if andb (97 <=? n) (n <=? 102) then Some (n - 87)
  else if andb (65 <=? n) (n <=? 70) then Some (n - 55)
  else None.

(** [parseInt(result[k], 16)] on a two-character capture. *)
Definition parseHex2 (c1 c2 : ascii) : option Z :=
  match hexValue c1, hexValue c2 with
  | Some h, Some l => Some (16 * h + l)
  | _, _ => None
  end.

(** [export function hexToRgb(hex)]:
    [/^#?([a-f\d]{2})([a-f\d]{2})([a-f\d]{2})$/i.exec(hex)]. *)
Definition hexToRgb (hex : JsString) : option Rgb :=
  let s := toStr hex in
  let s := match s with
           | String "#" rest => rest
           | _ => s
           end in
  match s with
  | String r1 (String r2 (String g1 (String g2 (String b1 (String b2
      EmptyString))))) =>
      match parseHex2 r1 r2, parseHex2 g1 g2, parseHex2 b1 b2 with
      | Some r, Some g, Some b => Some (mkRgb r g b)
      | _, _, _ => None
      end
  | _ => None
  end.

(** [ToInt32] and the [<<] operator. *)
Definition toInt32 (z : Z) : Z :=
  let m := z mod 2 ^ 32 in
  if 2 ^ 31 <=? m then m - 2 ^ 32 else m.

Definition shl (x n : Z) : Z := toInt32 (toInt32 x * 2 ^ (n mod 32)).

(** [Number.prototype.toString(16)] on an integer. *)
Definition hexDigit (d : Z) : ascii :=
  if d <? 10 then ascii_of_nat (Z.to_nat (48 + d))
  else ascii_of_nat (Z.to_nat (87 + d)).

Fixpoint hexDigits (fuel : nat) (n : Z) (acc : string) : string :=
  match fuel with
  | O => String (hexDigit (n mod 16)) acc
  | S fuel' =>
      if n <? 16 then String (hexDigit n) acc
      else hexDigits fuel' (n / 16) (String (hexDigit (n mod 16)) acc)
  end.

Definition toString16 (z : Z) : string :=
  let n := Z.abs z in
  let digits := hexDigits (Z.to_nat (Z.log2 n)) n EmptyString in
  if z <? 0 then String "-" digits else digits.

(** [String.prototype.slice(1)] *)
Definition slice1 (s : string) : string :=
  match s with
  | String _ rest => rest
  | EmptyString => EmptyString
  end.

(** [export function rgbToHex(r, g, b)]:
    ["#" + ((1 << 24) + (r << 16) + (g << 8) + b).toString(16).slice(1)] *)
Definition rgbToHex (r g b : Z) : string :=
  String "#" (slice1 (toString16 (shl 1 24 + shl r 16 + shl g 8 + b))).

(** [lerp] on rationals, [Math.floor] and [Math.round]. *)
Definition lerp (start end_ t : Q) : Q := (start + (end_ - start) * t)%Q.

Definition floor (q : Q) : Z := Qfloor q.

Definition round (q : Q) : Z := Qfloor (q + (1 # 2))%Q.

(** [export function lerpColor(color1, color2, t)] *)
Definition lerpColor (color1 color2 : JsString) (t : Q) : JsString :=
  match hexToRgb color1, hexToRgb color2 with
  | Some c1, Some c2 =>
      let r := round (lerp (inject_Z (r c1)) (inject_Z (r c2)) t) in
      let g := round (lerp (inject_Z (g c1)) (inject_Z (g c2)) t) in
      let b := round (lerp (inject_Z (b c1)) (inject_Z (b c2)) t) in
      Some (rgbToHex r g b)
  | _, _ => color1
  end.

(** The values a property read on [ColorPalettes] can give: one of its
    arrays, a method or the prototype object inherited from
    [Object.prototype], or [undefined]. *)
Inductive JsValue : Type :=
| JsArray (items : list string)
| JsFunction (arity : nat)
| JsObject
| JsUndefined.

(** [export const ColorPalettes = { ... }], its own properties. *)
Definition ColorPalettes : list (string * list string) :=
  [ ("deepSpace", ["#0a0e1a"; "#1a1f3a"; "#2d1b69"; "#5a189a"; "#9d4edd"]);
    ("solarFlare", ["#1a0e00"; "#4a1c00"; "#ff6b35"; "#ffa500"; "#ffd700"]);
    ("northernLights",
       ["#001a1a"; "#003d3d"; "#00ffc8"; "#00ff88"; "#88ffaa"]);
    ("lunarGlow", ["#0a0a0f"; "#1a1a2e"; "#c0c0d0"; "#e0e0f0"; "#ffffff"])
  ]%string.

(** What an object literal inherits from [Object.prototype]: the methods
    with their [length], and [__proto__], which reads as the prototype
    object. *)
Definition ObjectPrototype : list (string * JsValue) :=
  [ ("constructor", JsFunction 1);
    ("toString", JsFunction 0);
    ("toLocaleString", JsFunction 0);
    ("valueOf", JsFunction 0);
    ("hasOwnProperty", JsFunction 1);
    ("isPrototypeOf", JsFunction 1);
    ("propertyIsEnumerable", JsFunction 1);
    ("__defineGetter__", JsFunction 2);
    ("__defineSetter__", JsFunction 2);
    ("__lookupGetter__", JsFunction 1);
    ("__lookupSetter__", JsFunction 1);
    ("__proto__", JsObject)
  ]%string.

Fixpoint assoc {A : Type} (key : string) (l : list (string * A))
  : option A :=
  match l with
  | [] => None
  | (k, v) :: rest => if String.eqb k key then Some v else assoc key rest
  end.

(** [ColorPalettes[palette]]: own properties first, then the prototype. *)
Definition getProperty (palette : string) : JsValue :=
  match assoc palette ColorPalettes with
  | Some items => JsArray items
  | None =>
      match assoc palette ObjectPrototype with
      | Some v => v
      | None => JsUndefined
      end
  end.

(** [v.length]; [None] is [undefined]. *)
Definition js_length (v : JsValue) : option Z :=
  match v with
  | JsArray items => Some (Z.of_nat (List.length items))
  | JsFunction arity => Some (Z.of_nat arity)
  | JsObject | JsUndefined => None
  end.

(** [v[i]] for an integer [i]. *)
Definition js_index (v : JsValue) (i : Z) : JsString :=
  match v with
  | JsArray items => if i <? 0 then None else nth_error items (Z.to_nat i)
  | _ => None
  end.

(** [export function getColorFromPalette(palette, t)].  When
    [paletteColors.length] is [undefined] every number derived from it is
    [NaN]: the comparison is false, both indexed reads give [undefined]
    and [lerpColor] returns [color1] without reading [t]. *)
Definition getColorFromPalette (palette : string) (t : Q) : JsString :=
  let paletteColors :=
    match getProperty palette with
    | JsUndefined => getProperty "deepSpace"
    | v => v
    end in
  match js_length paletteColors with
  | None => lerpColor None None 0
  | Some len =>
      let scaledT := (t * inject_Z (len - 1))%Q in
      let index := floor scaledT in
      let localT := (scaledT - inject_Z index)%Q in
      if len - 1 <=? index then js_index paletteColors (len - 1)
      else lerpColor (js_index paletteColors index)
                     (js_index paletteColors (index + 1)) localT
  end.

(** The names [ColorPalettes] defines itself. *)
Definition knownPalette (palette : string) : bool :=
  match assoc palette ColorPalettes with
  | Some _ => true
  | None => false
  end.

End Color.

(* ================================================================== *)
(** * utils.js, the remaining numeric helpers *)
(* ================================================================== *)

Module Numeric.
Import Vec.
Local Open Scope R_scope.

(** [Math.floor] of a real, as an integer. *)
Definition floor (r : R) : Z := Int_part r.

(** [export function randomChoice(array)]:
    [array[Math.floor(Math.random() * array.length)]]; [None] is
    [undefined]. *)
Definition randomChoice {A : Type} (rnd : Rand) (k : nat) (array : list A)
  : option A * nat :=
  let index := floor (rnd k * INR (List.length array)) in
  ((if (index <? 0)%Z then None else nth_error array (Z.to_nat index)), S k).

(** [export const Easing = { ... }] *)
Definition linear (t : R) : R := t.

Definition easeInQuad (t : R) : R := t * t.

Definition easeOutQuad (t : R) : R := t * (2 - t).

Definition easeInOutQuad (t : R) : R :=
  if Rlt_dec t 0.5 then 2 * t * t else -1 + (4 - 2 * t) * t.

Definition easeInCubic (t : R) : R := t * t * t.

(** [t => (--t) * t * t + 1]: [t] is decremented before any factor is
    read. *)
Definition easeOutCubic (t : R) : R :=
  let t := t - 1 in t * t * t + 1.

Definition easeInOutCubic (t : R) : R :=
  if Rlt_dec t 0.5 then 4 * t * t * t
  else (t - 1) * (2 * t - 2) * (2 * t - 2) + 1.

Definition easeInSine (t : R) : R := 1 - cos (t * PI / 2).

Definition easeOutSine (t : R) : R := sin (t * PI / 2).

(** [breath: t => (Math.sin((t - 0.5) * Math.PI) + 1) / 2] *)
Definition breath (t : R) : R := (sin ((t - 0.5) * PI) + 1) / 2.

(** The easings that are polynomials on each piece. *)
Definition polynomialEasings : list (R -> R) :=
  [linear; easeInQuad; easeOutQuad; easeInOutQuad;
   easeInCubic; easeOutCubic; easeInOutCubic].

End Numeric.

(* ================================================================== *)
(** * utils.js, [randomInt] on the doubles *)
(* ================================================================== *)

(** [randomInt] ends in [Math.floor], which turns a rounding in the last
    place into a whole unit, so it is modelled on the numbers JavaScript
    computes with: the primitive floats are IEEE 754 binary64 with
    rounding to nearest, ties to even. *)
Module Binary64.
Import PrimFloat FloatOps SpecFloat.
Local Open Scope float_scope.

(** [export function random(min, max)]; [r] is what [Math.random()]
    returned. *)
Definition random (r min max : float) : float := r * (max - min) + min.

(** [Math.floor] of a finite double, as an integer: the double is
    [m * 2 ^ e] with the sign [s]; [None] for an infinity or NaN. *)
Definition floor (f : float) : option Z :=
  match Prim2SF f with
  | S754_zero _ => Some 0%Z
  | S754_finite s m e =>
      let v := if s then Z.neg m else Z.pos m in
      Some (if (0 <=? e)%Z then v * 2 ^ e else v / 2 ^ (- e))%Z
  | _ => None
  end.

(** [export function randomInt(min, max)]:
    [Math.floor(random(min, max + 1))] *)
Definition randomInt (r min max : float) : option Z :=
  floor (random r min (max + 1)).

(** The double of a non-negative integer literal. *)
Definition number (n : Z) : float := of_uint63 (Uint63.of_Z n).

(** What [Math.random()] may return: a double of [[0, 1)]. *)
Definition isDraw (r : float) : bool := (0 <=? r) && (r <? 1).

(** The two largest doubles below 1: [1 - 2^-53] and [1 - 2^-52]. *)
Definition belowOne : float := 0x1.fffffffffffffp-1.

Definition twoBelowOne : float := 0x1.ffffffffffffep-1.

Definition lateDraws : list float := [twoBelowOne; belowOne].

Definition integers (lo n : nat) : list Z := List.map Z.of_nat (seq lo n).

Definition resultIs (r : float) (min max : Z) (ok : Z -> bool) : bool :=
  match randomInt r (number min) (number max) with
  | Some z => ok z
  | None => false
  end.

(** What [randomInt(min, max)] returns at the draw 0 and at the draw
    [r]. *)
Definition endsOfRange (r : float) (min max : Z) : bool :=
  resultIs 0 min max (fun z => z =? min)%Z
  && resultIs r min max (fun z => (max <=? z) && (z <=? max + 1))%Z
  && implb ((2 <=? min) && (min =? max))%Z
           (resultIs r min max (fun z => z =? max + 1)%Z).

End Binary64.

(* ================================================================== *)
(** * utils.js, [SeededRandom] *)
(* ================================================================== *)

Module Seeded.
Local Open Scope Z_scope.

(** [export class SeededRandom] for an integer seed.  [%] is the
    remainder that takes the sign of the dividend, [Z.rem]. *)
Record SeededRandom : Type := mkSeeded { seed : Z }.

(** [next()]: the value returned and the generator afterwards. *)
Definition next (g : SeededRandom) : Q * SeededRandom :=
  let seed' := Z.rem (seed g * 9301 + 49297) 233280 in
  (seed' # 233280, mkSeeded seed').

(** [range(min, max)] *)
Definition range (min max : Q) (g : SeededRandom) : Q * SeededRandom :=
  let '(v, g) := next g in
  ((min + v * (max - min))%Q, g).

(** [n] calls of [next()], oldest value first. *)
Fixpoint draws (n : nat) (g : SeededRandom) : list Q * SeededRandom :=
  match n with
  | O => ([], g)
  | S n' =>
      let '(v, g) := next g in
      let '(vs, g) := draws n' g in
      (v :: vs, g)
  end.

End Seeded.

(* ================================================================== *)
(** * breathing.js, sessions *)
(* ================================================================== *)

Module Sessions.
Import Breathing.
Local Open Scope R_scope.

(** [n] animation ticks with the same microphone frame and delta time. *)
Fixpoint updates (n : nat) (frame : list nat) (deltaTime : R)
         (d : BreathingDetector) : BreathingDetector :=
  match n with
  | O => d
  | S n' => updates n' frame deltaTime (fst (update frame deltaTime d))
  end.

(** The detectors a session reaches when [setGuidedPattern] is never
    called: construction, the pointer and key handlers, [initMicrophone],
    [start], [pause], [reset] and [update], in any order. *)
Inductive unguided : BreathingDetector -> Prop :=
| unguided_new : unguided new_detector
| unguided_down d : unguided d -> unguided (handlePointerDown d)
| unguided_up d : unguided d -> unguided (handlePointerUp d)
| unguided_mic granted d :
    unguided d -> unguided (fst (initMicrophone granted d))
| unguided_start d : unguided d -> unguided (start d)
| unguided_pause d : unguided d -> unguided (pause d)
| unguided_reset d : unguided d -> unguided (reset d)
| unguided_update frame dt d :
    unguided d -> unguided (fst (update frame dt d)).

(** What every unguided detector satisfies. *)
Definition steady (d : BreathingDetector) : Prop :=
  mode d <> guided /\ smoothingFactor d = 0.15 /\
  0 <= targetIntensity d <= 1 /\
  0 <= intensity (state d) <= 1 /\
  phase (state d) = detectPhase (intensity (state d)) /\
  totalCycles (state d) = 0%nat.

(** [getPhaseText()] *)
Definition getPhaseText (d : BreathingDetector) : string :=
  match phase (state d) with
  | INHALE => "Inhale"
  | HOLD_IN => "Hold"
  | EXHALE => "Exhale"
  | HOLD_OUT => "Rest"
  end.

End Sessions.

(* ================================================================== *)
(** * main.js *)
(* ================================================================== *)

Module App.
Import Vec.
Local Open Scope R_scope.

(** The callback of [BreathingSynth.stop()]'s [setTimeout], run on the
    synthesizer the engine holds. *)
Definition stopTimeout (e : Engine.AudioEngine) : option Engine.AudioEngine :=
  match Engine.synth e with
  | Some s =>
      match Synth.stopTimeout s with
      | Some s' =>
          Some (Engine.mkEngine (Engine.ctx e) (Some s')
                                (Engine.isInitialized e) (Engine.isPlaying e)
                                (Engine.isMuted e) (Engine.currentPalette e))
      | None => None
      end
  | None => None
  end.

(** A synthesizer whose three generators are started. *)
Definition sounding (s : Synth.BreathingSynth) : Prop :=
  Synth.isPlaying s = true /\
  WebAudio.started (Synth.droneOsc s) = true /\
  WebAudio.started (Synth.breathOsc s) = true /\
  WebAudio.started (Synth.shimmerOsc s) = true.

(** An engine that is playing a sounding synthesizer. *)
Definition engine_sounding (e : Engine.AudioEngine)
           (s : Synth.BreathingSynth) : Prop :=
  Engine.isPlaying e = true /\ Engine.isInitialized e = true /\
  Engine.ctx e = Some Engine.ctx_running /\
  Engine.synth e = Some s /\ sounding s.

(** A synthesizer as [_init] leaves it: not playing, no generator
    started. *)
Definition untouched (s : Synth.BreathingSynth) : Prop :=
  Synth.isPlaying s = false /\
  Forall (fun o => WebAudio.started o = false /\ WebAudio.stopped o = false)
         (Synth.generators s).

(** [class BreathingCosmosApp]: the three systems, the loop flag and the
    time of the last tick.  The renderer's active visual is the nebula;
    the page chrome ([ui]), the canvas and the frame counter are left
    out. *)
Record BreathingCosmosApp : Type := mkApp {
  breathing : Breathing.BreathingDetector;
  visuals : Nebula.NebulaVisual;
  audio : Engine.AudioEngine;
  isRunning : bool;
  lastTime : R
}.

(** [Math.min((currentTime - this.lastTime) / 1000, 0.1)] *)
Definition frameDelta (currentTime lastTime : R) : R :=
  Rmin ((currentTime - lastTime) / 1000) 0.1.

(** [_animate(currentTime = 0)]: one tick.  [frame] is the microphone
    buffer of the tick, [now] the audio clock; the result carries the
    number of random draws made so far and the events the detector
    emitted. *)
Definition _animate (rnd : Rand) (k : nat) (frame : list nat) (now : R)
           (currentTime : R) (app : BreathingCosmosApp)
  : BreathingCosmosApp * nat * list Breathing.Event :=
  if negb (isRunning app) then (app, k, [])
  else
    (* Calculate delta time *)
    let deltaTime := frameDelta currentTime (lastTime app) in
    (* Update systems *)
    let '(b, ev) := Breathing.update frame deltaTime (breathing app) in
    let breathState := Breathing.state b in
    let '(v, k) := Nebula.update rnd k breathState deltaTime (visuals app) in
    let a := Engine.update breathState now (audio app) in
    (mkApp b v a (isRunning app) currentTime, k, ev).

(** [start()]; [perfNow] is [performance.now()].  The first tick is the
    call [this._animate()], whose [currentTime] takes its default 0. *)
Definition start (rnd : Rand) (k : nat) (frame : list nat) (now : R)
           (perfNow : R) (app : BreathingCosmosApp)
  : BreathingCosmosApp * nat * list Breathing.Event :=
  if isRunning app then (app, k, [])
  else
    _animate rnd k frame now 0
             (mkApp (breathing app) (visuals app) (audio app) true perfNow).

(** [stop()] *)
Definition stop (app : BreathingCosmosApp) : BreathingCosmosApp :=
  mkApp (breathing app) (visuals app) (audio app) false (lastTime app).

(** [pauseSession()], [resumeSession()], [resetSession()] *)
Definition pauseSession (now level : R) (app : BreathingCosmosApp) :=
  mkApp (Breathing.pause (breathing app)) (visuals app)
        (Engine.stop now level (audio app)) (isRunning app) (lastTime app).

Definition resumeSession (created : option Engine.ContextState) (now : R)
           (app : BreathingCosmosApp) : option BreathingCosmosApp :=
  match Engine.start created now (audio app) with
  | Some a =>
      Some (mkApp (Breathing.start (breathing app)) (visuals app) a
                  (isRunning app) (lastTime app))
  | None => None
  end.

Definition resetSession (app : BreathingCosmosApp) : BreathingCosmosApp :=
  mkApp (Breathing.reset (breathing app)) (Nebula.reset (visuals app))
        (audio app) (isRunning app) (lastTime app).

(** [startSession(mode)]; [wantMic] is [mode === 'mic'], [granted] the
    outcome of the permission request.  [None] when [audio.start()]
    rejects. *)
Definition startSession (rnd : Rand) (k : nat) (frame : list nat)
           (created : option Engine.ContextState) (wantMic granted : bool)
           (now perfNow : R) (app : BreathingCosmosApp)
  : option (BreathingCosmosApp * nat * list Breathing.Event * bool) :=
  (* Initialize audio *)
  let a := fst (Engine.init created (audio app)) in
  (* Set breathing mode *)
  let '(b, ok) :=
    if wantMic then Breathing.initMicrophone granted (breathing app)
    else (breathing app, true) in
  if negb ok then
    Some (mkApp b (visuals app) a (isRunning app) (lastTime app), k, [],
          false)
  else
    (* Start breathing detection *)
    let b := Breathing.start b in
    (* Start audio *)
    match Engine.start created now a with
    | None => None
    | Some a =>
        (* Start animation loop *)
        let '(app', k, ev) :=
          start rnd k frame now perfNow
                (mkApp b (visuals app) a (isRunning app) (lastTime app)) in
        Some (app', k, ev, true)
    end.

(** The app as its constructor leaves it, on a canvas of the given size;
    the stars take the first 1200 draws. *)
Definition new_App (rnd : Rand) (w h : R) : BreathingCosmosApp :=
  mkApp Breathing.new_detector (fst (Nebula.new_NebulaVisual rnd 0 w h))
        Engine.new_AudioEngine false 0.

End App.

(* ================================================================== *)
(** * Properties *)
(* ================================================================== *)

(** Decide the real comparisons that a definition branches on, once the
    operands are concrete enough for linear arithmetic. *)
Ltac rdecide :=
  repeat match goal with
  | |- context [Rlt_dec ?a ?b] =>
      destruct (Rlt_dec a b); try (exfalso; lra)
  | |- context [Rle_dec ?a ?b] =>
      destruct (Rle_dec a b); try (exfalso; lra)
  | |- context [Rgt_dec ?a ?b] =>
      destruct (Rgt_dec a b); try (exfalso; lra)
  | |- context [Rge_dec ?a ?b] =>
      destruct (Rge_dec a b); try (exfalso; lra)
  end.

(** Project record fields without touching the numerals. *)
Ltac fields :=
  cbn [Breathing.mode Breathing.state Breathing.isPressed
       Breathing.targetIntensity Breathing.micReady Breathing.guidedPattern
       Breathing.guidedTimer Breathing.smoothingFactor
       Breathing.transitionSpeed Breathing.phase Breathing.intensity
       Breathing.duration Breathing.totalCycles Breathing.isActive
       Breathing.inhale Breathing.holdIn Breathing.exhale Breathing.holdOut
       Breathing.with_state Breathing.with_target Breathing.with_timer
       Breathing.with_phase Breathing.with_intensity Breathing.with_duration
       Breathing.with_totalCycles Breathing.with_isActive
       fst snd negb].

Module MathUtilsFacts.
Import MathUtils.
Local Open Scope R_scope.

Lemma clamp_bounds (v lo hi : R) : lo <= hi -> lo <= clamp v lo hi <= hi.
Proof.
  intros Hle. unfold clamp, Rmin, Rmax.
  destruct (Rle_dec v lo); destruct (Rle_dec _ hi); lra.
Qed.

Lemma clamp_inside (v lo hi : R) : lo <= v <= hi -> clamp v lo hi = v.
Proof.
  intros [H1 H2]. unfold clamp, Rmin, Rmax.
  destruct (Rle_dec v lo); destruct (Rle_dec _ hi); lra.
Qed.

Lemma easeInOutSine_half : easeInOutSine (1 / 2) = 1 / 2.
Proof.
  unfold easeInOutSine.
  replace (PI * (1 / 2)) with (PI / 2) by lra.
  rewrite cos_PI2. lra.
Qed.

Lemma easeInOutSine_zero : easeInOutSine 0 = 0.
Proof.
  unfold easeInOutSine. rewrite Rmult_0_r, cos_0. lra.
Qed.

End MathUtilsFacts.

Module BreathingFacts.
Import MathUtils MathUtilsFacts Breathing.
Local Open Scope R_scope.

(** ** The mode-specific steps leave the bookkeeping fields alone *)

Lemma _updateFromMicrophone_frame (frame : list nat) (d : BreathingDetector) :
  let d' := _updateFromMicrophone frame d in
  state d' = state d /\ mode d' = mode d /\
  smoothingFactor d' = smoothingFactor d /\ guidedTimer d' = guidedTimer d.
Proof.
  unfold _updateFromMicrophone.
  destruct (micReady d); simpl; [| tauto].
  destruct frame; [tauto |].
  destruct (Rgt_dec _ _); simpl; tauto.
Qed.

Lemma _updateFromGuided_frame (dt : R) (d : BreathingDetector) :
  let d' := fst (_updateFromGuided dt d) in
  intensity (state d') = intensity (state d) /\
  duration (state d') = duration (state d) /\
  totalCycles (state d') = totalCycles (state d) /\
  isActive (state d') = isActive (state d) /\
  mode d' = mode d /\ smoothingFactor d' = smoothingFactor d.
Proof.
  unfold _updateFromGuided.
  destruct (guidedPattern d) as [p |]; simpl; [| tauto].
  destruct (Rge_dec _ _); simpl;
    repeat (destruct (Rlt_dec _ _); simpl); tauto.
Qed.

(** While the detector is paused [update] returns at its first line. *)
Lemma update_inactive (frame : list nat) (dt : R) (d : BreathingDetector) :
  isActive (state d) = false -> update frame dt d = (d, []).
Proof. intros H. unfold update. rewrite H. reflexivity. Qed.

(** An active [update] always ends its smoothing step in [clamp _ 0 1]. *)
Lemma update_active_intensity (frame : list nat) (dt : R)
      (d : BreathingDetector) :
  isActive (state d) = true ->
  exists x, intensity (state (fst (update frame dt d))) = clamp x 0 1.
Proof.
  intros Ha. unfold update. rewrite Ha. simpl.
  destruct (match mode d with
            | manual => (d, [])
            | mic => (_updateFromMicrophone frame d, [])
            | guided => _updateFromGuided dt d
            end) as [d1 ev].
  destruct (mode d1); simpl;
    try (destruct (BreathPhase_eq_dec _ _); simpl);
    try (destruct (phase (state d1)); simpl);
    try (destruct (detectPhase _); simpl);
    eexists; reflexivity.
Qed.

(** [update] in guided mode, in closed form: the timer advances and wraps,
    the cascade picks phase and target from the wrapped timer, and the
    shared tail smooths, clamps and accumulates.  Nothing else happens. *)
Lemma update_guided_eq (frame : list nat) (dt : R) (d : BreathingDetector)
      (p : GuidedPattern) :
  mode d = guided -> guidedPattern d = Some p ->
  isActive (state d) = true ->
  update frame dt d =
    let t0 := guidedTimer d + dt in
    let wrapped := Rge_dec t0 (inhale p + holdIn p + exhale p + holdOut p) in
    let t := if wrapped then 0 else t0 in
    let ev := if wrapped then [cycleComplete] else [] in
    let pt :=
      if Rlt_dec t (inhale p) then (INHALE, easeInOutSine (t / inhale p))
      else if Rlt_dec t (inhale p + holdIn p) then (HOLD_IN, 1.0)
      else if Rlt_dec t (inhale p + holdIn p + exhale p) then
        (EXHALE, 1.0 - easeInOutSine ((t - inhale p - holdIn p) / exhale p))
      else (HOLD_OUT, 0.0) in
    let i := intensity (state d) in
    (mkDetector guided
       (mkState (fst pt)
                (clamp (i + (snd pt - i) * smoothingFactor d) 0 1)
                (duration (state d) + dt) (totalCycles (state d)) true)
       (isPressed d) (snd pt) (micReady d) (Some p) t
       (smoothingFactor d) (transitionSpeed d), ev).
Proof.
  destruct d as [m [ph i du n a] pr tg mr gp gt sf ts]. fields.
  intros -> -> ->. unfold update, _updateFromGuided. fields. cbv zeta.
  destruct (Rge_dec _ _); cbv iota beta;
    repeat (destruct (Rlt_dec _ _); cbv iota beta); reflexivity.
Qed.

(** [update] in manual and mic mode, in closed form. *)
Lemma update_nonguided_eq (frame : list nat) (dt : R) (d : BreathingDetector) :
  mode d <> guided -> isActive (state d) = true ->
  update frame dt d =
    let d1 := match mode d with
              | mic => _updateFromMicrophone frame d
              | _ => d
              end in
    let i := intensity (state d) in
    let i' := clamp (i + (targetIntensity d1 - i) * smoothingFactor d) 0 1 in
    let ph := detectPhase i' in
    if BreathPhase_eq_dec (phase (state d)) ph then
      (with_state d1 (mkState ph i' (duration (state d) + dt)
                              (totalCycles (state d)) true), [])
    else
      match phase (state d), ph with
      | EXHALE, INHALE =>
          (with_state d1 (mkState ph i' 0 (S (totalCycles (state d))) true),
           [phaseChange ph; cycleComplete])
      | _, _ =>
          (with_state d1 (mkState ph i' 0 (totalCycles (state d)) true),
           [phaseChange ph])
      end.
Proof.
  intros Hm Ha. unfold update. rewrite Ha. cbn [negb].
  destruct (mode d) eqn:Em; [| | congruence].
  - (* manual *)
    cbv zeta. rewrite Em.
    unfold with_state, with_phase, with_intensity, with_duration,
      with_totalCycles. cbn. rewrite Ha.
    destruct (BreathPhase_eq_dec _ _) as [e | n]; [reflexivity |].
    destruct (phase (state d)), (detectPhase _); cbn; reflexivity.
  - (* mic *)
    destruct (_updateFromMicrophone_frame frame d) as (Hs & Hmo & Hsf & _).
    cbv zeta. rewrite Hmo, Em, Hs, Hsf.
    unfold with_state, with_phase, with_intensity, with_duration,
      with_totalCycles. cbn. rewrite Ha.
    destruct (BreathPhase_eq_dec _ _) as [e | n]; [reflexivity |].
    destruct (phase (state d)), (detectPhase _); cbn; reflexivity.
Qed.

(** ** Intensity range *)

(** C2.  For every delta time [>= 0], every mode and every microphone
    frame, the intensity after [update] lies in [[0,1]]; a paused detector
    keeps the intensity it had, which is in [[0,1]] when it was. *)
Theorem update_intensity_unit_interval (frame : list nat) (dt : R)
        (d : BreathingDetector) :
  0 <= dt ->
  (isActive (state d) = false -> 0 <= intensity (state d) <= 1) ->
  let d' := fst (update frame dt d) in
  0 <= intensity (state d') <= 1 /\
  (isActive (state d) = false -> intensity (state d') = intensity (state d)).
Proof.
  intros _ Hinv d'. subst d'.
  destruct (isActive (state d)) eqn:Ha.
  - split; [| discriminate].
    destruct (update_active_intensity frame dt d Ha) as [x ->].
    apply clamp_bounds. lra.
  - rewrite (update_inactive frame dt d Ha). cbn [fst].
    split; [apply Hinv; reflexivity | reflexivity].
Qed.

Lemma update_intensity_unit_interval_witness :
  let pressed := handlePointerDown (start new_detector) in
  isActive (state pressed) = true /\
  isActive (state session478) = true /\
  0 <= intensity (state (fst (update [] 0.1 pressed))) <= 1 /\
  0 <= intensity (state (fst (update [] 2 session478))) <= 1 /\
  0 <= intensity (state (fst (update [] 0.1 new_detector))) <= 1.
Proof.
  cbv zeta. split; [reflexivity |]. split; [reflexivity |].
  split; [| split].
  - apply (update_intensity_unit_interval
             [] 0.1 (handlePointerDown (start new_detector))).
    + lra.
    + intros _. cbn [handlePointerDown start new_detector with_state
                     with_isActive mode state intensity]. lra.
  - apply (update_intensity_unit_interval [] 2 session478).
    + lra.
    + intros _. cbn [session478 setGuidedPattern start new_detector
                     with_state with_isActive mode state intensity]. lra.
  - apply (update_intensity_unit_interval [] 0.1 new_detector).
    + lra.
    + intros _. cbn [new_detector state intensity]. lra.
Defined.

(** ** Cycle counting *)

(** One [update] adds nothing or one to [totalCycles]; it never lowers it. *)
Lemma update_totalCycles_step (frame : list nat) (dt : R)
      (d : BreathingDetector) :
  let n := totalCycles (state d) in
  let n' := totalCycles (state (fst (update frame dt d))) in
  n' = n \/ n' = S n.
Proof.
  cbv zeta.
  destruct (isActive (state d)) eqn:Ha;
    [| rewrite (update_inactive _ _ _ Ha); left; reflexivity].
  destruct (Mode_eq_guided (mode d)) as [Hm | Hm].
  - destruct (guidedPattern d) as [p |] eqn:Hp.
    + rewrite (update_guided_eq frame dt d p Hm Hp Ha). left. reflexivity.
    + unfold update, _updateFromGuided. rewrite Ha, Hm, Hp. cbn.
      rewrite Hm. left. reflexivity.
  - rewrite (update_nonguided_eq frame dt d Hm Ha). cbv zeta.
    destruct (BreathPhase_eq_dec _ _); [left; reflexivity |].
    destruct (phase (state d)), (detectPhase _); cbn; auto.
Qed.

Lemma update_totalCycles_monotone (frame : list nat) (dt : R)
      (d : BreathingDetector) :
  (totalCycles (state d) <= totalCycles (state (fst (update frame dt d))))%nat.
Proof.
  destruct (update_totalCycles_step frame dt d) as [H | H]; rewrite H; lia.
Qed.

(** In manual and mic mode the counter moves exactly on a change from
    [EXHALE] to [INHALE], by one, and [cycleComplete] is emitted exactly
    then. *)
Lemma update_nonguided_cycle (frame : list nat) (dt : R)
      (d : BreathingDetector) :
  mode d <> guided -> isActive (state d) = true ->
  let r := update frame dt d in
  if andb (if BreathPhase_eq_dec (phase (state d)) EXHALE then true else false)
          (if BreathPhase_eq_dec (phase (state (fst r))) INHALE
           then true else false)
  then totalCycles (state (fst r)) = S (totalCycles (state d)) /\
       countCycleComplete (snd r) = 1%nat
  else totalCycles (state (fst r)) = totalCycles (state d) /\
       countCycleComplete (snd r) = 0%nat.
Proof.
  intros Hm Ha. cbv zeta.
  rewrite (update_nonguided_eq frame dt d Hm Ha). cbv zeta.
  destruct (BreathPhase_eq_dec (phase (state d)) (detectPhase _)) as [e | n].
  - cbn. rewrite <- e.
    destruct (phase (state d)); cbn; auto.
  - destruct (phase (state d)), (detectPhase _); cbn; auto; congruence.
Qed.

(** Whenever the counter moves, the same call emits [cycleComplete]. *)
Lemma update_increment_emits (frame : list nat) (dt : R)
      (d : BreathingDetector) :
  let r := update frame dt d in
  totalCycles (state (fst r)) = S (totalCycles (state d)) ->
  In cycleComplete (snd r).
Proof.
  cbv zeta.
  destruct (isActive (state d)) eqn:Ha;
    [| rewrite (update_inactive _ _ _ Ha); cbn; lia].
  destruct (Mode_eq_guided (mode d)) as [Hm | Hm].
  - destruct (guidedPattern d) as [p |] eqn:Hp.
    + rewrite (update_guided_eq frame dt d p Hm Hp Ha). cbn. lia.
    + unfold update, _updateFromGuided. rewrite Ha, Hm, Hp. cbn.
      rewrite Hm. cbn. lia.
  - rewrite (update_nonguided_eq frame dt d Hm Ha). cbv zeta.
    destruct (BreathPhase_eq_dec _ _); [cbn; lia |].
    destruct (phase (state d)), (detectPhase _); cbn; auto; lia.
Qed.

(** In guided mode no call ever moves the counter. *)
Lemma update_guided_totalCycles (frame : list nat) (dt : R)
      (d : BreathingDetector) :
  mode d = guided ->
  totalCycles (state (fst (update frame dt d))) = totalCycles (state d).
Proof.
  intros Hm.
  destruct (isActive (state d)) eqn:Ha;
    [| rewrite (update_inactive _ _ _ Ha); reflexivity].
  destruct (guidedPattern d) as [p |] eqn:Hp.
  - rewrite (update_guided_eq frame dt d p Hm Hp Ha). reflexivity.
  - unfold update, _updateFromGuided. rewrite Ha, Hm, Hp. cbn.
    rewrite Hm. reflexivity.
Qed.

(** C1, at a guided wrap.  With pattern [{4,7,8,0}], [guidedTimer = 18.95]
    and [update(0.1)] the timer passes 19 and wraps to 0, [cycleComplete] is
    emitted once, and [totalCycles] is still what it was. *)
Theorem guided_wrap_keeps_totalCycles :
  let r := update [] 0.1 lateSession478 in
  guidedTimer (fst r) = 0 /\
  snd r = [cycleComplete] /\
  totalCycles (state lateSession478) = 0%nat /\
  totalCycles (state (fst r)) = 0%nat.
Proof.
  cbv zeta.
  rewrite (update_guided_eq [] 0.1 lateSession478 pattern478
             eq_refl eq_refl eq_refl).
  cbn [lateSession478 pattern478 guidedTimer inhale holdIn exhale holdOut
       state totalCycles]. cbv zeta.
  destruct (Rge_dec _ _) as [_ | n]; [| exfalso; lra].
  cbn. auto.
Qed.

(** ** Phase changes *)

(** In manual and mic mode a call that changes the phase leaves
    [duration] at 0 and emits [phaseChange] with the new phase. *)
Lemma update_nonguided_phase_change (frame : list nat) (dt : R)
      (d : BreathingDetector) :
  mode d <> guided ->
  let r := update frame dt d in
  phase (state (fst r)) <> phase (state d) ->
  duration (state (fst r)) = 0 /\
  In (phaseChange (phase (state (fst r)))) (snd r).
Proof.
  intros Hm. cbv zeta.
  destruct (isActive (state d)) eqn:Ha;
    [| rewrite (update_inactive _ _ _ Ha); cbn; congruence].
  rewrite (update_nonguided_eq frame dt d Hm Ha). cbv zeta.
  destruct (BreathPhase_eq_dec _ _) as [e | n]; [cbn; congruence |].
  destruct (phase (state d)), (detectPhase _); cbn; auto.
Qed.

(** C4, in guided mode.  From a fresh guided session [update(2)] moves the
    phase from [EXHALE] to [INHALE] and [update(3)] then moves it to
    [HOLD_IN]; neither call emits an event and [duration] keeps growing. *)
Theorem guided_phase_change_is_silent :
  let r2 := update [] 2 session478 in
  let r5 := update [] 3 (fst r2) in
  phase (state session478) = EXHALE /\
  phase (state (fst r2)) = INHALE /\
  duration (state (fst r2)) = 2 /\ snd r2 = [] /\
  phase (state (fst r5)) = HOLD_IN /\
  duration (state (fst r5)) = 5 /\ snd r5 = [].
Proof.
  cbv zeta.
  rewrite (update_guided_eq [] 2 session478 pattern478
             eq_refl eq_refl eq_refl).
  cbn [session478 start setGuidedPattern new_detector pattern478 with_state
       with_isActive guidedTimer inhale holdIn exhale holdOut state phase
       intensity duration totalCycles smoothingFactor].
  cbv zeta.
  destruct (Rge_dec (0 + 2) (4 + 7 + 8 + 0)) as [g | _]; [exfalso; lra |].
  destruct (Rlt_dec (0 + 2) 4) as [_ | n]; [| exfalso; lra].
  cbn [fst snd].
  rewrite update_guided_eq with (p := pattern478); try reflexivity.
  cbn [pattern478 guidedTimer inhale holdIn exhale holdOut state phase
       intensity duration totalCycles smoothingFactor].
  cbv zeta.
  destruct (Rge_dec (0 + 2 + 3) (4 + 7 + 8 + 0)) as [g | _];
    [exfalso; lra |].
  destruct (Rlt_dec (0 + 2 + 3) 4) as [l | _]; [exfalso; lra |].
  destruct (Rlt_dec (0 + 2 + 3) (4 + 7)) as [_ | n]; [| exfalso; lra].
  cbn [fst snd state phase duration].
  repeat split; try reflexivity; lra.
Qed.

(** ** The 4-7-8 pattern *)

(** C3 as stated fails at the hold.  From a fresh guided session,
    [update(2)] and [update(3)] bring [guidedTimer] to 5: the phase is
    [HOLD_IN] and the target is 1.0, but the intensity, smoothed like in
    every other mode, is 0.575. *)
Lemma guided_holdIn_intensity_below_one :
  let d2 := fst (update [] 2 session478) in
  let d5 := fst (update [] 3 d2) in
  guidedTimer d2 = 2 /\ intensity (state d2) = 0.5 /\
  guidedTimer d5 = 5 /\ phase (state d5) = HOLD_IN /\
  targetIntensity d5 = 1 /\
  intensity (state d5) = 0.575 /\ intensity (state d5) <> 1.
Proof.
  cbv zeta.
  rewrite (update_guided_eq [] 2 session478 pattern478
             eq_refl eq_refl eq_refl).
  cbn [session478 start setGuidedPattern new_detector pattern478 with_state
       with_isActive guidedTimer inhale holdIn exhale holdOut state phase
       intensity duration totalCycles smoothingFactor].
  cbv zeta.
  destruct (Rge_dec (0 + 2) (4 + 7 + 8 + 0)) as [g | _]; [exfalso; lra |].
  destruct (Rlt_dec (0 + 2) 4) as [_ | n]; [| exfalso; lra].
  cbn [fst snd].
  replace ((0 + 2) / 4) with (1 / 2) by lra.
  rewrite easeInOutSine_half.
  rewrite (clamp_inside (0.5 + (1 / 2 - 0.5) * 0.15) 0 1) by lra.
  rewrite update_guided_eq with (p := pattern478); try reflexivity.
  cbn [pattern478 guidedTimer inhale holdIn exhale holdOut state phase
       intensity duration totalCycles smoothingFactor].
  cbv zeta.
  destruct (Rge_dec (0 + 2 + 3) (4 + 7 + 8 + 0)) as [g | _];
    [exfalso; lra |].
  destruct (Rlt_dec (0 + 2 + 3) 4) as [l | _]; [exfalso; lra |].
  destruct (Rlt_dec (0 + 2 + 3) (4 + 7)) as [_ | n]; [| exfalso; lra].
  cbn [fst snd state phase intensity guidedTimer targetIntensity].
  rewrite clamp_inside by lra.
  repeat split; try reflexivity; lra.
Qed.

(** C3, amended.  In guided mode with pattern [{4,7,8,0}], smoothing factor
    0.15 and an intensity in [[0,1]]: a call that brings [guidedTimer] to 2
    leaves the phase [INHALE] and the intensity strictly between 0 and 1; a
    call that brings it to 5 leaves the phase [HOLD_IN], the target
    intensity exactly 1.0 and the intensity one smoothing step closer to 1
    (it is 1 only if it already was); a call that brings it to 19 or more
    wraps it to 0 and emits [cycleComplete] exactly once, and a call that
    does not reach 19 emits nothing. *)
Theorem guided_478_checkpoints (frame : list nat) (dt : R)
        (d : BreathingDetector) :
  mode d = guided -> guidedPattern d = Some pattern478 ->
  isActive (state d) = true -> smoothingFactor d = 0.15 ->
  0 <= intensity (state d) <= 1 ->
  let r := update frame dt d in
  let i := intensity (state d) in
  (guidedTimer d + dt = 2 ->
     guidedTimer (fst r) = 2 /\ phase (state (fst r)) = INHALE /\
     0 < intensity (state (fst r)) < 1) /\
  (guidedTimer d + dt = 5 ->
     guidedTimer (fst r) = 5 /\ phase (state (fst r)) = HOLD_IN /\
     targetIntensity (fst r) = 1 /\
     intensity (state (fst r)) = i + (1 - i) * 0.15 /\
     (intensity (state (fst r)) = 1 <-> i = 1)) /\
  (guidedTimer d + dt >= 19 ->
     guidedTimer (fst r) = 0 /\ snd r = [cycleComplete] /\
     countCycleComplete (snd r) = 1%nat) /\
  (guidedTimer d + dt < 19 ->
     guidedTimer (fst r) = guidedTimer d + dt /\ snd r = []).
Proof.
  intros Hm Hp Ha Hsf Hi. cbv zeta.
  rewrite (update_guided_eq frame dt d pattern478 Hm Hp Ha).
  rewrite Hsf.
  cbn [pattern478 inhale holdIn exhale holdOut]. cbv zeta.
  set (i := intensity (state d)) in *.
  split; [| split; [| split]]; intros H.
  - rewrite H. rdecide. fields.
    replace (2 / 4) with (1 / 2) by lra. rewrite easeInOutSine_half.
    rewrite clamp_inside by lra.
    repeat split; try reflexivity; lra.
  - rewrite H. rdecide. fields.
    rewrite clamp_inside by lra.
    repeat split; try reflexivity; lra.
  - rdecide; fields; repeat split; reflexivity.
  - rdecide; fields; split; reflexivity.
Qed.

Lemma guided_478_checkpoints_witness :
  phase (state (fst (update [] 2 session478))) = INHALE /\
  0 < intensity (state (fst (update [] 2 session478))) < 1.
Proof.
  destruct (guided_478_checkpoints [] 2 session478
              eq_refl eq_refl eq_refl eq_refl) as [H2 _].
  - unfold session478, start, setGuidedPattern, new_detector. fields. lra.
  - destruct H2 as (_ & Hph & Hi).
    + unfold session478, start, setGuidedPattern, new_detector. fields. lra.
    + split; assumption.
Defined.

(** A remark on manual mode.  With the factor 0.15 and a target in
    [[0,1]], one call moves an intensity of at most 0.6 to at most 0.66: a
    detector whose phase agrees with its intensity cannot go from [EXHALE]
    to [INHALE] in one call, it passes through [HOLD_IN]. *)
Lemma manual_exhale_not_inhale (frame : list nat) (dt : R)
      (d : BreathingDetector) :
  mode d = manual -> isActive (state d) = true ->
  smoothingFactor d = 0.15 ->
  0 <= targetIntensity d <= 1 -> 0 <= intensity (state d) <= 0.6 ->
  phase (state (fst (update frame dt d))) <> INHALE.
Proof.
  intros Hm Ha Hsf Ht Hi.
  rewrite update_nonguided_eq by (rewrite ?Hm; congruence || assumption).
  rewrite Hm, Hsf. cbv zeta.
  set (i' := clamp _ 0 1).
  assert (Hi' : i' <= 0.66).
  { subst i'. rewrite clamp_inside; nra. }
  assert (Hph : detectPhase i' <> INHALE).
  { unfold detectPhase. rdecide; discriminate. }
  destruct (BreathPhase_eq_dec _ _); [exact Hph |].
  destruct (phase (state d)), (detectPhase i'); fields; congruence.
Qed.

End BreathingFacts.

Module NebulaFacts.
Import MathUtils MathUtilsFacts Vec Nebula.
Local Open Scope R_scope.

(** ** One particle *)

Lemma wrap_range (c extent : R) :
  0 <= extent -> 0 <= wrap c extent <= extent.
Proof.
  intros He. unfold wrap.
  destruct (Rlt_dec c 0); destruct (Rgt_dec _ extent); lra.
Qed.

Lemma wrap_inside (c extent : R) : 0 <= c <= extent -> wrap c extent = c.
Proof.
  intros Hc. unfold wrap.
  destruct (Rlt_dec c 0); [lra |]. destruct (Rgt_dec c extent); lra.
Qed.

(** The boolean [Particle.update] returns is [life > 0] of the life it
    has just stored. *)
Lemma Particle_update_alive (dt i w h : R) (p : Particle) :
  snd (Particle_update dt i w h p) = true ->
  life (fst (Particle_update dt i w h p)) > 0.
Proof.
  unfold Particle_update. cbn [fst snd life].
  destruct (Rgt_dec _ 0); [trivial | discriminate].
Qed.

Lemma Particle_update_in_canvas (dt i w h : R) (p : Particle) :
  0 <= w -> 0 <= h ->
  let p' := fst (Particle_update dt i w h p) in
  0 <= x (position p') <= w /\ 0 <= y (position p') <= h.
Proof.
  intros Hw Hh. unfold Particle_update. cbn [fst position x y].
  split; apply wrap_range; assumption.
Qed.

(** There is no guard on the sign of [deltaTime]: age and twinkle phase
    move by it whatever it is. *)
Lemma Particle_update_age (dt i w h : R) (p : Particle) :
  age (fst (Particle_update dt i w h p)) = age p + dt.
Proof. reflexivity. Qed.

(** ** The spawn loop *)

Lemma _spawnParticle_length (rnd : Rand) (k : nat) (i w h : R) (pal : string)
      (ps : list Particle) :
  List.length (fst (_spawnParticle rnd k i w h pal ps)) = S (List.length ps).
Proof.
  unfold _spawnParticle, new_Particle, Vector2_random, random.
  cbn [fst]. rewrite length_app. cbn [List.length]. lia.
Qed.

(** The loop only pushes while the list is below the cap. *)
Lemma spawnLoop_length (fuel : nat) (rnd : Rand) (i rate w h : R)
      (pal : string) (maxP : nat) :
  forall (k : nat) (timer : R) (ps : list Particle),
    (List.length ps <= maxP)%nat ->
    (List.length (snd (fst (spawnLoop fuel rnd k i rate w h pal maxP
                                      timer ps))) <= maxP)%nat.
Proof.
  induction fuel as [| fuel IH]; intros k timer ps Hlen; cbn [spawnLoop].
  - destruct (andb _ _); assumption.
  - destruct (Rge_dec timer rate); cbn [andb]; [| assumption].
    destruct (Nat.ltb_spec (List.length ps) maxP) as [Hlt | Hge];
      [| assumption].
    destruct (_spawnParticle rnd k i w h pal ps) as [ps' k'] eqn:E.
    apply IH.
    pose proof (_spawnParticle_length rnd k i w h pal ps) as L.
    rewrite E in L. cbn [fst] in L. lia.
Qed.

(** With [maxParticles - particles.length] turns the loop is not cut
    short: on return its own condition is false. *)
Lemma spawnLoop_exit (fuel : nat) (rnd : Rand) (i rate w h : R)
      (pal : string) (maxP : nat) :
  forall (k : nat) (timer : R) (ps : list Particle),
    (maxP - List.length ps <= fuel)%nat ->
    let r := spawnLoop fuel rnd k i rate w h pal maxP timer ps in
    ~ (fst (fst r) >= rate /\ (List.length (snd (fst r)) < maxP)%nat).
Proof.
  induction fuel as [| fuel IH]; intros k timer ps Hfuel; cbn [spawnLoop].
  - destruct (Rge_dec timer rate); cbn [andb].
    + destruct (Nat.ltb_spec (List.length ps) maxP) as [Hlt | Hge];
        cbn [fst snd]; lia.
    + cbn [fst snd]. tauto.
  - destruct (Rge_dec timer rate); cbn [andb]; [| cbn [fst snd]; tauto].
    destruct (Nat.ltb_spec (List.length ps) maxP) as [Hlt | Hge];
      [| cbn [fst snd]; lia].
    destruct (_spawnParticle rnd k i w h pal ps) as [ps' k'] eqn:E.
    apply IH.
    pose proof (_spawnParticle_length rnd k i w h pal ps) as L.
    rewrite E in L. cbn [fst] in L. lia.
Qed.

(** ** The live set after [update] *)

Lemma survivors_Forall (f : Particle -> Particle * bool)
      (P : Particle -> Prop) (ps : list Particle) :
  (forall p, snd (f p) = true -> P (fst (f p))) ->
  Forall P (map fst (filter snd (map f ps))).
Proof.
  intros Hf. induction ps as [| p ps IH]; cbn [map filter].
  - constructor.
  - destruct (snd (f p)) eqn:E; cbn [map]; [| exact IH].
    constructor; [apply Hf; exact E | exact IH].
Qed.

Lemma survivors_length (f : Particle -> Particle * bool)
      (ps : list Particle) :
  (List.length (map fst (filter snd (map f ps))) <= List.length ps)%nat.
Proof.
  rewrite length_map.
  etransitivity; [apply filter_length_le |]. rewrite length_map. lia.
Qed.

Lemma update_particles (rnd : Rand) (k : nat)
      (bs : Breathing.BreathState) (dt : R) (v : NebulaVisual) :
  let v' := fst (update rnd k bs dt v) in
  canvasWidth v' = canvasWidth v /\ canvasHeight v' = canvasHeight v /\
  maxParticles v' = maxParticles v /\
  ((List.length (particles v) <= maxParticles v)%nat ->
   (List.length (particles v') <= maxParticles v)%nat) /\
  (0 <= canvasWidth v -> 0 <= canvasHeight v ->
   Forall (fun p => life p > 0 /\
                    0 <= x (position p) <= canvasWidth v /\
                    0 <= y (position p) <= canvasHeight v)
          (particles v')).
Proof.
  cbv zeta. unfold update.
  destruct (spawnLoop _ _ _ _ _ _ _ _ _ _ _) as [[timer ps] k'] eqn:E.
  cbn [fst canvasWidth canvasHeight maxParticles particles].
  repeat split.
  - intros Hlen.
    etransitivity; [apply survivors_length |].
    pose proof (spawnLoop_length
                  (maxParticles v - List.length (particles v)) rnd
                  (Breathing.intensity bs)
                  (spawnRate v / (1.0 + Breathing.intensity bs * 2))
                  (canvasWidth v) (canvasHeight v) (nebula_palette v)
                  (maxParticles v) k (spawnTimer v + dt) (particles v) Hlen)
      as L.
    rewrite E in L. exact L.
  - intros Hw Hh. apply survivors_Forall. intros p Hp. split.
    + apply Particle_update_alive. exact Hp.
    + apply Particle_update_in_canvas; assumption.
Qed.

(** Every simulation a caller can build has the cap of the constructor and
    stays under it. *)
Lemma reachable_cap (v : NebulaVisual) :
  reachable v ->
  maxParticles v = 1500%nat /\ (List.length (particles v) <= 1500)%nat.
Proof.
  induction 1 as [rnd k w h | rnd k bs dt v Hr [IHm IHl]
                  | rnd k w h v Hr [IHm IHl] | pal v Hr [IHm IHl]
                  | v Hr [IHm IHl]].
  - unfold new_NebulaVisual.
    destruct (_generateBackgroundStars _ _ _ _ _) as [stars k'].
    cbn [fst maxParticles particles List.length]. split; [reflexivity | lia].
  - destruct (update_particles rnd k bs dt v) as (_ & _ & Hm & Hlen & _).
    rewrite Hm. split; [exact IHm |].
    rewrite <- IHm. apply Hlen. rewrite IHm. exact IHl.
  - unfold resize.
    destruct (_generateBackgroundStars _ _ _ _ _) as [stars k'].
    cbn [fst maxParticles particles]. split; assumption.
  - cbn [setPalette maxParticles particles]. split; assumption.
  - cbn [reset maxParticles particles List.length]. split; [assumption | lia].
Qed.

(** C5.  After every [update] of a simulation built through the public
    methods, on a canvas of non-negative width and height: every particle
    of the live set has [life > 0], the live set has at most
    [maxParticles = 1500] members, and every live particle's position lies
    in [[0, width] x [0, height]]. *)
Theorem update_live_set (rnd : Rand) (k : nat) (bs : Breathing.BreathState)
        (dt : R) (v : NebulaVisual) :
  reachable v -> 0 <= canvasWidth v -> 0 <= canvasHeight v ->
  let v' := fst (update rnd k bs dt v) in
  Forall (fun p => ~ life p <= 0) (particles v') /\
  maxParticles v' = 1500%nat /\
  (List.length (particles v') <= 1500)%nat /\
  Forall (fun p => 0 <= x (position p) <= canvasWidth v' /\
                   0 <= y (position p) <= canvasHeight v')
         (particles v').
Proof.
  intros Hr Hw Hh v'.
  destruct (reachable_cap v Hr) as [Hm Hl].
  destruct (update_particles rnd k bs dt v) as (Ew & Eh & Em & Hlen & Hall).
  fold v' in Ew, Eh, Em, Hlen, Hall.
  specialize (Hall Hw Hh).
  repeat split.
  - eapply Forall_impl; [| exact Hall]. cbv beta. intros p (Hp & _). lra.
  - congruence.
  - rewrite <- Hm. apply Hlen. rewrite Hm. exact Hl.
  - rewrite Ew, Eh. eapply Forall_impl; [| exact Hall].
    cbv beta. intros p (_ & Hp). exact Hp.
Qed.

Lemma new_NebulaVisual_canvas (rnd : Rand) (k : nat) (w h : R) :
  canvasWidth (fst (new_NebulaVisual rnd k w h)) = w /\
  canvasHeight (fst (new_NebulaVisual rnd k w h)) = h.
Proof.
  unfold new_NebulaVisual.
  destruct (_generateBackgroundStars _ _ _ _ _) as [stars k'].
  split; reflexivity.
Qed.

Lemma update_live_set_witness :
  let v := fst (new_NebulaVisual half 0 800 600) in
  let bs := Breathing.mkState Breathing.EXHALE 0.5 0 0%nat true in
  (List.length (particles (fst (update half 1200 bs 0.1 v))) <= 1500)%nat.
Proof.
  intros v bs.
  destruct (new_NebulaVisual_canvas half 0 800 600) as [Ew Eh].
  apply (update_live_set half 1200 bs 0.1 v).
  - apply reach_new.
  - unfold v. rewrite Ew. lra.
  - unfold v. rewrite Eh. lra.
Defined.

(** ** Delta times that are not positive *)

Lemma add_zero (v : Vector2) : add v (mkVec 0 0) = v.
Proof. destruct v as [a b]. unfold add. cbn [x y]. f_equal; lra. Qed.

Lemma limit_below (v : Vector2) (max : R) :
  magnitude v <= max -> limit v max = v.
Proof.
  intros H. unfold limit. destruct (Rgt_dec _ _); [lra | reflexivity].
Qed.

Lemma magnitude_axis (a : R) : 0 <= a -> magnitude (mkVec a 0) = a.
Proof.
  intros Ha. unfold magnitude. cbn [x y].
  replace (a * a + 0 * 0) with (a * a) by lra. apply sqrt_square. exact Ha.
Qed.

(** C6 as stated fails.  [update(-1, ...)] on a particle aged one second at
    x = 100 with velocity (1, 0) takes its age back to 0 and moves it to
    x = 40; [update(0, ...)] on a freshly spawned particle of speed 10 cuts
    its velocity to (2, 0). *)
Lemma nonpositive_dt_is_integrated :
  let p := fst (Particle_update (-1) 0.5 800 600 drifting) in
  let q := fst (Particle_update 0 0.5 800 600 fresh) in
  age drifting = 1 /\ age p = 0 /\
  x (position drifting) = 100 /\ x (position p) = 40 /\
  x (velocity fresh) = 10 /\ x (velocity q) = 2.
Proof.
  cbv zeta. unfold Particle_update, drifting, fresh.
  cbn [fst age position velocity acceleration maxLife x y].
  rewrite !add_zero.
  rewrite (limit_below (mkVec 1 0) 2) by (rewrite magnitude_axis; lra).
  unfold limit, normalize, divide.
  rewrite (magnitude_axis 10) by lra.
  destruct (Rgt_dec 10 2) as [_ | n]; [| exfalso; lra].
  destruct (Rgt_dec 10 0) as [_ | n]; [| exfalso; lra].
  destruct (Req_dec_T 10 0) as [e | _]; [exfalso; lra |].
  unfold copy, multiply, add. cbn [x y].
  rewrite wrap_inside by lra.
  repeat split; lra.
Qed.

(** C6, amended.  [Particle.update] has no guard on [deltaTime]; it
    integrates any value: the age moves by [deltaTime], whatever its
    sign.  With [deltaTime = 0] every particle keeps its age, and every
    particle that lies in the canvas keeps its position, whatever its
    velocity and acceleration.  The velocity does not depend on
    [deltaTime] at all: it is kept, for every [deltaTime], by a particle
    with no pending acceleration and a speed of at most 2. *)
Theorem zero_dt_keeps_motion (dt i w h : R) (p : Particle) :
  let p0 := fst (Particle_update 0 i w h p) in
  let p' := fst (Particle_update dt i w h p) in
  age p' = age p + dt /\
  age p0 = age p /\
  (0 <= x (position p) <= w -> 0 <= y (position p) <= h ->
   position p0 = position p) /\
  (acceleration p = mkVec 0 0 -> magnitude (velocity p) <= 2 ->
   velocity p' = velocity p /\ velocity p0 = velocity p).
Proof.
  cbv zeta. unfold Particle_update. cbn [fst position velocity age].
  repeat apply conj.
  - reflexivity.
  - lra.
  - intros Hx Hy. unfold copy, multiply, add. cbn [x y].
    destruct (position p) as [px py]. cbn [x y] in *.
    f_equal.
    + match goal with
      | |- wrap ?a _ = _ => replace a with px by lra
      end.
      apply wrap_inside. exact Hx.
    + match goal with
      | |- wrap ?a _ = _ => replace a with py by lra
      end.
      apply wrap_inside. exact Hy.
  - intros Ha Hv. rewrite Ha, add_zero, (limit_below _ _ Hv).
    split; reflexivity.
Qed.

Lemma zero_dt_keeps_motion_witness :
  age (fst (Particle_update 0 0.5 800 600 fresh)) = age fresh /\
  position (fst (Particle_update 0 0.5 800 600 fresh)) = position fresh /\
  velocity (fst (Particle_update (-1) 0.5 800 600 drifting))
  = velocity drifting.
Proof.
  destruct (zero_dt_keeps_motion 0 0.5 800 600 fresh)
    as (_ & Ha & Hp & _).
  destruct (zero_dt_keeps_motion (-1) 0.5 800 600 drifting)
    as (_ & _ & _ & Hv).
  repeat apply conj.
  - exact Ha.
  - apply Hp; cbn [fresh position x y]; lra.
  - apply Hv.
    + reflexivity.
    + cbn [drifting velocity]. rewrite magnitude_axis; lra.
Defined.

End NebulaFacts.

Module AudioFacts.
Import MathUtils MathUtilsFacts WebAudio App.
Local Open Scope R_scope.

(** ** Automation timelines *)

Lemma Forall_insertEvent (P : ParamEvent -> Prop) (e : ParamEvent)
      (l : list ParamEvent) :
  P e -> Forall P l -> Forall P (insertEvent e l).
Proof.
  intros He H. induction H as [| x l Hx Hl IH]; cbn [insertEvent].
  - constructor; [exact He | constructor].
  - destruct (Rlt_dec _ _); repeat (constructor; try assumption).
Qed.

(** An event no earlier than all the others goes to the end. *)
Lemma insertEvent_settled (e : ParamEvent) (l : list ParamEvent) :
  Forall (fun x => eventTime x <= eventTime e) l ->
  insertEvent e l = l ++ [e].
Proof.
  induction 1 as [| x l Hx _ IH]; cbn [insertEvent app]; [reflexivity |].
  destruct (Rlt_dec _ _); [lra | rewrite IH; reflexivity].
Qed.

Lemma heading_last (v : R) (l : list ParamEvent) (e : ParamEvent) :
  heading (mkParam v (l ++ [e])) = eventTarget e.
Proof.
  unfold heading. cbn [timeline]. rewrite rev_app_distr. reflexivity.
Qed.


Lemma settledBy_param (t v : R) : settledBy t (param v).
Proof. constructor. Qed.

Lemma settledBy_mono (t t' : R) (p : AudioParam) :
  t <= t' -> settledBy t p -> settledBy t' p.
Proof.
  intros Ht H. unfold settledBy in *. eapply Forall_impl; [| exact H].
  cbv beta. intros. lra.
Qed.

Lemma settledBy_schedule (t : R) (e : ParamEvent) (p : AudioParam) :
  eventTime e <= t -> settledBy t p -> settledBy t (schedule e p).
Proof.
  intros He H. unfold settledBy, schedule. cbn [timeline].
  apply Forall_insertEvent; assumption.
Qed.

(** With nothing scheduled later, a new event decides where the parameter
    ends. *)
Lemma heading_schedule (e : ParamEvent) (p : AudioParam) :
  settledBy (eventTime e) p -> heading (schedule e p) = eventTarget e.
Proof.
  intros H. unfold schedule. rewrite (insertEvent_settled _ _ H).
  apply heading_last.
Qed.


Lemma cancel_before (t : R) (p : AudioParam) :
  Forall (fun x => eventTime x < t)
         (timeline (cancelScheduledValues t p)).
Proof.
  unfold cancelScheduledValues. cbn [timeline]. apply Forall_forall.
  intros x Hx. apply filter_In in Hx. destruct Hx as [_ H].
  destruct (Rlt_dec _ _); [assumption | discriminate].
Qed.

(** The fades of [start()] and [stop()]: cancel from [now] on, pin the
    level at [now], ramp until [now + d].  The ramp is the last event. *)
Lemma fade_timeline (p : AudioParam) (now v0 v1 d : R) :
  0 <= d ->
  timeline (schedule (linearRampToValueAtTime v1 (now + d))
              (schedule (setValueAtTime v0 now)
                 (cancelScheduledValues now p)))
  = timeline (cancelScheduledValues now p)
    ++ [setValueAtTime v0 now; linearRampToValueAtTime v1 (now + d)].
Proof.
  intros Hd. pose proof (cancel_before now p) as Hc.
  unfold schedule at 2. cbn [value timeline].
  rewrite (insertEvent_settled (setValueAtTime v0 now)).
  2:{ eapply Forall_impl; [| exact Hc]. cbv beta. cbn [eventTime].
      intros. lra. }
  unfold schedule. cbn [value timeline].
  rewrite insertEvent_settled.
  - rewrite <- app_assoc. reflexivity.
  - apply Forall_app. split.
    + eapply Forall_impl; [| exact Hc]. cbv beta. cbn [eventTime].
      intros. lra.
    + constructor; [cbn [eventTime]; lra | constructor].
Qed.

Lemma heading_fade (p : AudioParam) (now v0 v1 d : R) :
  0 <= d ->
  heading (schedule (linearRampToValueAtTime v1 (now + d))
             (schedule (setValueAtTime v0 now)
                (cancelScheduledValues now p))) = v1.
Proof.
  intros Hd. unfold heading. rewrite (fade_timeline p now v0 v1 d Hd).
  rewrite rev_app_distr. reflexivity.
Qed.









(** ** Mute and unmute *)




(** ** Calls in the wrong state *)

(** The guards of [start], [stop] and [update].  [start()] on a playing
    synthesizer returns at once, and so does [start()] on an engine that
    is marked playing; [stop()] and [update()] on a stopped synthesizer or
    engine change nothing.  On an engine that is playing a sounding
    synthesizer, [start()] therefore leaves the one set of three started
    generators as it is. *)
Lemma guarded_calls_return (bs : Breathing.BreathState)
      (created : option Engine.ContextState) (now level : R)
      (s : Synth.BreathingSynth) (e : Engine.AudioEngine) :
  (Synth.isPlaying s = true -> Synth.start now s = Some s) /\
  (Synth.isPlaying s = false ->
     Synth.stop now level s = s /\ Synth.update bs now s = s) /\
  (Engine.isPlaying e = true -> Engine.isInitialized e = true ->
   Engine.ctx e = Some Engine.ctx_running ->
     Engine.start created now e = Some e) /\
  (Engine.isPlaying e = false ->
     Engine.stop now level e = e /\ Engine.update bs now e = e) /\
  (engine_sounding e s ->
     Engine.start created now e = Some e /\
     Engine.synth e = Some s /\
     List.length (Synth.generators s) = 3%nat /\
     forallb started (Synth.generators s) = true).
Proof.
  assert (He : Engine.isPlaying e = true -> Engine.isInitialized e = true ->
               Engine.ctx e = Some Engine.ctx_running ->
               Engine.start created now e = Some e).
  { intros Hp Hi Hc. unfold Engine.start. rewrite Hi. cbn [negb].
    rewrite Hc, Hp. cbn [negb].
    destruct e as [c sy ini pl mu pal]. cbn in *. subst.
    destruct sy; reflexivity. }
  repeat apply conj.
  - intros H. unfold Synth.start. rewrite H. reflexivity.
  - intros H. unfold Synth.stop, Synth.update. rewrite H.
    split; reflexivity.
  - exact He.
  - intros H. unfold Engine.stop, Engine.update. rewrite H.
    destruct (Engine.synth e); split; reflexivity.
  - intros (Hp & Hi & Hc & Hs & (_ & Sd & Sb & Sh)).
    repeat apply conj; [apply He; assumption | exact Hs | reflexivity |].
    unfold Synth.generators. cbn [forallb]. rewrite Sd, Sb, Sh.
    reflexivity.
Qed.

(** C8 fails on an engine the public methods reach.  [start()], [stop()],
    a second [start()] before the stop timeout has run, then the timeout:
    the engine is marked playing, it is initialised and its context runs,
    and its synthesizer is the fresh one the timeout installed, with no
    generator started.  [start()] on that engine returns at its guard and
    leaves no active generator set where the claim has exactly one, and
    [update] reaches no audio parameter.  After the first [start()] alone
    the three generators run. *)
Theorem start_while_playing_finds_no_generator
        (created : option Engine.ContextState) (t1 t2 t3 level : R)
        (bs : Breathing.BreathState) :
  exists e1 s1 e3 e4 s4,
    Engine.start (Some Engine.ctx_suspended) 0 Engine.new_AudioEngine
      = Some e1 /\
    Engine.synth e1 = Some s1 /\
    forallb running (Synth.generators s1) = true /\
    Engine.start created t2 (Engine.stop t1 level e1) = Some e3 /\
    App.stopTimeout e3 = Some e4 /\
    Engine.isPlaying e4 = true /\
    Engine.isInitialized e4 = true /\
    Engine.ctx e4 = Some Engine.ctx_running /\
    Engine.synth e4 = Some s4 /\
    Engine.start created t3 e4 = Some e4 /\
    Synth.isPlaying s4 = false /\
    existsb running (Synth.generators s4) = false /\
    existsb started (Synth.generators s4) = false /\
    Engine.update bs t3 e4 = e4.
Proof.
  do 5 eexists. repeat apply conj; reflexivity.
Qed.

End AudioFacts.

Module ColorFacts.
Import Color.
Local Open Scope Z_scope.

Ltac qlra := Lqa.lra.

(** ** Rounding *)

Lemma floor_unique (q : Q) (i : Z) :
  (inject_Z i <= q)%Q -> (q < inject_Z (i + 1))%Q -> floor q = i.
Proof.
  intros H1 H2. unfold floor.
  pose proof (Qfloor_le q). pose proof (Qlt_floor q).
  assert (inject_Z (Qfloor q) < inject_Z (i + 1))%Q by qlra.
  assert (inject_Z i < inject_Z (Qfloor q + 1))%Q by qlra.
  rewrite <- Zlt_Qlt in *. lia.
Qed.

(** [Math.round] is within one half of its argument. *)
Lemma round_near (q : Q) :
  (q - (1 # 2) < inject_Z (round q) /\ inject_Z (round q) <= q + (1 # 2))%Q.
Proof.
  unfold round.
  pose proof (Qfloor_le (q + (1 # 2))). pose proof (Qlt_floor (q + (1 # 2))).
  rewrite inject_Z_plus in *. change (inject_Z 1) with 1%Q in *.
  split; qlra.
Qed.

Lemma round_range (q : Q) (lo hi : Z) :
  (inject_Z lo <= q)%Q -> (q <= inject_Z hi)%Q -> lo <= round q <= hi.
Proof.
  intros Hlo Hhi. destruct (round_near q) as [H1 H2].
  assert (A : (inject_Z lo < inject_Z (round q + 1))%Q).
  { rewrite inject_Z_plus. change (inject_Z 1) with 1%Q. qlra. }
  assert (B : (inject_Z (round q) < inject_Z (hi + 1))%Q).
  { rewrite inject_Z_plus. change (inject_Z 1) with 1%Q. qlra. }
  rewrite <- Zlt_Qlt in *. lia.
Qed.

(** A blend with parameter in [[0,1]] stays between its end points. *)
Lemma lerp_range (c1 c2 : Z) (u : Q) :
  0 <= c1 <= 255 -> 0 <= c2 <= 255 -> (0 <= u <= 1)%Q ->
  (0 <= lerp (inject_Z c1) (inject_Z c2) u <= 255)%Q.
Proof.
  intros [A1 A2] [B1 B2] [U1 U2]. unfold lerp.
  rewrite Zle_Qle in A1, A2, B1, B2.
  change (inject_Z 0) with 0%Q in *. change (inject_Z 255) with 255%Q in *.
  set (x := inject_Z c1) in *. set (y := inject_Z c2) in *.
  split; Lqa.nra.
Qed.

(** ** Hexadecimal encoding *)

Example hexToRgb_upper :
  hexToRgb (Some "FFA500"%string) = Some (mkRgb 255 165 0).
Proof. reflexivity. Qed.

Example hexToRgb_undefined : hexToRgb None = None.
Proof. reflexivity. Qed.

Example rgbToHex_white : rgbToHex 255 255 255 = "#ffffff"%string.
Proof. reflexivity. Qed.

Example sample_eighth :
  getColorFromPalette "deepSpace" (1 # 8) = Some "#12172a"%string.
Proof. reflexivity. Qed.

Example sample_unknown :
  getColorFromPalette "sunset" (1 # 8) = Some "#12172a"%string.
Proof. reflexivity. Qed.

Lemma hexValue_hexDigit (d : Z) :
  0 <= d < 16 -> hexValue (hexDigit d) = Some d.
Proof.
  intros H.
  assert (C : d = 0 \/ d = 1 \/ d = 2 \/ d = 3 \/ d = 4 \/ d = 5 \/ d = 6 \/
              d = 7 \/ d = 8 \/ d = 9 \/ d = 10 \/ d = 11 \/ d = 12 \/
              d = 13 \/ d = 14 \/ d = 15) by lia.
  repeat (destruct C as [-> | C]; [reflexivity |]).
  subst. reflexivity.
Qed.

Lemma parseHex2_hexDigit (c : Z) :
  0 <= c <= 255 ->
  parseHex2 (hexDigit (c / 16)) (hexDigit (c mod 16)) = Some c.
Proof.
  intros H. unfold parseHex2.
  pose proof (Z.div_mod c 16 ltac:(lia)) as E.
  pose proof (Z.mod_pos_bound c 16 ltac:(lia)) as M.
  assert (D : 0 <= c / 16 < 16).
  { split; [apply Z.div_pos; lia | apply Z.div_lt_upper_bound; lia]. }
  rewrite !hexValue_hexDigit by assumption.
  f_equal. lia.
Qed.

Lemma hexDigits_step (fuel : nat) (m d : Z) (acc : string) :
  0 <= d < 16 -> 1 <= m ->
  hexDigits (S fuel) (16 * m + d) acc
  = hexDigits fuel m (String (hexDigit d) acc).
Proof.
  intros Hd Hm. cbn [hexDigits].
  destruct (Z.ltb_spec (16 * m + d) 16) as [Hlt | _]; [lia |].
  replace (16 * m + d) with (d + m * 16) by lia.
  rewrite Z.div_add, Z.mod_add, Z.div_small, Z.mod_small by lia.
  reflexivity.
Qed.

Lemma shl_small (v n : Z) :
  0 <= v <= 255 -> 0 <= n <= 16 -> shl v n = v * 2 ^ n.
Proof.
  intros Hv Hn. unfold shl, toInt32.
  assert (P32 : 2 ^ 32 = 4294967296) by reflexivity.
  assert (P31 : 2 ^ 31 = 2147483648) by reflexivity.
  rewrite P32, P31.
  rewrite (Z.mod_small v) by lia.
  destruct (Z.leb_spec 2147483648 v) as [Hbig | _]; [lia |].
  rewrite (Z.mod_small n 32) by lia.
  assert (Hp : 1 <= 2 ^ n <= 2 ^ 16).
  { split; [apply Z.pow_le_mono_r with (a := 2) (b := 0) (c := n); lia
           | apply Z.pow_le_mono_r; lia]. }
  change (2 ^ 16) with 65536 in Hp.
  assert (Hprod : 0 <= v * 2 ^ n <= 255 * 65536) by nia.
  rewrite (Z.mod_small (v * 2 ^ n)) by lia.
  destruct (Z.leb_spec 2147483648 (v * 2 ^ n)) as [Hbig | _]; [lia |].
  reflexivity.
Qed.

(** For channels in [[0,255]] [rgbToHex] writes two digits per channel. *)
Lemma rgbToHex_digits (r g b : Z) :
  0 <= r <= 255 -> 0 <= g <= 255 -> 0 <= b <= 255 ->
  rgbToHex r g b =
    String "#"
      (String (hexDigit (r / 16)) (String (hexDigit (r mod 16))
      (String (hexDigit (g / 16)) (String (hexDigit (g mod 16))
      (String (hexDigit (b / 16)) (String (hexDigit (b mod 16))
       EmptyString)))))).
Proof.
  intros Hr Hg Hb. unfold rgbToHex.
  rewrite (shl_small r 16), (shl_small g 8) by lia.
  change (shl 1 24) with 16777216.
  change (2 ^ 16) with 65536. change (2 ^ 8) with 256.
  set (n := 16777216 + r * 65536 + g * 256 + b).
  assert (Hn : 2 ^ 24 <= n < 2 ^ 25).
  { change (2 ^ 24) with 16777216. change (2 ^ 25) with 33554432.
    subst n. lia. }
  unfold toString16.
  rewrite (Z.abs_eq n) by (change (2 ^ 24) with 16777216 in Hn; lia).
  destruct (Z.ltb_spec n 0) as [Hneg | _];
    [change (2 ^ 24) with 16777216 in Hn; lia |].
  rewrite (Z.log2_unique n 24) by (change (2 ^ (24 + 1)) with (2 ^ 25); lia).
  change (Z.to_nat 24) with (S (S (S (S (S (S 18)))))).
  pose proof (Z.div_mod r 16 ltac:(lia)) as Er.
  pose proof (Z.div_mod g 16 ltac:(lia)) as Eg.
  pose proof (Z.div_mod b 16 ltac:(lia)) as Eb.
  pose proof (Z.mod_pos_bound r 16 ltac:(lia)) as Mr.
  pose proof (Z.mod_pos_bound g 16 ltac:(lia)) as Mg.
  pose proof (Z.mod_pos_bound b 16 ltac:(lia)) as Mb.
  assert (Dr : 0 <= r / 16 < 16)
    by (split; [apply Z.div_pos; lia | apply Z.div_lt_upper_bound; lia]).
  assert (Dg : 0 <= g / 16 < 16)
    by (split; [apply Z.div_pos; lia | apply Z.div_lt_upper_bound; lia]).
  assert (Db : 0 <= b / 16 < 16)
    by (split; [apply Z.div_pos; lia | apply Z.div_lt_upper_bound; lia]).
  replace n with
    (16 * (16 * (16 * (16 * (16 * (16 * 1 + r / 16) + r mod 16) + g / 16)
                 + g mod 16) + b / 16) + b mod 16)
    by (subst n; lia).
  rewrite !hexDigits_step by lia.
  reflexivity.
Qed.

(** Decoding what [rgbToHex] wrote gives the channels back. *)
Lemma hexToRgb_rgbToHex (r g b : Z) :
  0 <= r <= 255 -> 0 <= g <= 255 -> 0 <= b <= 255 ->
  hexToRgb (Some (rgbToHex r g b)) = Some (mkRgb r g b).
Proof.
  intros Hr Hg Hb. rewrite rgbToHex_digits by assumption.
  unfold hexToRgb. cbn [toStr].
  rewrite !parseHex2_hexDigit by assumption. reflexivity.
Qed.

Lemma hexValue_range (c : ascii) (d : Z) :
  hexValue c = Some d -> 0 <= d < 16.
Proof.
  unfold hexValue. set (n := Z.of_nat (nat_of_ascii c)).
  destruct (Z.leb_spec 48 n), (Z.leb_spec n 57); cbn [andb];
    try (intros [= <-]; lia);
    destruct (Z.leb_spec 97 n), (Z.leb_spec n 102); cbn [andb];
    try (intros [= <-]; lia);
    destruct (Z.leb_spec 65 n), (Z.leb_spec n 70); cbn [andb];
    try (intros [= <-]; lia); discriminate.
Qed.

Lemma parseHex2_range (c1 c2 : ascii) (v : Z) :
  parseHex2 c1 c2 = Some v -> 0 <= v <= 255.
Proof.
  unfold parseHex2.
  destruct (hexValue c1) as [h |] eqn:E1; [| discriminate].
  destruct (hexValue c2) as [l |] eqn:E2; [| discriminate].
  intros E. assert (Hv : v = 16 * h + l) by congruence.
  apply hexValue_range in E1. apply hexValue_range in E2. lia.
Qed.

(** Every colour [hexToRgb] decodes has its channels in [[0,255]]. *)
Lemma hexToRgb_range (hex : JsString) (c : Rgb) :
  hexToRgb hex = Some c ->
  0 <= r c <= 255 /\ 0 <= g c <= 255 /\ 0 <= b c <= 255.
Proof.
  unfold hexToRgb.
  set (s := match toStr hex with
            | String "#" rest => rest
            | _ => toStr hex
            end).
  destruct s as [| r1 [| r2 [| g1 [| g2 [| b1 [| b2 [| x rest]]]]]]];
    try discriminate.
  destruct (parseHex2 r1 r2) as [vr |] eqn:Er; [| discriminate].
  destruct (parseHex2 g1 g2) as [vg |] eqn:Eg; [| discriminate].
  destruct (parseHex2 b1 b2) as [vb |] eqn:Eb; [| discriminate].
  intros [= <-]. cbn [r g b].
  apply parseHex2_range in Er. apply parseHex2_range in Eg.
  apply parseHex2_range in Eb. auto.
Qed.

(** ** Sampling a palette *)

Lemma getColorFromPalette_array (name : string) (items : list string)
      (t : Q) :
  getProperty name = JsArray items ->
  getColorFromPalette name t =
    let len := Z.of_nat (List.length items) in
    let scaledT := (t * inject_Z (len - 1))%Q in
    let index := floor scaledT in
    if len - 1 <=? index then js_index (JsArray items) (len - 1)
    else lerpColor (js_index (JsArray items) index)
                   (js_index (JsArray items) (index + 1))
                   (scaledT - inject_Z index)%Q.
Proof. intros H. unfold getColorFromPalette. rewrite H. reflexivity. Qed.

Lemma known_palette_array (name : string) (stops : list string) :
  In (name, stops) ColorPalettes -> getProperty name = JsArray stops.
Proof.
  intros H. cbn [ColorPalettes In] in H.
  repeat (destruct H as [[= <- <-] | H]; [reflexivity |]).
  contradiction.
Qed.

(** Strictly between stop [i] and stop [i + 1] the sample is the blend of
    these two stops: each channel is the rounded linear interpolation. *)
Lemma sample_between (name : string) (items : list string) (i : nat)
      (t : Q) (c1 c2 : Rgb) :
  getProperty name = JsArray items ->
  hexToRgb (nth_error items i) = Some c1 ->
  hexToRgb (nth_error items (S i)) = Some c2 ->
  let scaledT := (t * inject_Z (Z.of_nat (List.length items) - 1))%Q in
  (inject_Z (Z.of_nat i) < scaledT)%Q ->
  (scaledT < inject_Z (Z.of_nat i) + 1)%Q ->
  let u := (scaledT - inject_Z (Z.of_nat i))%Q in
  let blend := fun a b : Z => round (lerp (inject_Z a) (inject_Z b) u) in
  getColorFromPalette name t =
    Some (rgbToHex (blend (r c1) (r c2)) (blend (g c1) (g c2))
                   (blend (b c1) (b c2))) /\
  hexToRgb (getColorFromPalette name t) =
    Some (mkRgb (blend (r c1) (r c2)) (blend (g c1) (g c2))
                (blend (b c1) (b c2))).
Proof.
  intros Hp H1 H2 scaledT Hlo Hhi u blend.
  assert (Hi : (S i < List.length items)%nat).
  { apply nth_error_Some. intros E. rewrite E in H2. discriminate. }
  assert (Hfloor : floor scaledT = Z.of_nat i).
  { apply floor_unique; [qlra |].
    rewrite inject_Z_plus. change (inject_Z 1) with 1%Q. exact Hhi. }
  assert (Hget : getColorFromPalette name t
                 = lerpColor (nth_error items i) (nth_error items (S i)) u).
  { rewrite (getColorFromPalette_array name items t Hp). cbv zeta.
    fold scaledT. rewrite Hfloor. fold u.
    destruct (Z.leb_spec (Z.of_nat (List.length items) - 1) (Z.of_nat i))
      as [Hbad | _]; [lia |].
    unfold js_index.
    destruct (Z.ltb_spec (Z.of_nat i) 0) as [Hbad | _]; [lia |].
    destruct (Z.ltb_spec (Z.of_nat i + 1) 0) as [Hbad | _]; [lia |].
    rewrite Nat2Z.id.
    replace (Z.to_nat (Z.of_nat i + 1)) with (S i) by lia.
    reflexivity. }
  assert (Hu : (0 <= u <= 1)%Q) by (unfold u; split; qlra).
  destruct (hexToRgb_range _ _ H1) as (R1 & G1 & B1).
  destruct (hexToRgb_range _ _ H2) as (R2 & G2 & B2).
  assert (Hblend : forall a b : Z,
             0 <= a <= 255 -> 0 <= b <= 255 -> 0 <= blend a b <= 255).
  { intros a b0 Ha Hb0. unfold blend.
    destruct (lerp_range a b0 u Ha Hb0 Hu) as [L1 L2].
    apply round_range; assumption. }
  rewrite Hget. unfold lerpColor. rewrite H1, H2. cbv zeta. fold blend.
  split; [reflexivity |].
  apply hexToRgb_rgbToHex; apply Hblend; assumption.
Qed.

(** C9.  For each palette of [ColorPalettes]: the sample at 0 is the first
    stop, the sample at 1 is the last stop, and for [t] strictly between
    stop [i] and stop [i + 1] the sample is the colour whose channels are
    the linear interpolation of the two stops' channels at
    [t * (length - 1) - i], rounded to the nearest integer (so within one
    half of the exact blend). *)
Theorem palette_sampling (name : string) (stops : list string) :
  In (name, stops) ColorPalettes ->
  getColorFromPalette name 0 = nth_error stops 0 /\
  getColorFromPalette name 1 = nth_error stops (List.length stops - 1) /\
  (exists first last_,
     nth_error stops 0 = Some first /\
     nth_error stops (List.length stops - 1) = Some last_) /\
  forall (i : nat) (t : Q) (c1 c2 : Rgb),
    hexToRgb (nth_error stops i) = Some c1 ->
    hexToRgb (nth_error stops (S i)) = Some c2 ->
    let scaledT := (t * inject_Z (Z.of_nat (List.length stops) - 1))%Q in
    (inject_Z (Z.of_nat i) < scaledT)%Q ->
    (scaledT < inject_Z (Z.of_nat i) + 1)%Q ->
    let u := (scaledT - inject_Z (Z.of_nat i))%Q in
    let blend := fun a b : Z => round (lerp (inject_Z a) (inject_Z b) u) in
    hexToRgb (getColorFromPalette name t) =
      Some (mkRgb (blend (r c1) (r c2)) (blend (g c1) (g c2))
                  (blend (b c1) (b c2))) /\
    (forall a b : Z,
       lerp (inject_Z a) (inject_Z b) u - (1 # 2) < inject_Z (blend a b) /\
       inject_Z (blend a b) <= lerp (inject_Z a) (inject_Z b) u + (1 # 2))%Q.
Proof.
  intros Hin. pose proof (known_palette_array name stops Hin) as Hp.
  repeat apply conj.
  - cbn [ColorPalettes In] in Hin.
    repeat (destruct Hin as [[= <- <-] | Hin]; [reflexivity |]).
    contradiction.
  - cbn [ColorPalettes In] in Hin.
    repeat (destruct Hin as [[= <- <-] | Hin]; [reflexivity |]).
    contradiction.
  - cbn [ColorPalettes In] in Hin.
    repeat (destruct Hin as [[= <- <-] | Hin];
            [do 2 eexists; split; reflexivity |]).
    contradiction.
  - intros i t c1 c2 H1 H2 scaledT Hlo Hhi u blend. split.
    + exact (proj2 (sample_between name stops i t c1 c2 Hp H1 H2 Hlo Hhi)).
    + intros a b0. apply round_near.
Qed.

Lemma palette_sampling_witness :
  hexToRgb (getColorFromPalette "deepSpace" (1 # 8))
  = Some (mkRgb 18 23 42).
Proof.
  destruct (palette_sampling "deepSpace"
              ["#0a0e1a"; "#1a1f3a"; "#2d1b69"; "#5a189a"; "#9d4edd"]%string)
    as (_ & _ & _ & H).
  - left. reflexivity.
  - destruct (H 0%nat (1 # 8) (mkRgb 10 14 26) (mkRgb 26 31 58))
      as [E _].
    + reflexivity.
    + reflexivity.
    + reflexivity.
    + reflexivity.
    + rewrite E. reflexivity.
Defined.

(** ** Names that [ColorPalettes] does not define *)

(** A name that is neither a palette nor a property of [Object.prototype]
    is sampled from [deepSpace]. *)
Lemma unknown_name_falls_back (name : string) (t : Q) :
  getProperty name = JsUndefined ->
  getColorFromPalette name t = getColorFromPalette "deepSpace" t.
Proof.
  intros H. unfold getColorFromPalette. rewrite H. reflexivity.
Qed.

(** C10, at an inherited name.  ["constructor"] is not a palette, yet
    [ColorPalettes["constructor"]] is the truthy function [Object], so the
    [||] does not fall back: the sample is [undefined], where [deepSpace]
    gives ["#2d1b69"]. *)
Theorem inherited_name_defeats_fallback :
  knownPalette "constructor" = false /\
  getProperty "constructor" = JsFunction 1 /\
  getColorFromPalette "constructor" (1 # 2) = None /\
  getColorFromPalette "deepSpace" (1 # 2) = Some "#2d1b69"%string.
Proof. repeat apply conj; reflexivity. Qed.

End ColorFacts.

Module NumericFacts.
Import MathUtils Vec Numeric.
Local Open Scope R_scope.

(** ** [clamp] *)

(** [clamp] with ordered bounds lands in the bounds, is the identity on
    them and is idempotent; with the bounds swapped ([max < min]) it
    returns [max] whatever the value. *)
Theorem clamp_ordered_and_swapped (v lo hi : R) :
  (lo <= hi ->
     lo <= clamp v lo hi <= hi /\
     (lo <= v <= hi -> clamp v lo hi = v) /\
     clamp (clamp v lo hi) lo hi = clamp v lo hi) /\
  (hi < lo -> clamp v lo hi = hi).
Proof.
  assert (Hrange : forall w, lo <= hi -> lo <= clamp w lo hi <= hi).
  { intros w Hle. unfold clamp, Rmin, Rmax.
    destruct (Rle_dec w lo); destruct (Rle_dec _ hi); lra. }
  assert (Hid : forall w, lo <= w <= hi -> clamp w lo hi = w).
  { intros w Hin. unfold clamp, Rmin, Rmax.
    destruct (Rle_dec w lo); destruct (Rle_dec _ hi); lra. }
  split.
  - intros Hle. repeat apply conj.
    + apply Hrange, Hle.
    + apply Hrange, Hle.
    + apply Hid.
    + apply Hid, Hrange, Hle.
  - intros Hlt. unfold clamp, Rmin, Rmax.
    destruct (Rle_dec v lo); destruct (Rle_dec _ hi); lra.
Qed.

Lemma clamp_ordered_and_swapped_witness :
  clamp 0.7 1 0 = 0 /\ 0 <= clamp 1.4 0 1 <= 1.
Proof.
  split.
  - destruct (clamp_ordered_and_swapped 0.7 1 0) as [_ H]. apply H. lra.
  - destruct (clamp_ordered_and_swapped 1.4 0 1) as [H _].
    destruct H as (Hr & _ & _); [lra | exact Hr].
Defined.

(** ** Easing curves *)

(** Every polynomial easing starts at 0, ends at 1 and stays in [[0,1]]
    in between. *)
Theorem polynomial_easings_unit_interval :
  Forall (fun f : R -> R =>
            f 0 = 0 /\ f 1 = 1 /\
            forall t, 0 <= t <= 1 -> 0 <= f t <= 1)
         polynomialEasings.
Proof.
  unfold polynomialEasings.
  repeat (apply Forall_cons; [| try apply Forall_nil]).
  - unfold linear. repeat apply conj; try lra. intros t Ht. lra.
  - unfold easeInQuad. repeat apply conj; try lra. intros t Ht. nra.
  - unfold easeOutQuad. repeat apply conj; try lra. intros t Ht. nra.
  - unfold easeInOutQuad. repeat apply conj.
    + destruct (Rlt_dec 0 0.5); lra.
    + destruct (Rlt_dec 1 0.5); lra.
    + intros t Ht. destruct (Rlt_dec t 0.5); nra.
  - unfold easeInCubic. repeat apply conj; try lra.
    intros t Ht. assert (0 <= t * t <= 1) by nra. nra.
  - unfold easeOutCubic. cbv zeta. repeat apply conj; try lra.
    intros t Ht.
    assert (0 <= (t - 1) * (t - 1) <= 1) by nra. nra.
  - unfold easeInOutCubic. repeat apply conj.
    + destruct (Rlt_dec 0 0.5); lra.
    + destruct (Rlt_dec 1 0.5); lra.
    + intros t Ht. destruct (Rlt_dec t 0.5).
      * assert (0 <= t * t <= 0.25) by nra. nra.
      * assert (0 <= (t - 1) * (t - 1) <= 0.25) by nra. nra.
Qed.

Lemma polynomial_easings_unit_interval_witness :
  0 <= easeInOutCubic 0.25 <= 1.
Proof.
  pose proof polynomial_easings_unit_interval as H.
  rewrite Forall_forall in H.
  destruct (H easeInOutCubic) as (_ & _ & Hr).
  - unfold polynomialEasings. cbn [In]. tauto.
  - apply Hr. lra.
Defined.

(** The sine easings: [easeInOutSine] stays in [[0,1]] for every argument
    and [breath] is the same curve; [easeInSine] and [easeOutSine] start
    at 0, end at 1 and stay in [[0,1]] on [[0,1]]. *)
Theorem sine_easings (t : R) :
  0 <= easeInOutSine t <= 1 /\
  breath t = easeInOutSine t /\
  easeInSine 0 = 0 /\ easeInSine 1 = 1 /\
  easeOutSine 0 = 0 /\ easeOutSine 1 = 1 /\
  (0 <= t <= 1 -> 0 <= easeInSine t <= 1 /\ 0 <= easeOutSine t <= 1).
Proof.
  pose proof PI_RGT_0 as Hpi.
  repeat apply conj.
  - unfold easeInOutSine. pose proof (COS_bound (PI * t)). lra.
  - unfold easeInOutSine. pose proof (COS_bound (PI * t)). lra.
  - unfold breath, easeInOutSine.
    replace ((t - 0.5) * PI) with (- (PI / 2 - PI * t)) by lra.
    rewrite sin_neg, sin_shift. lra.
  - unfold easeInSine. replace (0 * PI / 2) with 0 by lra.
    rewrite cos_0. lra.
  - unfold easeInSine. replace (1 * PI / 2) with (PI / 2) by lra.
    rewrite cos_PI2. lra.
  - unfold easeOutSine. replace (0 * PI / 2) with 0 by lra. apply sin_0.
  - unfold easeOutSine. replace (1 * PI / 2) with (PI / 2) by lra.
    apply sin_PI2.
  - intros Ht. unfold easeInSine, easeOutSine.
    assert (Hlo : 0 <= t * PI / 2) by nra.
    assert (Hhi : t * PI / 2 <= PI / 2) by nra.
    pose proof (COS_bound (t * PI / 2)).
    pose proof (SIN_bound (t * PI / 2)).
    pose proof (cos_ge_0 (t * PI / 2) ltac:(lra) Hhi).
    pose proof (sin_ge_0 (t * PI / 2) Hlo ltac:(lra)).
    lra.
Qed.

Lemma sine_easings_witness :
  0 <= easeInSine 0.5 <= 1 /\ 0 <= easeOutSine 0.5 <= 1.
Proof.
  destruct (sine_easings 0.5) as (_ & _ & _ & _ & _ & _ & H).
  apply H. lra.
Defined.

(** ** Random draws *)

(** With [Math.random()] in [[0,1)], [randomChoice] returns a member of a
    non-empty array, and [undefined] on the empty array. *)
Theorem randomChoice_member (A : Type) (rnd : Rand) (k : nat)
        (array : list A) :
  0 <= rnd k < 1 ->
  (array <> [] ->
     exists a, fst (randomChoice rnd k array) = Some a /\ In a array) /\
  fst (randomChoice rnd k (@nil A)) = None.
Proof.
  intros [H0 H1]. split.
  - intros Hne. unfold randomChoice, floor. cbn [fst].
    set (len := List.length array).
    assert (Hlen : (0 < len)%nat).
    { unfold len. destruct array; [congruence | cbn; lia]. }
    assert (HL : 0 < INR len) by (apply lt_0_INR; exact Hlen).
    set (v := rnd k * INR len).
    destruct (base_Int_part v) as [Hf1 Hf2].
    assert (Hv : 0 <= v < INR len) by (unfold v; split; nra).
    assert (Hlo : (0 <= Int_part v)%Z).
    { assert (IZR (-1) < IZR (Int_part v)) by lra.
      apply lt_IZR in H. lia. }
    assert (Hhi : (Int_part v < Z.of_nat len)%Z).
    { apply lt_IZR. rewrite <- INR_IZR_INZ. lra. }
    destruct (Z.ltb_spec (Int_part v) 0) as [Hneg | _]; [lia |].
    destruct (nth_error array (Z.to_nat (Int_part v))) as [a |] eqn:E.
    + exists a. split; [reflexivity |]. eapply nth_error_In. exact E.
    + apply nth_error_None in E. fold len in E. lia.
  - unfold randomChoice, floor. cbn [fst List.length INR].
    rewrite Rmult_0_r.
    change 0 with (INR 0). rewrite Int_part_INR. reflexivity.
Qed.

Lemma randomChoice_member_witness :
  exists a, fst (randomChoice Nebula.half 0 [1; 2; 3]%nat) = Some a /\
            In a [1; 2; 3]%nat.
Proof.
  destruct (randomChoice_member nat Nebula.half 0 [1; 2; 3]%nat) as [H _].
  - unfold Nebula.half. lra.
  - apply H. discriminate.
Defined.

(** ** [Vector2] *)

Lemma magnitude_multiply (v : Vector2) (c : R) :
  0 <= c -> magnitude (multiply v c) = c * magnitude v.
Proof.
  intros Hc. unfold magnitude, multiply. cbn [x y].
  replace (x v * c * (x v * c) + y v * c * (y v * c))
    with (c * c * (x v * x v + y v * y v)) by ring.
  rewrite sqrt_mult by nra. rewrite sqrt_square by exact Hc. reflexivity.
Qed.

Lemma magnitude_normalize (v : Vector2) :
  magnitude v > 0 -> magnitude (normalize v) = 1.
Proof.
  intros Hm. unfold normalize, divide.
  destruct (Rgt_dec (magnitude v) 0) as [_ | n]; [| lra].
  destruct (Req_dec_T (magnitude v) 0) as [e | _]; [lra |].
  set (m := magnitude v) in *.
  assert (Hsq : m * m = x v * x v + y v * y v).
  { unfold m, magnitude. apply sqrt_def. nra. }
  unfold magnitude at 1. cbn [x y].
  apply sqrt_lem_1; [| lra |].
  - assert (0 <= (x v / m) * (x v / m)) by nra.
    assert (0 <= (y v / m) * (y v / m)) by nra. lra.
  - replace (x v / m * (x v / m) + y v / m * (y v / m))
      with ((x v * x v + y v * y v) / (m * m)) by (field; lra).
    rewrite <- Hsq. field. lra.
Qed.

(** [normalize] turns a vector of positive length into a unit vector and
    leaves the zero-length vector alone; [limit(max)] with [max >= 0]
    never returns a vector longer than [max] and returns a short enough
    vector unchanged; [divide(0)] changes nothing. *)
Theorem normalize_limit_lengths (v : Vector2) (max : R) :
  (magnitude v > 0 -> magnitude (normalize v) = 1) /\
  (magnitude v = 0 -> normalize v = v) /\
  (0 <= max -> magnitude (limit v max) <= max) /\
  (magnitude v <= max -> limit v max = v) /\
  divide v 0 = v.
Proof.
  repeat apply conj.
  - apply magnitude_normalize.
  - intros H0. unfold normalize.
    destruct (Rgt_dec (magnitude v) 0); [lra | reflexivity].
  - intros Hmax. unfold limit.
    destruct (Rgt_dec (magnitude v) max) as [g | n]; [| lra].
    rewrite magnitude_multiply by exact Hmax.
    rewrite magnitude_normalize by lra. lra.
  - intros Hle. unfold limit.
    destruct (Rgt_dec (magnitude v) max); [lra | reflexivity].
  - unfold divide. destruct (Req_dec_T 0 0); [reflexivity | lra].
Qed.

Lemma normalize_limit_lengths_witness :
  magnitude (normalize (mkVec 10 0)) = 1 /\
  magnitude (limit (mkVec 10 0) 2) <= 2.
Proof.
  destruct (normalize_limit_lengths (mkVec 10 0) 2) as (H1 & _ & H2 & _).
  assert (Hm : magnitude (mkVec 10 0) = 10).
  { unfold magnitude. cbn [x y].
    replace (10 * 10 + 0 * 0) with (10 * 10) by lra.
    apply sqrt_square. lra. }
  split.
  - apply H1. rewrite Hm. lra.
  - apply H2. lra.
Defined.

End NumericFacts.

Module Binary64Facts.
Import Binary64.

Lemma in_integers (lo n : nat) (z : Z) :
  (Z.of_nat lo <= z < Z.of_nat (lo + n))%Z -> In z (integers lo n).
Proof.
  intros H. unfold integers. apply in_map_iff. exists (Z.to_nat z).
  split; [lia | apply in_seq; lia].
Qed.

(** Every pair of bounds from 0 to 64, at both draws, by evaluation. *)
Lemma endsOfRange_grid :
  forallb (fun r =>
    isDraw r &&
    forallb (fun min =>
      forallb (fun max => implb (min <=? max)%Z (endsOfRange r min max))
              (integers 0 65))
      (integers 0 65)) lateDraws = true.
Proof. vm_compute. reflexivity. Qed.

Lemma resultIs_Some (r : PrimFloat.float) (min max : Z) (ok : Z -> bool) :
  resultIs r min max ok = true ->
  exists z, randomInt r (number min) (number max) = Some z /\ ok z = true.
Proof.
  unfold resultIs. destruct (randomInt _ _ _) as [z |]; [| discriminate].
  intros H. exists z. split; [reflexivity | exact H].
Qed.

(** On the doubles, for integer bounds [0 <= min <= max <= 64]:
    [randomInt(min, max)] returns [min] when [Math.random()] returns 0,
    and [max] or [max + 1] when it returns one of the two largest doubles
    below 1; for [min = max >= 2] it returns [max + 1] there, one above
    the range: [random(min, max + 1)] has rounded up to [max + 1]. *)
Theorem randomInt_one_above_max (r : PrimFloat.float) (min max : Z) :
  In r lateDraws -> (0 <= min <= max)%Z -> (max <= 64)%Z ->
  isDraw r = true /\
  randomInt PrimFloat.zero (number min) (number max) = Some min /\
  (exists z, randomInt r (number min) (number max) = Some z /\
             (max <= z <= max + 1)%Z) /\
  ((2 <= min)%Z -> min = max ->
   randomInt r (number min) (number max) = Some (max + 1)%Z).
Proof.
  intros Hr Hmin Hmax.
  pose proof endsOfRange_grid as G.
  rewrite forallb_forall in G. specialize (G r Hr).
  apply andb_prop in G. destruct G as [Hd G].
  rewrite forallb_forall in G.
  specialize (G min (in_integers 0 65 min ltac:(lia))).
  rewrite forallb_forall in G.
  specialize (G max (in_integers 0 65 max ltac:(lia))).
  destruct (Z.leb_spec min max) as [_ | Hlt]; [| lia].
  cbn [implb] in G. unfold endsOfRange in G.
  apply andb_prop in G. destruct G as [G G3].
  apply andb_prop in G. destruct G as [G1 G2].
  apply resultIs_Some in G1. destruct G1 as (z1 & E1 & O1).
  apply resultIs_Some in G2. destruct G2 as (z2 & E2 & O2).
  apply Z.eqb_eq in O1. subst z1.
  apply andb_prop in O2. destruct O2 as [O2 O2'].
  apply Z.leb_le in O2. apply Z.leb_le in O2'.
  repeat apply conj.
  - exact Hd.
  - exact E1.
  - exists z2. split; [exact E2 | lia].
  - intros H2 Heq.
    destruct (Z.leb_spec 2 min) as [_ | Hlt]; [| lia].
    destruct (Z.eqb_spec min max) as [_ | Hne]; [| lia].
    cbn [andb implb] in G3.
    apply resultIs_Some in G3. destruct G3 as (z3 & E3 & O3).
    apply Z.eqb_eq in O3. subst z3. exact E3.
Qed.

Lemma randomInt_one_above_max_witness :
  randomInt twoBelowOne (number 2) (number 2) = Some 3%Z.
Proof.
  destruct (randomInt_one_above_max twoBelowOne 2 2) as (_ & _ & _ & H).
  - left. reflexivity.
  - lia.
  - lia.
  - apply H; [lia | reflexivity].
Defined.

End Binary64Facts.

Module SeededFacts.
Import Seeded.
Local Open Scope Z_scope.

Lemma next_keeps_seed (g : SeededRandom) :
  0 <= seed g -> 0 <= seed (snd (next g)) < 233280.
Proof.
  intros H. unfold next. cbn [snd seed].
  rewrite Z.rem_mod_nonneg by lia.
  apply Z.mod_pos_bound. lia.
Qed.

Lemma next_value (g : SeededRandom) :
  fst (next g) = (seed (snd (next g)) # 233280).
Proof. reflexivity. Qed.

Lemma draws_unit (n : nat) :
  forall g, 0 <= seed g ->
            Forall (fun v => (0 <= v)%Q /\ (v < 1)%Q) (fst (draws n g)).
Proof.
  induction n as [| n IH]; intros g Hg; cbn [draws].
  - constructor.
  - destruct (next g) as [v g'] eqn:E.
    pose proof (next_keeps_seed g Hg) as Hs.
    pose proof (next_value g) as Hv.
    rewrite E in Hs, Hv. cbn [fst snd] in Hs, Hv.
    specialize (IH g' ltac:(lia)).
    destruct (draws n g') as [vs g''] eqn:E'. cbn [fst] in *.
    constructor; [| exact IH].
    subst v. unfold Qle, Qlt. cbn [Qnum Qden]. lia.
Qed.

(** From a non-negative integer seed every [next()] leaves the seed in
    [[0, 233280)] and returns a value in [[0,1)], however many calls are
    made, and [range(min, max)] with [min <= max] stays in [[min, max]].
    A seed that makes [seed * 9301 + 49297] negative gives a value that is
    not positive: the remainder keeps the sign of the dividend. *)
Theorem seeded_random_ranges (g : SeededRandom) (n : nat) (lo hi : Q) :
  (0 <= seed g ->
     0 <= seed (snd (next g)) < 233280 /\
     Forall (fun v => (0 <= v)%Q /\ (v < 1)%Q) (fst (draws n g)) /\
     ((lo <= hi)%Q ->
      (lo <= fst (range lo hi g))%Q /\ (fst (range lo hi g) <= hi)%Q)) /\
  (seed g * 9301 + 49297 < 0 -> (fst (next g) <= 0)%Q).
Proof.
  split.
  - intros Hg. repeat apply conj.
    + apply next_keeps_seed, Hg.
    + apply next_keeps_seed, Hg.
    + apply draws_unit, Hg.
    + intros Hle. unfold range.
      pose proof (next_keeps_seed g Hg) as Hs.
      pose proof (next_value g) as Hv.
      destruct (next g) as [v g'] eqn:E. cbn [fst snd] in *.
      assert (H0 : (0 <= v)%Q)
        by (subst v; unfold Qle; cbn [Qnum Qden]; lia).
      assert (H1 : (v <= 1)%Q)
        by (subst v; unfold Qle; cbn [Qnum Qden]; lia).
      split; Lqa.nra.
  - intros Hneg. unfold next. cbn [fst].
    set (a := seed g * 9301 + 49297) in *.
    assert (Hrem : Z.rem a 233280 <= 0).
    { replace a with (- - a) by lia.
      rewrite Z.rem_opp_l by lia.
      pose proof (Z.rem_nonneg (- a) 233280 ltac:(lia) ltac:(lia)). lia. }
    unfold Qle. cbn [Qnum Qden]. lia.
Qed.

Lemma seeded_random_ranges_witness :
  Forall (fun v => (0 <= v)%Q /\ (v < 1)%Q) (fst (draws 5 (mkSeeded 42))) /\
  (fst (next (mkSeeded (-10))) <= 0)%Q.
Proof.
  split.
  - destruct (seeded_random_ranges (mkSeeded 42) 5 0 1) as [H _].
    destruct H as (_ & Hd & _); [cbn [seed]; lia | exact Hd].
  - destruct (seeded_random_ranges (mkSeeded (-10)) 0 0 1) as [_ H].
    apply H. cbn [seed]. lia.
Defined.

Example draws_42 :
  fst (draws 3 (mkSeeded 42)) = [(206659 # 233280); (190736 # 233280);
                                 (223713 # 233280)]%Q.
Proof. reflexivity. Qed.

End SeededFacts.

Module ColorMoreFacts.
Import Color ColorFacts.
Local Open Scope Z_scope.

(** ** Encoding and decoding colours *)

(** For channels in [[0,255]] [rgbToHex] writes ["#"] and six digits that
    [hexToRgb] reads back as the same channels; and whatever [hexToRgb]
    decodes, with or without ["#"], in either letter case, is decoded
    again from its re-encoding. *)
Theorem hex_round_trips (r g b : Z) (hex : JsString) (c : Rgb) :
  (0 <= r <= 255 -> 0 <= g <= 255 -> 0 <= b <= 255 ->
     hexToRgb (Some (rgbToHex r g b)) = Some (mkRgb r g b) /\
     String.length (rgbToHex r g b) = 7%nat) /\
  (hexToRgb hex = Some c ->
     hexToRgb (Some (rgbToHex (Color.r c) (Color.g c) (Color.b c)))
     = Some c).
Proof.
  split.
  - intros Hr Hg Hb. split.
    + apply hexToRgb_rgbToHex; assumption.
    + rewrite rgbToHex_digits by assumption. reflexivity.
  - intros H. destruct (hexToRgb_range hex c H) as (Hr & Hg & Hb).
    rewrite hexToRgb_rgbToHex by assumption. destruct c. reflexivity.
Qed.

Lemma hex_round_trips_witness :
  hexToRgb (Some (rgbToHex 255 165 0)) = Some (mkRgb 255 165 0) /\
  hexToRgb (Some (rgbToHex 255 165 0)) = hexToRgb (Some "FFA500"%string).
Proof.
  destruct (hex_round_trips 255 165 0 (Some "FFA500"%string)
              (mkRgb 255 165 0)) as [H1 H2].
  split.
  - apply H1; lia.
  - exact (H2 eq_refl).
Defined.

(** ** Blending two colours *)

Lemma round_inject (a : Z) : round (inject_Z a) = a.
Proof.
  unfold round. apply floor_unique.
  - Lqa.lra.
  - rewrite inject_Z_plus. change (inject_Z 1) with 1%Q. Lqa.lra.
Qed.

Lemma round_proper (p q : Q) : (p == q)%Q -> round p = round q.
Proof. intros H. unfold round. rewrite H. reflexivity. Qed.

Lemma blend_between (a b : Z) (t : Q) :
  (0 <= t)%Q -> (t <= 1)%Q ->
  Z.min a b <= round (lerp (inject_Z a) (inject_Z b) t) <= Z.max a b.
Proof.
  intros H0 H1. apply round_range; unfold lerp.
  - destruct (Z.le_ge_cases a b) as [Hab | Hab].
    + rewrite Z.min_l by exact Hab. rewrite Zle_Qle in Hab.
      set (x := inject_Z a) in *. set (y := inject_Z b) in *. Lqa.nra.
    + rewrite Z.min_r by lia. rewrite Zle_Qle in Hab.
      set (x := inject_Z a) in *. set (y := inject_Z b) in *. Lqa.nra.
  - destruct (Z.le_ge_cases a b) as [Hab | Hab].
    + rewrite Z.max_r by exact Hab. rewrite Zle_Qle in Hab.
      set (x := inject_Z a) in *. set (y := inject_Z b) in *. Lqa.nra.
    + rewrite Z.max_l by lia. rewrite Zle_Qle in Hab.
      set (x := inject_Z a) in *. set (y := inject_Z b) in *. Lqa.nra.
Qed.

(** [lerpColor] hands back its first argument untouched when either
    colour does not parse.  When both parse and [t] is in [[0,1]], the
    result parses, each of its channels lies between the two inputs'
    channels, and it decodes to the first colour at 0 and to the second
    at 1. *)
Theorem lerpColor_blend (color1 color2 : JsString) (t : Q) (c1 c2 : Rgb) :
  (hexToRgb color1 = None \/ hexToRgb color2 = None ->
     lerpColor color1 color2 t = color1) /\
  (hexToRgb color1 = Some c1 -> hexToRgb color2 = Some c2 ->
     hexToRgb (lerpColor color1 color2 0) = Some c1 /\
     hexToRgb (lerpColor color1 color2 1) = Some c2 /\
     ((0 <= t)%Q -> (t <= 1)%Q ->
      exists c,
        hexToRgb (lerpColor color1 color2 t) = Some c /\
        Z.min (r c1) (r c2) <= r c <= Z.max (r c1) (r c2) /\
        Z.min (g c1) (g c2) <= g c <= Z.max (g c1) (g c2) /\
        Z.min (b c1) (b c2) <= b c <= Z.max (b c1) (b c2))).
Proof.
  split.
  - intros [H | H]; unfold lerpColor; rewrite H;
      [reflexivity | destruct (hexToRgb color1); reflexivity].
  - intros H1 H2.
    destruct (hexToRgb_range _ _ H1) as (R1 & G1 & B1).
    destruct (hexToRgb_range _ _ H2) as (R2 & G2 & B2).
    unfold lerpColor. rewrite H1, H2. cbv zeta.
    repeat apply conj.
    + assert (E : forall a b0 : Z,
                 round (lerp (inject_Z a) (inject_Z b0) 0) = a).
      { intros a b0. rewrite <- (round_inject a) at 2.
        apply round_proper. unfold lerp. ring. }
      rewrite !E. rewrite hexToRgb_rgbToHex by assumption.
      destruct c1; reflexivity.
    + assert (E : forall a b0 : Z,
                 round (lerp (inject_Z a) (inject_Z b0) 1) = b0).
      { intros a b0. rewrite <- (round_inject b0) at 2.
        apply round_proper. unfold lerp. ring. }
      rewrite !E. rewrite hexToRgb_rgbToHex by assumption.
      destruct c2; reflexivity.
    + intros H0 Ht.
      pose proof (blend_between (r c1) (r c2) t H0 Ht) as Br.
      pose proof (blend_between (g c1) (g c2) t H0 Ht) as Bg.
      pose proof (blend_between (b c1) (b c2) t H0 Ht) as Bb.
      eexists. split.
      * apply hexToRgb_rgbToHex; lia.
      * cbn [r g b]. auto.
Qed.

Lemma lerpColor_blend_witness :
  lerpColor (Some "#0a0e1a"%string) (Some "not a colour"%string) (1 # 2)
  = Some "#0a0e1a"%string /\
  hexToRgb (lerpColor (Some "#0a0e1a") (Some "#1a1f3a") 1)%string
  = Some (mkRgb 26 31 58).
Proof.
  split.
  - destruct (lerpColor_blend (Some "#0a0e1a"%string)
                (Some "not a colour"%string) (1 # 2)
                (mkRgb 0 0 0) (mkRgb 0 0 0)) as [H _].
    apply H. right. reflexivity.
  - destruct (lerpColor_blend (Some "#0a0e1a"%string)
                (Some "#1a1f3a"%string) (1 # 2)
                (mkRgb 10 14 26) (mkRgb 26 31 58)) as [_ H].
    destruct (H eq_refl eq_refl) as (_ & H1 & _). exact H1.
Defined.

(** ** Sampling over the whole number line *)

Lemma assoc_In_snd (A : Type) (key : string) (l : list (string * A))
      (v : A) :
  assoc key l = Some v -> In v (List.map snd l).
Proof.
  induction l as [| [k w] l IH]; cbn [assoc List.map In]; [discriminate |].
  destruct (String.eqb k key); [intros [= ->]; left; reflexivity |].
  intros H. right. apply IH, H.
Qed.

(** A name that is a palette, or that is found nowhere, is sampled from a
    list of five stops of [ColorPalettes]. *)
Lemma palette_body (name : string) :
  knownPalette name = true \/ getProperty name = JsUndefined ->
  exists items,
    In items (List.map snd ColorPalettes) /\
    forall t,
      getColorFromPalette name t =
        let scaledT := (t * inject_Z 4)%Q in
        let index := floor scaledT in
        if 4 <=? index then js_index (JsArray items) 4
        else lerpColor (js_index (JsArray items) index)
                       (js_index (JsArray items) (index + 1))
                       (scaledT - inject_Z index)%Q.
Proof.
  assert (Hfive : forall items,
             In items (List.map snd ColorPalettes) ->
             Z.of_nat (List.length items) = 5).
  { intros items Hin. cbn [ColorPalettes List.map snd In] in Hin.
    repeat (destruct Hin as [<- | Hin]; [reflexivity |]). contradiction. }
  intros [Hk | Hu].
  - unfold knownPalette in Hk.
    destruct (assoc name ColorPalettes) as [items |] eqn:E; [| discriminate].
    exists items. pose proof (assoc_In_snd _ _ _ _ E) as Hin.
    split; [exact Hin |]. intros t.
    rewrite (getColorFromPalette_array name items t)
      by (unfold getProperty; rewrite E; reflexivity).
    cbv zeta. rewrite (Hfive items Hin). reflexivity.
  - exists ["#0a0e1a"; "#1a1f3a"; "#2d1b69"; "#5a189a"; "#9d4edd"]%string.
    split; [left; reflexivity |]. intros t.
    rewrite (unknown_name_falls_back name t Hu). reflexivity.
Qed.

Lemma stops_parse (items : list string) (i : Z) :
  In items (List.map snd ColorPalettes) -> 0 <= i <= 4 ->
  exists s c, js_index (JsArray items) i = Some s /\
              hexToRgb (Some s) = Some c.
Proof.
  intros Hin Hi.
  assert (C : i = 0 \/ i = 1 \/ i = 2 \/ i = 3 \/ i = 4) by lia.
  cbn [ColorPalettes List.map snd In] in Hin.
  repeat (destruct Hin as [<- | Hin];
          [repeat (destruct C as [-> | C];
                   [do 2 eexists; split; reflexivity |]);
           subst; do 2 eexists; split; reflexivity |]).
  contradiction.
Qed.

Lemma lerpColor_parses (s1 s2 : string) (c1 c2 : Rgb) (u : Q) :
  hexToRgb (Some s1) = Some c1 -> hexToRgb (Some s2) = Some c2 ->
  (0 <= u)%Q -> (u <= 1)%Q ->
  exists c, hexToRgb (lerpColor (Some s1) (Some s2) u) = Some c.
Proof.
  intros H1 H2 U0 U1.
  destruct (hexToRgb_range _ _ H1) as (R1 & G1 & B1).
  destruct (hexToRgb_range _ _ H2) as (R2 & G2 & B2).
  unfold lerpColor. rewrite H1, H2. cbv zeta.
  pose proof (blend_between (r c1) (r c2) u U0 U1).
  pose proof (blend_between (g c1) (g c2) u U0 U1).
  pose proof (blend_between (b c1) (b c2) u U0 U1).
  eexists. apply hexToRgb_rgbToHex; lia.
Qed.

(** For a name that is a palette or is found nowhere: every [t] in
    [[0,1]] gives a colour that parses; every [t < 0] gives [undefined];
    every [t >= 1] gives what [t = 1] gives, the last stop. *)
Theorem sampling_over_the_line (name : string) (t : Q) :
  knownPalette name = true \/ getProperty name = JsUndefined ->
  ((0 <= t)%Q -> (t <= 1)%Q ->
     exists c, hexToRgb (getColorFromPalette name t) = Some c) /\
  ((t < 0)%Q -> getColorFromPalette name t = None) /\
  ((1 <= t)%Q ->
     getColorFromPalette name t = getColorFromPalette name 1 /\
     getColorFromPalette name t <> None).
Proof.
  intros Hname. destruct (palette_body name Hname) as (items & Hin & Hbody).
  pose proof (Qfloor_le (t * inject_Z 4)) as Hf1.
  pose proof (Qlt_floor (t * inject_Z 4)) as Hf2.
  rewrite inject_Z_plus in Hf2.
  change (inject_Z 1) with 1%Q in Hf2. change (inject_Z 4) with 4%Q in *.
  repeat apply conj.
  - intros H0 H1. rewrite Hbody. cbv zeta. unfold floor.
    change (inject_Z 4) with 4%Q.
    set (idx := Qfloor (t * 4)) in *.
    assert (Hidx : 0 <= idx <= 4).
    { split.
      - assert (inject_Z (-1) < inject_Z idx)%Q
          by (change (inject_Z (-1)) with (-1)%Q; Lqa.lra).
        rewrite <- Zlt_Qlt in H. lia.
      - assert (inject_Z idx <= inject_Z 4)%Q
          by (change (inject_Z 4) with 4%Q; Lqa.lra).
        rewrite <- Zle_Qle in H. exact H. }
    destruct (Z.leb_spec 4 idx) as [Hge | Hlt].
    + destruct (stops_parse items 4 Hin ltac:(lia)) as (s & c & Es & Ec).
      rewrite Es. exists c. exact Ec.
    + destruct (stops_parse items idx Hin ltac:(lia)) as (s1 & c1 & E1 & P1).
      destruct (stops_parse items (idx + 1) Hin ltac:(lia))
        as (s2 & c2 & E2 & P2).
      rewrite E1, E2.
      apply (lerpColor_parses s1 s2 c1 c2); [exact P1 | exact P2 | |];
        Lqa.lra.
  - intros Hneg. rewrite Hbody. cbv zeta. unfold floor.
    change (inject_Z 4) with 4%Q.
    set (idx := Qfloor (t * 4)) in *.
    assert (Hidx : idx < 0).
    { assert (inject_Z idx < inject_Z 0)%Q
        by (change (inject_Z 0) with 0%Q; Lqa.lra).
      rewrite <- Zlt_Qlt in H. exact H. }
    destruct (Z.leb_spec 4 idx) as [Hge | _]; [lia |].
    unfold js_index at 1.
    destruct (Z.ltb_spec idx 0) as [_ | Hge]; [| lia].
    reflexivity.
  - intros H1. rewrite !Hbody. cbv zeta. unfold floor.
    change (inject_Z 4) with 4%Q.
    set (idx := Qfloor (t * 4)) in *.
    assert (Hidx : 4 <= idx).
    { assert (inject_Z 3 < inject_Z idx)%Q
        by (change (inject_Z 3) with 3%Q; Lqa.lra).
      rewrite <- Zlt_Qlt in H. lia. }
    destruct (Z.leb_spec 4 idx) as [_ | Hlt]; [| lia].
    split; [reflexivity |].
    destruct (stops_parse items 4 Hin ltac:(lia)) as (s & c & Es & _).
    rewrite Es. discriminate.
Qed.

Lemma sampling_over_the_line_witness :
  getColorFromPalette "lunarGlow" (-1 # 4) = None /\
  getColorFromPalette "sunset" 3 = getColorFromPalette "sunset" 1.
Proof.
  split.
  - destruct (sampling_over_the_line "lunarGlow" (-1 # 4)) as (_ & H & _).
    + left. reflexivity.
    + apply H. reflexivity.
  - destruct (sampling_over_the_line "sunset" 3) as (_ & _ & H).
    + right. reflexivity.
    + apply H. discriminate.
Defined.

End ColorMoreFacts.

Module SessionFacts.
Import MathUtils MathUtilsFacts Breathing BreathingFacts Sessions.
Local Open Scope R_scope.

(** ** Sessions without a guided pattern *)

Lemma detectPhase_exhale (i : R) : detectPhase i = EXHALE -> i <= 0.6.
Proof.
  unfold detectPhase.
  destruct (Rgt_dec i 0.8); [discriminate |].
  destruct (Rgt_dec i 0.6); [discriminate |]. intros _. lra.
Qed.

Lemma detectPhase_inhale (i : R) : detectPhase i = INHALE -> i > 0.8.
Proof.
  unfold detectPhase.
  destruct (Rgt_dec i 0.8); [intros _; assumption |].
  destruct (Rgt_dec i 0.6); [discriminate |].
  destruct (Rgt_dec i 0.2); discriminate.
Qed.

Lemma detectPhase_half : detectPhase 0.5 = EXHALE.
Proof. unfold detectPhase. rdecide; reflexivity. Qed.

Lemma microphone_target (frame : list nat) (d : BreathingDetector) :
  0 <= targetIntensity d <= 1 ->
  0 <= targetIntensity (_updateFromMicrophone frame d) <= 1.
Proof.
  intros Ht. unfold _updateFromMicrophone.
  destruct (micReady d); cbn [negb]; [| exact Ht].
  destruct frame as [| b frame]; [exact Ht |].
  destruct (Rgt_dec _ _); [| exact Ht].
  cbn [with_target targetIntensity]. apply clamp_bounds. lra.
Qed.

Lemma steady_update (frame : list nat) (dt : R) (d : BreathingDetector) :
  steady d -> steady (fst (update frame dt d)).
Proof.
  intros (Hm & Hsf & Ht & Hi & Hph & Hc).
  destruct (isActive (state d)) eqn:Ha;
    [| rewrite (update_inactive _ _ _ Ha); cbn [fst];
       repeat apply conj; assumption || lra].
  rewrite (update_nonguided_eq frame dt d Hm Ha). cbv zeta.
  set (d1 := match mode d with
             | mic => _updateFromMicrophone frame d
             | _ => d
             end).
  assert (Hd1 : state d1 = state d /\ mode d1 = mode d /\
                smoothingFactor d1 = smoothingFactor d /\
                0 <= targetIntensity d1 <= 1).
  { unfold d1.
    destruct (_updateFromMicrophone_frame frame d) as (A & B & C & _).
    pose proof (microphone_target frame d Ht).
    destruct (mode d) eqn:Em; repeat apply conj; congruence || lra. }
  destruct Hd1 as (Hs1 & Hm1 & Hsf1 & Ht1).
  rewrite Hsf.
  set (i := intensity (state d)) in *.
  set (i' := clamp (i + (targetIntensity d1 - i) * 0.15) 0 1).
  assert (Hi' : 0 <= i' <= 1) by (apply clamp_bounds; lra).
  assert (Hval : i' = i + (targetIntensity d1 - i) * 0.15).
  { apply clamp_inside. nra. }
  assert (Hno : phase (state d) = EXHALE -> detectPhase i' <> INHALE).
  { intros He Hin. rewrite Hph in He. apply detectPhase_exhale in He.
    apply detectPhase_inhale in Hin. nra. }
  destruct (BreathPhase_eq_dec (phase (state d)) (detectPhase i')).
  - unfold steady. fields. rewrite Hm1, Hsf1. repeat split; assumption || lra.
  - destruct (phase (state d)) eqn:Ep, (detectPhase i') eqn:Ed;
      try (exfalso; apply Hno; reflexivity);
      unfold steady; fields; rewrite Hm1, Hsf1, ?Ed;
      repeat split; assumption || lra || reflexivity.
Qed.

Lemma unguided_steady (d : BreathingDetector) : unguided d -> steady d.
Proof.
  induction 1 as [| d _ IH | d _ IH | granted d _ IH | d _ IH | d _ IH
                  | d _ IH | frame dt d _ IH];
    try (destruct IH as (Hm & Hsf & Ht & Hi & Hph & Hc)).
  - unfold steady, new_detector. fields. rewrite detectPhase_half.
    repeat apply conj; discriminate || lra || reflexivity.
  - unfold handlePointerDown. destruct (mode d) eqn:E;
      unfold steady; fields; rewrite ?E;
      repeat apply conj; assumption || lra || congruence.
  - unfold handlePointerUp. destruct (mode d) eqn:E;
      unfold steady; fields; rewrite ?E;
      repeat apply conj; assumption || lra || congruence.
  - unfold initMicrophone. destruct granted;
      unfold steady; fields;
      repeat apply conj; assumption || lra || discriminate.
  - unfold start, steady. fields.
    repeat apply conj; assumption || lra.
  - unfold pause, steady. fields.
    repeat apply conj; assumption || lra.
  - unfold reset, steady. fields. rewrite detectPhase_half.
    repeat apply conj; assumption || lra || reflexivity.
  - apply steady_update. unfold steady.
    repeat apply conj; assumption || lra.
Qed.

(** In a session that never installs a guided pattern (manual or
    microphone input, with any presses, pauses, resets and ticks) the
    intensity and its target stay in [[0,1]], the phase is the one the
    thresholds give for the intensity, and [totalCycles] is 0 for ever:
    one smoothing step from at most 0.6 ends at most at 0.66, short of the
    0.8 that [INHALE] needs. *)
Theorem unguided_session_never_counts (d : BreathingDetector) :
  unguided d ->
  totalCycles (state d) = 0%nat /\
  phase (state d) = detectPhase (intensity (state d)) /\
  0 <= intensity (state d) <= 1 /\
  0 <= targetIntensity d <= 1.
Proof.
  intros H. destruct (unguided_steady d H) as (_ & _ & Ht & Hi & Hph & Hc).
  repeat split; assumption || lra.
Qed.

Lemma unguided_session_never_counts_witness :
  totalCycles
    (state (updates 40 [] 0.1
              (handlePointerDown
                 (updates 40 [] 0.1
                    (handlePointerUp (start new_detector))))))
  = 0%nat.
Proof.
  assert (Hu : forall n frame dt d,
             unguided d -> unguided (updates n frame dt d)).
  { induction n as [| n IH]; intros frame dt d Hd; cbn [updates];
      [exact Hd | apply IH, unguided_update, Hd]. }
  apply (unguided_session_never_counts _).
  apply Hu, unguided_down, Hu, unguided_up, unguided_start, unguided_new.
Defined.

(** ** Smoothing in manual mode *)

Lemma manual_update_fields (frame : list nat) (dt : R)
      (d : BreathingDetector) :
  mode d = manual -> isActive (state d) = true ->
  let d' := fst (update frame dt d) in
  mode d' = manual /\ isActive (state d') = true /\
  smoothingFactor d' = smoothingFactor d /\
  targetIntensity d' = targetIntensity d /\
  intensity (state d') =
    clamp (intensity (state d) +
           (targetIntensity d - intensity (state d)) * smoothingFactor d)
          0 1 /\
  phase (state d') = detectPhase (intensity (state d')).
Proof.
  intros Hm Ha. cbv zeta.
  rewrite update_nonguided_eq by (rewrite ?Hm; congruence || assumption).
  rewrite Hm. cbv zeta.
  destruct (BreathPhase_eq_dec _ _).
  - fields. repeat apply conj; assumption || reflexivity.
  - destruct (phase (state d)), (detectPhase _) eqn:Ed; fields;
      repeat apply conj; assumption || reflexivity || (symmetry; exact Ed).
Qed.

(** In manual mode, [n] ticks with the target held (a press or a release
    that lasts) leave the intensity at
    [target + (intensity - target) * 0.85 ^ n]: it closes 15 percent of
    the gap per tick, never crosses the target and never moves away from
    it, whatever the delta time is. *)
Theorem manual_smoothing_closed_form (n : nat) (frame : list nat) (dt : R)
        (d : BreathingDetector) :
  mode d = manual -> isActive (state d) = true ->
  smoothingFactor d = 0.15 ->
  0 <= targetIntensity d <= 1 -> 0 <= intensity (state d) <= 1 ->
  let d' := updates n frame dt d in
  let i := intensity (state d) in
  let target := targetIntensity d in
  intensity (state d') = target + (i - target) * 0.85 ^ n /\
  Rmin i target <= intensity (state d') <= Rmax i target /\
  targetIntensity d' = target.
Proof.
  revert d. induction n as [| n IH]; intros d Hm Ha Hsf Ht Hi; cbv zeta.
  - cbn [updates pow]. unfold Rmin, Rmax.
    destruct (Rle_dec _ _); repeat apply conj; lra.
  - cbn [updates].
    destruct (manual_update_fields frame dt d Hm Ha)
      as (Hm' & Ha' & Hsf' & Ht' & Hi' & _).
    rewrite Hsf in Hi'. rewrite clamp_inside in Hi' by nra.
    set (d1 := fst (update frame dt d)) in *.
    assert (Hi1 : 0 <= intensity (state d1) <= 1) by (rewrite Hi'; nra).
    destruct (IH d1 Hm' Ha' ltac:(congruence) ltac:(rewrite Ht'; lra) Hi1)
      as (E & _ & T).
    cbv zeta in E, T. rewrite T, Ht'. rewrite E, Ht', Hi'.
    assert (Hform :
      targetIntensity d +
      (intensity (state d) +
       (targetIntensity d - intensity (state d)) * 0.15 - targetIntensity d)
      * 0.85 ^ n
      = targetIntensity d +
        (intensity (state d) - targetIntensity d) * 0.85 ^ S n).
    { cbn [pow]. ring_simplify. lra. }
    rewrite Hform.
    assert (Hp0 : 0 < 0.85 ^ S n) by (apply pow_lt; lra).
    assert (Hp1 : 0.85 ^ S n <= 1).
    { rewrite <- (pow1 (S n)). apply pow_incr. lra. }
    repeat apply conj; try reflexivity;
      unfold Rmin, Rmax; destruct (Rle_dec _ _); nra.
Qed.

Lemma manual_smoothing_closed_form_witness :
  intensity
    (state (updates 6 [] 0.1 (handlePointerDown (start new_detector))))
  = 1 + (0.5 - 1) * 0.85 ^ 6.
Proof.
  destruct (manual_smoothing_closed_form 6 [] 0.1
              (handlePointerDown (start new_detector))
              eq_refl eq_refl eq_refl) as (E & _).
  - unfold handlePointerDown, start, new_detector. fields. lra.
  - unfold handlePointerDown, start, new_detector. fields. lra.
  - cbv zeta in E. rewrite E.
    unfold handlePointerDown, start, new_detector. fields. lra.
Defined.

(** ** The guided timer *)

(** In guided mode with a pattern of positive total length, a timer that
    is not negative and a delta time that is not negative: after [update]
    the timer is in [[0, total)]; when the sum reaches the total it is set
    to 0 and the overshoot is dropped, otherwise it is the sum; and the
    target intensity is in [[0,1]]. *)
Theorem guided_timer_range (frame : list nat) (dt : R)
        (d : BreathingDetector) (p : GuidedPattern) :
  mode d = guided -> guidedPattern d = Some p ->
  isActive (state d) = true ->
  let total := inhale p + holdIn p + exhale p + holdOut p in
  0 < total -> 0 <= guidedTimer d -> 0 <= dt ->
  let d' := fst (update frame dt d) in
  0 <= guidedTimer d' < total /\
  (guidedTimer d + dt >= total -> guidedTimer d' = 0) /\
  (guidedTimer d + dt < total -> guidedTimer d' = guidedTimer d + dt) /\
  0 <= targetIntensity d' <= 1.
Proof.
  intros Hm Hp Ha total Htot Ht Hdt. cbv zeta.
  rewrite (update_guided_eq frame dt d p Hm Hp Ha). cbv zeta. fold total.
  assert (Hease : forall u, 0 <= easeInOutSine u <= 1).
  { intros u. unfold easeInOutSine. pose proof (COS_bound (PI * u)). lra. }
  destruct (Rge_dec (guidedTimer d + dt) total) as [Hw | Hn]; fields.
  - repeat apply conj; try lra;
      repeat (destruct (Rlt_dec _ _); fields);
      try (pose proof (Hease (0 / inhale p)));
      try (pose proof (Hease ((0 - inhale p - holdIn p) / exhale p)));
      lra.
  - repeat apply conj; try lra;
      repeat (destruct (Rlt_dec _ _); fields);
      try (pose proof (Hease ((guidedTimer d + dt) / inhale p)));
      try (pose proof
             (Hease ((guidedTimer d + dt - inhale p - holdIn p)
                     / exhale p)));
      lra.
Qed.

Lemma guided_timer_range_witness :
  guidedTimer (fst (update [] 0.1 lateSession478)) = 0.
Proof.
  destruct (guided_timer_range [] 0.1 lateSession478 pattern478
              eq_refl eq_refl eq_refl) as (_ & H & _);
    try (unfold lateSession478, pattern478; fields; lra).
  apply H. unfold lateSession478, pattern478. fields. lra.
Defined.

(** A hold of length zero is skipped: with [holdIn = 0] guided [update]
    never leaves the phase at [HOLD_IN], and with [holdOut = 0] and a
    positive total never at [HOLD_OUT].  With all four durations zero every
    tick wraps: it emits [cycleComplete] and leaves [HOLD_OUT] with
    target 0. *)
Theorem guided_zero_length_holds (frame : list nat) (dt : R)
        (d : BreathingDetector) (p : GuidedPattern) :
  mode d = guided -> guidedPattern d = Some p ->
  isActive (state d) = true ->
  let total := inhale p + holdIn p + exhale p + holdOut p in
  let r := update frame dt d in
  (holdIn p = 0 -> phase (state (fst r)) <> HOLD_IN) /\
  (holdOut p = 0 -> 0 < total -> phase (state (fst r)) <> HOLD_OUT) /\
  (inhale p = 0 -> holdIn p = 0 -> exhale p = 0 -> holdOut p = 0 ->
   0 <= guidedTimer d + dt ->
   snd r = [cycleComplete] /\ phase (state (fst r)) = HOLD_OUT /\
   targetIntensity (fst r) = 0 /\ guidedTimer (fst r) = 0).
Proof.
  intros Hm Hp Ha. cbv zeta.
  rewrite (update_guided_eq frame dt d p Hm Hp Ha). cbv zeta.
  repeat apply conj.
  - intros H0.
    destruct (Rge_dec _ _); fields;
      repeat (destruct (Rlt_dec _ _); fields); try discriminate; lra.
  - intros H0 Htot.
    destruct (Rge_dec _ _); fields;
      repeat (destruct (Rlt_dec _ _); fields); try discriminate; lra.
  - intros H1 H2 H3 H4 Hs. rewrite H1, H2, H3, H4.
    destruct (Rge_dec _ _) as [_ | Hn]; [| lra]. fields.
    repeat (destruct (Rlt_dec _ _); [lra |]). fields.
    repeat apply conj; reflexivity || lra.
Qed.

Lemma guided_zero_length_holds_witness :
  phase (state (fst (update [] 0.1 lateSession478))) <> HOLD_OUT.
Proof.
  destruct (guided_zero_length_holds [] 0.1 lateSession478 pattern478
              eq_refl eq_refl eq_refl) as (_ & H & _).
  apply H; unfold pattern478; fields; lra.
Defined.

(** ** The microphone step *)

Lemma sum_squares_ge (frame : list nat) :
  forall acc,
    Forall (fun b => (128 <= b)%nat) frame ->
    acc + INR (List.length frame) * 16384
    <= fold_left (fun s b => s + INR b * INR b) frame acc.
Proof.
  induction frame as [| b frame IH]; intros acc Hall.
  - cbn [fold_left List.length INR]. lra.
  - inversion Hall as [| ? ? Hb Hrest]; subst.
    cbn [fold_left]. rewrite length_cons, S_INR.
    specialize (IH (acc + INR b * INR b) Hrest).
    assert (Hb' : 128 <= INR b).
    { replace 128 with (INR 128) by (cbn; lra). apply le_INR. exact Hb. }
    nra.
Qed.

Lemma sum_squares_zero (frame : list nat) :
  forall acc,
    Forall (fun b => b = 0%nat) frame ->
    fold_left (fun s b => s + INR b * INR b) frame acc = acc.
Proof.
  induction frame as [| b frame IH]; intros acc Hall; [reflexivity |].
  inversion Hall as [| ? ? Hb Hrest]; subst.
  cbn [fold_left INR]. rewrite IH by exact Hrest. lra.
Qed.

(** [_updateFromMicrophone] touches nothing but the target.  Without an
    analyser, or on an empty buffer, it does nothing at all.  On a buffer
    whose bins are all at least 128 (half scale) the raw level is 1, and
    on an all-zero buffer it is 0; either becomes the target when it is
    more than 0.01 away from the current intensity. *)
Theorem microphone_step (frame : list nat) (d : BreathingDetector) :
  let d' := _updateFromMicrophone frame d in
  state d' = state d /\ mode d' = mode d /\
  guidedTimer d' = guidedTimer d /\
  (micReady d = false \/ frame = [] -> d' = d) /\
  (micReady d = true -> frame <> [] ->
   Forall (fun b => (128 <= b)%nat) frame ->
   intensity (state d) < 0.99 -> targetIntensity d' = 1) /\
  (micReady d = true -> frame <> [] ->
   Forall (fun b => b = 0%nat) frame ->
   intensity (state d) > 0.01 -> targetIntensity d' = 0) /\
  d' = with_target d (targetIntensity d').
Proof.
  cbv zeta.
  destruct (_updateFromMicrophone_frame frame d) as (A & B & _ & C).
  repeat apply conj; try assumption.
  4:{ unfold _updateFromMicrophone.
      destruct (micReady d) eqn:Hr; cbn [negb];
        [| destruct d; cbn in Hr; subst; reflexivity].
      destruct frame as [| b frame];
        [destruct d; cbn in Hr; subst; reflexivity |].
      destruct (Rgt_dec _ _); [reflexivity |].
      destruct d; cbn in Hr; subst; reflexivity. }
  - intros [H | H]; unfold _updateFromMicrophone.
    + rewrite H. reflexivity.
    + rewrite H. destruct (micReady d); reflexivity.
  - intros Hr Hne Hall Hi. unfold _updateFromMicrophone. rewrite Hr.
    cbn [negb]. destruct frame as [| b frame]; [congruence |].
    set (fr := b :: frame) in *.
    set (n := INR (List.length fr)).
    assert (Hn : 0 < n).
    { unfold n, fr. rewrite length_cons, S_INR.
      pose proof (pos_INR (List.length frame)). lra. }
    pose proof (sum_squares_ge fr 0 Hall) as Hsum. fold n in Hsum.
    set (sum := fold_left (fun s b0 => s + INR b0 * INR b0) fr 0) in *.
    assert (Hmean : 128 * 128 <= sum / n).
    { assert (Hinv : 0 < / n) by (apply Rinv_0_lt_compat; lra).
      assert (Hone : n * / n = 1) by (apply Rinv_r; lra).
      unfold Rdiv. nra. }
    assert (Hrms : 128 <= sqrt (sum / n)).
    { rewrite <- (sqrt_square 128) at 1 by lra.
      apply sqrt_le_1_alt. exact Hmean. }
    assert (Hraw : clamp (sqrt (sum / n) / 128) 0 1 = 1).
    { unfold clamp, Rmin, Rmax.
      assert (1 <= sqrt (sum / n) / 128).
      { unfold Rdiv. lra. }
      destruct (Rle_dec _ 0); destruct (Rle_dec _ 1); lra. }
    rewrite Hraw.
    destruct (Rgt_dec _ _) as [_ | Hn'].
    + reflexivity.
    + exfalso. apply Hn'. unfold Rabs.
      destruct (Rcase_abs _); lra.
  - intros Hr Hne Hall Hi. unfold _updateFromMicrophone. rewrite Hr.
    cbn [negb]. destruct frame as [| b frame]; [congruence |].
    set (fr := b :: frame) in *.
    rewrite (sum_squares_zero fr 0 Hall).
    assert (Hraw : clamp (sqrt (0 / INR (List.length fr)) / 128) 0 1 = 0).
    { unfold Rdiv at 2. rewrite Rmult_0_l, sqrt_0.
      unfold clamp, Rmin, Rmax.
      destruct (Rle_dec _ 0); destruct (Rle_dec _ 1); lra. }
    rewrite Hraw.
    destruct (Rgt_dec _ _) as [_ | Hn'].
    + reflexivity.
    + exfalso. apply Hn'. unfold Rabs.
      destruct (Rcase_abs _); lra.
Qed.

Lemma microphone_step_witness :
  targetIntensity
    (_updateFromMicrophone [200; 128; 255]%nat
       (fst (initMicrophone true new_detector))) = 1.
Proof.
  destruct (microphone_step [200; 128; 255]%nat
              (fst (initMicrophone true new_detector)))
    as (_ & _ & _ & _ & H & _).
  apply H.
  - reflexivity.
  - discriminate.
  - repeat constructor; lia.
  - unfold initMicrophone, new_detector. fields. lra.
Defined.

End SessionFacts.

Module NebulaMoreFacts.
Import MathUtils MathUtilsFacts Vec Nebula NebulaFacts NumericFacts.
Local Open Scope R_scope.

(** ** One particle, one tick *)

Lemma limit_magnitude (v : Vector2) (max : R) :
  0 <= max -> magnitude (limit v max) <= max.
Proof.
  intros Hmax. unfold limit.
  destruct (Rgt_dec (magnitude v) max) as [g | n]; [| lra].
  rewrite magnitude_multiply by exact Hmax.
  rewrite magnitude_normalize by lra. lra.
Qed.

Lemma multiply_zero (v : Vector2) : multiply v 0 = mkVec 0 0.
Proof. unfold multiply. f_equal; ring. Qed.

Lemma Particle_update_acceleration (dt i w h : R) (p : Particle) :
  acceleration (fst (Particle_update dt i w h p)) = mkVec 0 0.
Proof.
  unfold Particle_update. cbn [fst acceleration]. apply multiply_zero.
Qed.

(** After any tick a particle has no acceleration left and a speed of at
    most 2; the next tick, whatever its delta time, breath intensity and
    canvas, leaves the velocity exactly as it was.  The pull toward or
    away from the centre is added to the acceleration and erased in the
    same call, so it never reaches the velocity. *)
Theorem steering_never_reaches_velocity
        (dt1 i1 w1 h1 dt2 i2 w2 h2 : R) (p : Particle) :
  let p1 := fst (Particle_update dt1 i1 w1 h1 p) in
  let p2 := fst (Particle_update dt2 i2 w2 h2 p1) in
  acceleration p1 = mkVec 0 0 /\
  magnitude (velocity p1) <= 2 /\
  velocity p2 = velocity p1 /\
  (acceleration p = mkVec 0 0 -> velocity p1 = limit (velocity p) 2).
Proof.
  cbv zeta.
  pose proof (Particle_update_acceleration dt1 i1 w1 h1 p) as Ha.
  assert (Hv : magnitude (velocity (fst (Particle_update dt1 i1 w1 h1 p)))
               <= 2).
  { unfold Particle_update. cbn [fst velocity]. apply limit_magnitude. lra. }
  repeat apply conj.
  - exact Ha.
  - exact Hv.
  - set (p1 := fst (Particle_update dt1 i1 w1 h1 p)) in *.
    unfold Particle_update at 1. cbn [fst velocity].
    rewrite Ha, add_zero. apply limit_below. exact Hv.
  - intros H0. unfold Particle_update. cbn [fst velocity].
    rewrite H0, add_zero. reflexivity.
Qed.

Lemma steering_never_reaches_velocity_witness :
  velocity (fst (Particle_update 0.1 0.9 800 600 fresh))
  = limit (velocity fresh) 2.
Proof.
  destruct (steering_never_reaches_velocity 0.1 0.9 800 600 0.1 0.1 800 600
              fresh) as (_ & _ & _ & H).
  apply H. reflexivity.
Defined.

(** A particle with a positive [maxLife] survives a tick exactly when its
    age after the tick is below [maxLife]; the stored [life] is
    [1 - age / maxLife] and is at most 1 while the age is not negative. *)
Theorem particle_lifetime (dt i w h : R) (p : Particle) :
  0 < maxLife p ->
  let r := Particle_update dt i w h p in
  (snd r = true <-> age p + dt < maxLife p) /\
  life (fst r) = 1 - (age p + dt) / maxLife p /\
  (0 <= age p + dt -> life (fst r) <= 1).
Proof.
  intros Hm. cbv zeta. unfold Particle_update. cbn [fst snd life].
  assert (Hinv : 0 < / maxLife p) by (apply Rinv_0_lt_compat; exact Hm).
  assert (Hone : maxLife p * / maxLife p = 1) by (apply Rinv_r; lra).
  set (a := age p + dt) in *. set (m := maxLife p) in *.
  repeat apply conj.
  - destruct (Rgt_dec (1.0 - a / m) 0) as [g | n].
    + intros _. unfold Rdiv in g. nra.
    + discriminate.
  - intros Hlt. destruct (Rgt_dec (1.0 - a / m) 0) as [g | n];
      [reflexivity |]. exfalso. apply n. unfold Rdiv. nra.
  - lra.
  - intros Ha. unfold Rdiv. nra.
Qed.

Lemma particle_lifetime_witness :
  snd (Particle_update 4.5 0.5 800 600 drifting) = false.
Proof.
  destruct (particle_lifetime 4.5 0.5 800 600 drifting) as ([H _] & _).
  - unfold drifting. cbn [maxLife]. lra.
  - destruct (snd (Particle_update 4.5 0.5 800 600 drifting));
      [| reflexivity].
    specialize (H eq_refl). unfold drifting in H. cbn [age maxLife] in H.
    exfalso. lra.
Defined.

(** ** Construction and spawning *)

(** With [Math.random()] in [[0,1)], a constructed particle sits where it
    was asked to, has no acceleration, age 0 and life 1, a base size in
    [[1,4)] with [maxSize] three times that, a lifetime in [[3,8)], a
    colour position in [[0.3, 0.9)], an opacity in [[0.4, 1)], a twinkle
    speed in [[1,3)] and velocity components in [[-0.5, 0.5)]; it takes
    eight draws. *)
Theorem new_Particle_ranges (rnd : Rand) (k : nat) (px py : R)
        (pal : string) :
  (forall j, 0 <= rnd j < 1) ->
  let p := fst (new_Particle rnd k px py pal) in
  position p = mkVec px py /\ acceleration p = mkVec 0 0 /\
  age p = 0 /\ life p = 1 /\ palette p = pal /\
  1 <= baseSize p < 4 /\ size p = baseSize p /\
  maxSize p = baseSize p * 3 /\
  3 <= maxLife p < 8 /\
  0.3 <= colorPosition p < 0.9 /\
  0.4 <= opacity p < 1 /\
  1 <= twinkleSpeed p < 3 /\
  -0.5 <= x (velocity p) < 0.5 /\ -0.5 <= y (velocity p) < 0.5 /\
  snd (new_Particle rnd k px py pal) = (k + 8)%nat.
Proof.
  intros Hr. cbv zeta.
  unfold new_Particle, Vector2_random, random.
  cbn [fst snd position acceleration age life palette baseSize size maxSize
       maxLife colorPosition opacity twinkleSpeed velocity x y].
  pose proof (Hr k). pose proof (Hr (S k)). pose proof (Hr (S (S k))).
  pose proof (Hr (S (S (S k)))). pose proof (Hr (S (S (S (S k))))).
  pose proof (Hr (S (S (S (S (S (S k))))))).
  pose proof (Hr (S (S (S (S (S (S (S k)))))))).
  repeat apply conj; try reflexivity; try lra. lia.
Qed.

Lemma new_Particle_ranges_witness :
  3 <= maxLife (fst (new_Particle half 0 400 300 "deepSpace")) < 8.
Proof.
  destruct (new_Particle_ranges half 0 400 300 "deepSpace")
    as (_ & _ & _ & _ & _ & _ & _ & _ & H & _).
  - intros j. unfold half. lra.
  - exact H.
Defined.

(** With [Math.random()] in [[0,1)] and an intensity that is not
    negative, [_spawnParticle] appends one particle of the current
    palette to the list, keeps the others in place, puts the new one
    within [100 * intensity] of the canvas centre and gives it a speed of
    at most [30 * intensity]; it takes eleven draws.  At intensity 0 the
    particle is born at the centre, at rest. *)
Theorem spawn_placement (rnd : Rand) (k : nat) (i w h : R) (pal : string)
        (ps : list Particle) :
  (forall j, 0 <= rnd j < 1) -> 0 <= i ->
  exists p,
    _spawnParticle rnd k i w h pal ps = (ps ++ [p], (k + 11)%nat) /\
    palette p = pal /\ age p = 0 /\ acceleration p = mkVec 0 0 /\
    (x (position p) - w / 2) * (x (position p) - w / 2) +
    (y (position p) - h / 2) * (y (position p) - h / 2)
    <= (100 * i) * (100 * i) /\
    x (velocity p) * x (velocity p) + y (velocity p) * y (velocity p)
    <= (30 * i) * (30 * i) /\
    (i = 0 -> position p = mkVec (w / 2) (h / 2) /\
              velocity p = mkVec 0 0).
Proof.
  intros Hr Hi.
  unfold _spawnParticle, new_Particle, Vector2_random, random.
  eexists. split.
  - cbn [position acceleration baseSize size maxSize life maxLife age
         palette colorPosition twinklePhase twinkleSpeed opacity].
    f_equal. lia.
  - cbn [position velocity acceleration age palette x y].
    set (angle := rnd k * (PI * 2 - 0) + 0).
    pose proof (sin2_cos2 angle) as Hsc. unfold Rsqr in Hsc.
    pose proof (Hr (S k)) as Hd.
    pose proof (Hr (S (S (S (S (S (S (S (S (S (S k))))))))))) as Hs.
    set (dist := rnd (S k) * (100 * i - 0) + 0).
    set (speed := (rnd (S (S (S (S (S (S (S (S (S (S k))))))))))
                   * (30 - 10) + 10) * i).
    assert (Hdist : 0 <= dist <= 100 * i) by (unfold dist; split; nra).
    assert (Hspeed : 0 <= speed <= 30 * i) by (unfold speed; split; nra).
    repeat apply conj; try reflexivity.
    + replace ((w / 2 + cos angle * dist - w / 2) *
               (w / 2 + cos angle * dist - w / 2) +
               (h / 2 + sin angle * dist - h / 2) *
               (h / 2 + sin angle * dist - h / 2))
        with ((sin angle * sin angle + cos angle * cos angle)
              * (dist * dist)) by ring.
      rewrite Hsc. nra.
    + replace (cos angle * speed * (cos angle * speed) +
               sin angle * speed * (sin angle * speed))
        with ((sin angle * sin angle + cos angle * cos angle)
              * (speed * speed)) by ring.
      rewrite Hsc. nra.
    + intros H0. assert (dist = 0) by (unfold dist; rewrite H0; ring).
      assert (speed = 0) by (unfold speed; rewrite H0; ring).
      split; f_equal; nra.
Qed.

Lemma spawn_placement_witness :
  List.length (fst (_spawnParticle half 0 0.5 800 600 "deepSpace" [drifting]))
  = 2%nat.
Proof.
  destruct (spawn_placement half 0 0.5 800 600 "deepSpace" [drifting])
    as (p & E & _).
  - intros j. unfold half. lra.
  - lra.
  - rewrite E. reflexivity.
Defined.

(** ** The spawn loop *)

Lemma _spawnParticle_shape (rnd : Rand) (k : nat) (i w h : R) (pal : string)
      (ps : list Particle) :
  exists p, _spawnParticle rnd k i w h pal ps = (ps ++ [p], (k + 11)%nat).
Proof.
  unfold _spawnParticle, new_Particle, Vector2_random, random.
  eexists. f_equal. lia.
Qed.

(** The spawn loop of [update], run with the turns [update] gives it and a
    positive spawn interval: the particles already there stay in front, in
    order; some number of new ones is appended, never more than the room
    under the cap; the timer is lowered by that many intervals and stays
    non-negative if it was; eleven draws are taken per particle; and on
    return either the timer is below one interval or the cap is
    reached. *)
Theorem spawn_loop_accounting (rnd : Rand) (i rate w h : R) (pal : string)
        (maxP : nat) (fuel : nat) :
  forall (k : nat) (timer : R) (ps : list Particle),
    0 < rate -> (maxP - List.length ps <= fuel)%nat ->
    let r := spawnLoop fuel rnd k i rate w h pal maxP timer ps in
    exists added,
      snd (fst r) = ps ++ added /\
      (List.length added <= maxP - List.length ps)%nat /\
      fst (fst r) = timer - INR (List.length added) * rate /\
      snd r = (k + 11 * List.length added)%nat /\
      (0 <= timer -> 0 <= fst (fst r)) /\
      (fst (fst r) < rate \/ (maxP <= List.length (ps ++ added))%nat).
Proof.
  induction fuel as [| fuel IH]; intros k timer ps Hrate Hfuel;
    cbv zeta; cbn [spawnLoop].
  - destruct (Rge_dec timer rate) as [g | n]; cbn [andb];
      [destruct (Nat.ltb_spec (List.length ps) maxP) as [Hlt | Hge];
       [lia |] |];
      exists []; rewrite app_nil_r; cbn [fst snd List.length INR];
      repeat apply conj; try reflexivity; try lia; try lra;
      solve [left; lra | right; lia].
  - destruct (Rge_dec timer rate) as [g | n]; cbn [andb].
    + destruct (Nat.ltb_spec (List.length ps) maxP) as [Hlt | Hge].
      * destruct (_spawnParticle_shape rnd k i w h pal ps) as [p E].
        rewrite E.
        destruct (IH (k + 11)%nat (timer - rate) (ps ++ [p]) Hrate)
          as (added & A1 & A2 & A3 & A4 & A5 & A6).
        { rewrite length_app. cbn [List.length]. lia. }
        cbv zeta in A1, A3, A4, A5, A6.
        rewrite length_app in A2. cbn [List.length] in A2.
        rewrite <- !app_assoc in *. cbn [app] in *.
        exists (p :: added). cbn [List.length].
        split; [exact A1 |]. split; [lia |].
        split; [rewrite A3, S_INR; lra |].
        split; [rewrite A4; lia |].
        split; [intros Ht; apply A5; lra | exact A6].
      * exists []. rewrite app_nil_r. cbn [fst snd List.length INR].
        repeat apply conj; try reflexivity; try lia; try lra;
          solve [left; lra | right; lia].
    + exists []. rewrite app_nil_r. cbn [fst snd List.length INR].
      repeat apply conj; try reflexivity; try lia; try lra;
        solve [left; lra | right; lia].
Qed.

Lemma spawn_loop_accounting_witness :
  exists added,
    snd (fst (spawnLoop 1499 half 0 0.5 0.025 800 600 "deepSpace" 1500
                        0.06 [drifting]))
    = [drifting] ++ added.
Proof.
  destruct (spawn_loop_accounting half 0.5 0.025 800 600 "deepSpace" 1500
              1499 0%nat 0.06 [drifting]) as (added & A & _).
  - lra.
  - cbn [List.length]. lia.
  - exists added. exact A.
Defined.

(** ** Background stars and resizing *)

Lemma _generateBackgroundStars_spec (rnd : Rand) (w h : R) (count : nat) :
  (forall j, 0 <= rnd j < 1) -> 0 <= w -> 0 <= h ->
  forall k,
    let r := _generateBackgroundStars rnd k w h count in
    List.length (fst r) = count /\
    snd r = (k + 6 * count)%nat /\
    Forall (fun s => 0 <= star_x s <= w /\ 0 <= star_y s <= h /\
                     0.5 <= star_size s < 2 /\
                     0.3 <= star_opacity s < 0.8)
           (fst r).
Proof.
  intros Hr Hw Hh. induction count as [| count IH]; intros k; cbv zeta.
  - cbn [_generateBackgroundStars fst snd List.length].
    repeat apply conj; try reflexivity; try lia. constructor.
  - cbn [_generateBackgroundStars]. unfold random.
    destruct (IH (S (S (S (S (S (S k))))))) as (L & K & F).
    destruct (_generateBackgroundStars rnd (S (S (S (S (S (S k)))))) w h
                count) as [rest k'] eqn:E.
    cbn [fst snd] in *. cbn [List.length].
    repeat apply conj; try lia.
    constructor; [| exact F].
    cbn [star_x star_y star_size star_opacity].
    pose proof (Hr k). pose proof (Hr (S k)). pose proof (Hr (S (S k))).
    pose proof (Hr (S (S (S k)))).
    repeat apply conj; nra.
Qed.

(** [resize] on a canvas of non-negative size, with [Math.random()] in
    [[0,1)]: the live particles, the spawn timer, the palette and the cap
    are kept; 200 new background stars replace the old ones, each inside
    the new canvas; 1200 draws are taken.  [reset] does the converse: it
    empties the live set and the timer and keeps the stars. *)
Theorem resize_keeps_particles (rnd : Rand) (k : nat) (w h : R)
        (v : NebulaVisual) :
  (forall j, 0 <= rnd j < 1) -> 0 <= w -> 0 <= h ->
  let r := resize rnd k w h v in
  particles (fst r) = particles v /\
  spawnTimer (fst r) = spawnTimer v /\
  nebula_palette (fst r) = nebula_palette v /\
  maxParticles (fst r) = maxParticles v /\
  canvasWidth (fst r) = w /\ canvasHeight (fst r) = h /\
  List.length (backgroundStars (fst r)) = 200%nat /\
  Forall (fun s => 0 <= star_x s <= w /\ 0 <= star_y s <= h)
         (backgroundStars (fst r)) /\
  snd r = (k + 1200)%nat /\
  particles (reset v) = [] /\ spawnTimer (reset v) = 0 /\
  backgroundStars (reset v) = backgroundStars v.
Proof.
  intros Hr Hw Hh. cbv zeta. unfold resize.
  destruct (_generateBackgroundStars_spec rnd w h 200 Hr Hw Hh k)
    as (L & K & F).
  destruct (_generateBackgroundStars rnd k w h 200) as [stars k'] eqn:E.
  cbn [fst snd] in *.
  cbn [particles spawnTimer nebula_palette maxParticles canvasWidth
       canvasHeight backgroundStars reset].
  repeat apply conj; try reflexivity; try assumption; try lia.
  eapply Forall_impl; [| exact F]. cbv beta. intros s (A & B & _).
  split; assumption.
Qed.

Lemma resize_keeps_particles_witness :
  particles (fst (resize half 0 1024 768
                         (mkNebula 800 600 [drifting; fresh] 800 1500
                                   "deepSpace" 0.01 0.05 [])))
  = [drifting; fresh].
Proof.
  refine (proj1 (resize_keeps_particles half 0 1024 768 _ _ _ _));
    try lra.
  intros j. unfold half. lra.
Defined.

End NebulaMoreFacts.

Module AudioMoreFacts.
Import MathUtils MathUtilsFacts WebAudio AudioFacts App.
Local Open Scope R_scope.

(** ** What [update] asks of the audio graph *)

Lemma upToDate_mono (t t' : R) (s : Synth.BreathingSynth) :
  t <= t' -> Synth.upToDate t s -> Synth.upToDate t' s.
Proof.
  intros Ht (H1 & H2 & H3 & H4 & H5).
  repeat apply conj; apply (settledBy_mono t); assumption.
Qed.

(** Fresh nodes have nothing scheduled. *)
Lemma upToDate_init (t : R) (playing : bool) (current target : R)
      (pending : nat) :
  Synth.upToDate t (Synth._init playing current target pending).
Proof. repeat apply conj; apply settledBy_param. Qed.

(** On a playing synthesizer, for an intensity in [[0,1]] and a smoothed
    breath frequency in [[200,800]], at a time [now] with no automation
    of the five driven parameters scheduled later: the frequency target is
    [200 + 600 * intensity], the smoothed frequency moves a tenth of the
    way to it and stays in [[200,800]], the breath gain heads for
    [0.25 * intensity], the filter cutoff for [800 + 3200 * intensity],
    the shimmer gain for 0.08 in the two hold phases and for 0 otherwise,
    the shimmer frequency for a value in [[1000,1500]]; the master gain,
    the drone and the generators' running state are not touched, and
    again no automation of the five parameters lies after [now]. *)
Theorem synth_update_targets (bs : Breathing.BreathState) (now : R)
        (s : Synth.BreathingSynth) :
  Synth.isPlaying s = true ->
  0 <= Breathing.intensity bs <= 1 ->
  200 <= Synth.currentBreathFreq s <= 800 ->
  Synth.upToDate now s ->
  let i := Breathing.intensity bs in
  let s' := Synth.update bs now s in
  Synth.targetBreathFreq s' = 200 + 600 * i /\
  Synth.currentBreathFreq s' =
    Synth.currentBreathFreq s + (200 + 600 * i - Synth.currentBreathFreq s)
                                * 0.1 /\
  200 <= Synth.currentBreathFreq s' <= 800 /\
  heading (frequency (Synth.breathOsc s')) = Synth.currentBreathFreq s' /\
  heading (Synth.breathGain s') = 0.25 * i /\
  heading (filter_frequency (Synth.filter s')) = 800 + 3200 * i /\
  heading (Synth.shimmerGain s') =
    match Breathing.phase bs with
    | Breathing.HOLD_IN | Breathing.HOLD_OUT => 0.08
    | _ => 0
    end /\
  1000 <= heading (frequency (Synth.shimmerOsc s')) <= 1500 /\
  Synth.masterGain s' = Synth.masterGain s /\
  Synth.droneOsc s' = Synth.droneOsc s /\
  Synth.droneGain s' = Synth.droneGain s /\
  List.map running (Synth.generators s') =
  List.map running (Synth.generators s) /\
  Synth.upToDate now s'.
Proof.
  intros Hp Hi Hc (U1 & U2 & U3 & U4 & U5). cbv zeta.
  unfold Synth.upToDate, Synth.update. rewrite Hp. cbn [negb].
  cbn [Synth.targetBreathFreq Synth.currentBreathFreq Synth.breathOsc
       Synth.breathGain Synth.filter Synth.shimmerGain Synth.shimmerOsc
       Synth.masterGain Synth.droneOsc Synth.droneGain Synth.generators
       frequency filter_frequency List.map].
  rewrite !heading_schedule by assumption. cbn [eventTarget].
  unfold lerp.
  pose proof (SIN_bound (now * 2)) as Hsin.
  assert (Hsch : forall v c p, settledBy now p ->
                   settledBy now (schedule (setTargetAtTime v now c) p)).
  { intros v c p H. apply settledBy_schedule; [cbn [eventTime]; lra | exact H]. }
  repeat apply conj; try reflexivity; try lra; try (apply Hsch; assumption).
  - rewrite clamp_inside; lra.
  - destruct (Breathing.phase bs); rewrite heading_schedule by assumption;
      reflexivity.
  - destruct (Breathing.phase bs); apply Hsch; assumption.
Qed.

Lemma synth_update_targets_witness :
  heading (Synth.breathGain
             (Synth.update
                (Breathing.mkState Breathing.INHALE 0.8 0 0%nat true) 3
                Synth.playing0))
  = 0.25 * 0.8.
Proof.
  destruct (synth_update_targets
              (Breathing.mkState Breathing.INHALE 0.8 0 0%nat true) 3
              Synth.playing0) as (_ & _ & _ & _ & H & _).
  - reflexivity.
  - cbn [Breathing.intensity]. lra.
  - unfold Synth.playing0. cbn. lra.
  - repeat apply conj; apply settledBy_param.
  - exact H.
Defined.

(** ** Stopping and starting again *)

(** [stop()] on a sounding synthesizer sends the master gain to 0 and
    leaves it marked playing until the timeout runs.  The timeout stops
    the generators and installs fresh nodes: not playing, master gain at
    0.3, no generator started, the smoothed breath frequency kept.  A
    [start()] after that succeeds and has three running generators. *)
Theorem stop_then_start_again (now level now' : R)
        (s : Synth.BreathingSynth) :
  sounding s ->
  let s1 := Synth.stop now level s in
  heading (Synth.masterGain s1) = 0 /\
  Synth.isPlaying s1 = true /\
  Synth.generators s1 = Synth.generators s /\
  exists s2 s3,
    Synth.stopTimeout s1 = Some s2 /\
    Synth.isPlaying s2 = false /\
    Synth.masterGain s2 = param 0.3 /\
    forallb running (Synth.generators s2) = false /\
    Synth.currentBreathFreq s2 = Synth.currentBreathFreq s /\
    Synth.start now' s2 = Some s3 /\
    sounding s3 /\
    forallb running (Synth.generators s3) = true /\
    heading (Synth.masterGain s3) = 0.3.
Proof.
  intros (Hp & Hd & Hb & Hh). cbv zeta.
  unfold Synth.stop. rewrite Hp. cbn [negb].
  cbn [Synth.masterGain Synth.isPlaying Synth.generators Synth.droneOsc
       Synth.breathOsc Synth.shimmerOsc].
  rewrite heading_fade by lra.
  repeat apply conj; try reflexivity; try assumption.
  unfold Synth.stopTimeout.
  cbn [Synth.droneOsc Synth.breathOsc Synth.shimmerOsc
       Synth.currentBreathFreq Synth.targetBreathFreq Synth.pendingStops].
  unfold osc_stop. rewrite Hd, Hb, Hh.
  do 2 eexists. repeat apply conj; try reflexivity.
  cbn [Synth.masterGain]. apply heading_fade. lra.
Qed.

Lemma stop_then_start_again_witness :
  heading (Synth.masterGain (Synth.stop 5 0.3 Synth.playing0)) = 0.
Proof.
  refine (proj1 (stop_then_start_again 5 0.3 7 Synth.playing0 _)).
  unfold sounding. repeat apply conj; reflexivity.
Defined.

(** Stopping the engine and starting it again before the stop timeout
    has run (1.1 s) leaves it silent.  The second [start()] finds the
    synthesizer still marked playing and schedules nothing; when the
    timeout runs, the generators stop and the synthesizer is replaced by a
    fresh one that is not playing, while the engine still says it is
    playing.  From then on [update] changes nothing and a further
    [start()] does nothing. *)
Theorem restart_within_fade_is_silent
        (created : option Engine.ContextState) (now level now' now'' : R)
        (bs : Breathing.BreathState) (e : Engine.AudioEngine)
        (s : Synth.BreathingSynth) :
  engine_sounding e s ->
  let e1 := Engine.stop now level e in
  exists e2 e3 s3,
    Engine.start created now' e1 = Some e2 /\
    Engine.isPlaying e2 = true /\
    Engine.synth e2 = Some (Synth.stop now level s) /\
    App.stopTimeout e2 = Some e3 /\
    Engine.isPlaying e3 = true /\
    Engine.synth e3 = Some s3 /\
    Synth.isPlaying s3 = false /\
    forallb running (Synth.generators s3) = false /\
    existsb running (Synth.generators s3) = false /\
    Engine.update bs now'' e3 = e3 /\
    Engine.start created now'' e3 = Some e3.
Proof.
  intros (Hp & Hi & Hc & Hs & (Sp & Sd & Sb & Sh)). cbv zeta.
  destruct e as [c sy ini pl mu pal].
  cbn [Engine.isPlaying Engine.isInitialized Engine.ctx Engine.synth] in *.
  subst.
  unfold Engine.stop.
  cbn [Engine.isPlaying Engine.isInitialized Engine.ctx Engine.synth
       Engine.isMuted Engine.currentPalette].
  unfold Engine.start.
  cbn [Engine.isPlaying Engine.isInitialized Engine.ctx Engine.synth
       Engine.isMuted Engine.currentPalette negb].
  assert (Hst : Synth.start now' (Synth.stop now level s)
                = Some (Synth.stop now level s)).
  { unfold Synth.start, Synth.stop. rewrite Sp. cbn [negb Synth.isPlaying].
    reflexivity. }
  rewrite Hst.
  assert (Hto : exists s3,
             Synth.stopTimeout (Synth.stop now level s) = Some s3 /\
             Synth.isPlaying s3 = false /\
             forallb running (Synth.generators s3) = false /\
             existsb running (Synth.generators s3) = false).
  { unfold Synth.stopTimeout, Synth.stop. rewrite Sp. cbn [negb].
    cbn [Synth.droneOsc Synth.breathOsc Synth.shimmerOsc].
    unfold osc_stop. rewrite Sd, Sb, Sh.
    eexists. repeat apply conj; reflexivity. }
  destruct Hto as (s3 & Eto & P3 & R3 & R3').
  do 2 eexists. exists s3.
  split; [reflexivity |]. split; [reflexivity |]. split; [reflexivity |].
  split.
  { unfold App.stopTimeout.
    cbn [Engine.isPlaying Engine.isInitialized Engine.ctx Engine.synth
         Engine.isMuted Engine.currentPalette].
    rewrite Eto. reflexivity. }
  repeat apply conj; try reflexivity; try assumption.
  - unfold Engine.update.
    cbn [Engine.isPlaying Engine.isInitialized Engine.ctx Engine.synth
         Engine.isMuted Engine.currentPalette].
    destruct (andb true (negb mu)); [| reflexivity].
    unfold Synth.update. rewrite P3. reflexivity.
Qed.

Lemma restart_within_fade_is_silent_witness :
  exists e2,
    Engine.start None 6 (Engine.stop 5 0.3 Engine.started0) = Some e2 /\
    Engine.synth e2 = Some (Synth.stop 5 0.3 Synth.playing0).
Proof.
  destruct (restart_within_fade_is_silent None 5 0.3 6 8
              (Breathing.mkState Breathing.EXHALE 0.5 0 0%nat true)
              Engine.started0 Synth.playing0)
    as (e2 & _ & _ & E & _ & S & _).
  - unfold engine_sounding, sounding. repeat apply conj; reflexivity.
  - exists e2. split; assumption.
Defined.

(** ** Muting and starting *)

(** [toggleMute] flips the flag and two calls restore it; on an engine
    without a synthesizer it only flips the flag.  [start()] does not look
    at the flag: on a muted, stopped engine it fades the master gain in to
    0.3 and keeps the engine marked muted, and because [update] is skipped
    while muted nothing retargets any parameter afterwards. *)
Theorem start_ignores_mute (created : option Engine.ContextState)
        (now now' : R) (bs : Breathing.BreathState)
        (e : Engine.AudioEngine) (s : Synth.BreathingSynth) :
  Engine.isMuted (fst (Engine.toggleMute now (fst (Engine.toggleMute now e))))
  = Engine.isMuted e /\
  snd (Engine.toggleMute now e) = negb (Engine.isMuted e) /\
  Engine.isMuted (fst (Engine.toggleMute now e)) = negb (Engine.isMuted e) /\
  (Engine.synth e = None ->
   Engine.synth (fst (Engine.toggleMute now e)) = None) /\
  (Engine.isMuted e = true -> Engine.isPlaying e = false ->
   Engine.isInitialized e = true -> Engine.ctx e <> None ->
   Engine.synth e = Some s -> untouched s ->
   exists e' s',
     Engine.start created now e = Some e' /\
     Engine.isMuted e' = true /\ Engine.isPlaying e' = true /\
     Engine.synth e' = Some s' /\
     forallb running (Synth.generators s') = true /\
     heading (Synth.masterGain s') = 0.3 /\
     Engine.update bs now' e' = e').
Proof.
  repeat apply conj.
  - unfold Engine.toggleMute. cbn [fst Engine.isMuted].
    apply negb_involutive.
  - reflexivity.
  - reflexivity.
  - intros H. unfold Engine.toggleMute. rewrite H. reflexivity.
  - intros Hmu Hpl Hin Hc Hs (Sp & Hgen).
    unfold Synth.generators in Hgen.
    inversion Hgen as [| ? ? [Sd Sd'] Hgen1]; subst.
    inversion Hgen1 as [| ? ? [Sb Sb'] Hgen2]; subst.
    inversion Hgen2 as [| ? ? [Sh Sh'] _]; subst.
    destruct e as [c sy ini pl mu pal].
    cbn [Engine.isPlaying Engine.isInitialized Engine.ctx Engine.synth
         Engine.isMuted] in *.
    subst. destruct c as [st |]; [| congruence].
    unfold Engine.start.
    cbn [Engine.isPlaying Engine.isInitialized Engine.ctx Engine.synth
         Engine.isMuted Engine.currentPalette negb].
    unfold Synth.start, osc_start. rewrite Sp, Sd, Sb, Sh.
    do 2 eexists.
    split; [reflexivity |]. split; [reflexivity |]. split; [reflexivity |].
    split; [reflexivity |].
    cbn [Synth.generators Synth.droneOsc Synth.breathOsc Synth.shimmerOsc
         Synth.masterGain].
    rewrite heading_fade by lra.
    repeat apply conj.
    + unfold running. cbn [forallb started stopped].
      rewrite Sd', Sb', Sh'. reflexivity.
    + reflexivity.
    + reflexivity.
Qed.

Lemma start_ignores_mute_witness :
  exists e' s',
    Engine.start None 4
      (fst (Engine.toggleMute 1
              (fst (Engine.init (Some Engine.ctx_running)
                                Engine.new_AudioEngine))))
    = Some e' /\
    Engine.isMuted e' = true /\
    Engine.synth e' = Some s' /\
    heading (Synth.masterGain s') = 0.3.
Proof.
  destruct (start_ignores_mute None 4 5
              (Breathing.mkState Breathing.EXHALE 0.5 0 0%nat true)
              (fst (Engine.toggleMute 1
                      (fst (Engine.init (Some Engine.ctx_running)
                                        Engine.new_AudioEngine))))
              (Synth.mute 1 Synth.new_BreathingSynth))
    as (_ & _ & _ & _ & H).
  destruct H as (e' & s' & E & M & _ & S & _ & G & _);
    try reflexivity.
  - discriminate.
  - unfold untouched. split; [reflexivity |].
    repeat constructor.
  - exists e', s'. repeat apply conj; assumption.
Defined.

(** ** Initialising the engine *)

(** [init()] on an initialised engine answers [true] and changes
    nothing.  On an engine that is not initialised, a context that cannot
    be created makes [init()] answer [false] and leave the engine as it
    was, and a [start()] then rejects instead of reporting; a context
    that can be created gives an initialised engine with a fresh
    synthesizer, on which a second [init()] changes nothing. *)
Theorem engine_initialisation (created : option Engine.ContextState)
        (st : Engine.ContextState) (now : R) (e : Engine.AudioEngine) :
  (Engine.isInitialized e = true -> Engine.init created e = (e, true)) /\
  (Engine.isInitialized e = false ->
     Engine.init None e = (e, false) /\
     (Engine.ctx e = None -> Engine.start None now e = None) /\
     exists e',
       Engine.init (Some st) e = (e', true) /\
       Engine.isInitialized e' = true /\
       Engine.ctx e' = Some st /\
       Engine.synth e' = Some Synth.new_BreathingSynth /\
       Engine.isPlaying e' = Engine.isPlaying e /\
       Engine.init created e' = (e', true)).
Proof.
  split.
  - intros H. unfold Engine.init. rewrite H. reflexivity.
  - intros H. repeat apply conj.
    + unfold Engine.init. rewrite H. reflexivity.
    + intros Hc. unfold Engine.start, Engine.init. rewrite H.
      cbn [negb fst]. rewrite Hc. reflexivity.
    + unfold Engine.init. rewrite H. eexists.
      repeat apply conj; reflexivity.
Qed.

Lemma engine_initialisation_witness :
  Engine.start None 0 Engine.new_AudioEngine = None.
Proof.
  destruct (engine_initialisation None Engine.ctx_running 0
              Engine.new_AudioEngine) as [_ H].
  destruct H as (_ & H & _); [reflexivity |].
  apply H. reflexivity.
Defined.

End AudioMoreFacts.

Module AppFacts.
Import MathUtils MathUtilsFacts Vec App BreathingFacts.
Local Open Scope R_scope.

(** ** The delta time of a tick *)

(** The delta time of a tick is never above 0.1 s, is 0.1 s once 100 ms
    or more have passed, and is not negative when the clock has not gone
    back.  Nothing bounds it from below: for the first tick, which
    [start()] runs with [currentTime = 0] against
    [lastTime = performance.now()], it is minus the age of the page in
    seconds. *)
Theorem frame_delta_bounds (currentTime lastTime : R) :
  frameDelta currentTime lastTime <= 0.1 /\
  (lastTime + 100 <= currentTime -> frameDelta currentTime lastTime = 0.1) /\
  (lastTime <= currentTime -> 0 <= frameDelta currentTime lastTime) /\
  (0 <= lastTime -> frameDelta 0 lastTime = - (lastTime / 1000) /\
                    frameDelta 0 lastTime <= 0).
Proof.
  unfold frameDelta, Rmin.
  repeat apply conj.
  - destruct (Rle_dec _ _); lra.
  - intros H. destruct (Rle_dec _ _); lra.
  - intros H. destruct (Rle_dec _ _); lra.
  - intros H. destruct (Rle_dec _ _); split; lra.
Qed.

Lemma frame_delta_bounds_witness :
  frameDelta 0 30000 = - (30000 / 1000).
Proof.
  destruct (frame_delta_bounds 0 30000) as (_ & _ & _ & H).
  apply H. lra.
Defined.

(** ** The first tick *)

Lemma frame_delta_zero (lastTime : R) :
  0 <= lastTime ->
  frameDelta 0 lastTime = - (lastTime / 1000) /\ frameDelta 0 lastTime <= 0.
Proof.
  intros H. unfold frameDelta, Rmin. destruct (Rle_dec _ _); lra.
Qed.

Lemma spawnLoop_idle (fuel : nat) (rnd : Rand) (k : nat)
      (i rate w h : R) (pal : string) (maxP : nat) (timer : R)
      (ps : list Nebula.Particle) :
  timer < rate ->
  Nebula.spawnLoop fuel rnd k i rate w h pal maxP timer ps = (timer, ps, k).
Proof.
  intros H. destruct fuel; cbn [Nebula.spawnLoop];
    destruct (Rge_dec timer rate); try lra; reflexivity.
Qed.

(** [start()] on an app that is not running, [perfNow] milliseconds after
    the page was loaded: the loop is marked running, [lastTime] is 0, and
    the detector and the particle field have each been advanced by
    [- perfNow / 1000] seconds.  On an empty field with its spawn timer at
    0 this leaves the field empty with the spawn timer at
    [- perfNow / 1000]: no particle can spawn until the ticks that follow
    have added that much time back. *)
Theorem first_tick_runs_backwards (rnd : Rand) (k : nat) (frame : list nat)
        (now perfNow : R) (app : BreathingCosmosApp) :
  isRunning app = false -> 0 < perfNow ->
  let r := start rnd k frame now perfNow app in
  let app' := fst (fst r) in
  let dt := - (perfNow / 1000) in
  isRunning app' = true /\ lastTime app' = 0 /\
  breathing app' = fst (Breathing.update frame dt (breathing app)) /\
  snd r = snd (Breathing.update frame dt (breathing app)) /\
  visuals app' =
    fst (Nebula.update rnd k (Breathing.state (breathing app')) dt
                       (visuals app)) /\
  (Nebula.particles (visuals app) = [] ->
   Nebula.spawnTimer (visuals app) = 0 ->
   0 < Nebula.spawnRate (visuals app) ->
   0 <= Breathing.intensity (Breathing.state (breathing app)) <= 1 ->
   Nebula.particles (visuals app') = [] /\
   Nebula.spawnTimer (visuals app') = dt /\
   snd (fst r) = k).
Proof.
  intros Hrun Hpos. cbv zeta. unfold start. rewrite Hrun.
  unfold _animate. cbn [isRunning negb lastTime breathing visuals audio].
  destruct (frame_delta_zero perfNow ltac:(lra)) as [Hdt _]. rewrite Hdt.
  destruct (Breathing.update frame (- (perfNow / 1000)) (breathing app))
    as [b ev] eqn:Eb.
  destruct (Nebula.update rnd k (Breathing.state b) (- (perfNow / 1000))
                          (visuals app)) as [v k'] eqn:Ev.
  cbn [fst snd isRunning lastTime breathing visuals].
  repeat apply conj; try reflexivity.
  - rewrite Ev. reflexivity.
  - intros Hps Hst Hrate Hi.
    assert (Hb : 0 <= Breathing.intensity (Breathing.state b) <= 1).
    { replace b with (fst (Breathing.update frame (- (perfNow / 1000))
                                            (breathing app)))
        by (rewrite Eb; reflexivity).
      destruct (Breathing.isActive (Breathing.state (breathing app)))
        eqn:Ha.
      - destruct (update_active_intensity frame (- (perfNow / 1000))
                    (breathing app) Ha) as [x ->].
        apply clamp_bounds. lra.
      - rewrite (update_inactive _ _ _ Ha). exact Hi. }
    unfold Nebula.update in Ev. rewrite Hps, Hst in Ev.
    set (rate := Nebula.spawnRate (visuals app)
                 / (1.0 + Breathing.intensity (Breathing.state b) * 2))
      in *.
    assert (Hr : 0 < rate).
    { unfold rate. apply Rdiv_lt_0_compat; lra. }
    rewrite spawnLoop_idle in Ev by lra.
    cbn [List.map filter] in Ev.
    injection Ev as <- <-.
    cbn [Nebula.particles Nebula.spawnTimer].
    repeat apply conj; try reflexivity. lra.
Qed.

Lemma new_NebulaVisual_fields (rnd : Rand) (k : nat) (w h : R) :
  let v := fst (Nebula.new_NebulaVisual rnd k w h) in
  Nebula.particles v = [] /\ Nebula.spawnTimer v = 0 /\
  Nebula.spawnRate v = 0.05.
Proof.
  cbv zeta. unfold Nebula.new_NebulaVisual.
  destruct (Nebula._generateBackgroundStars _ _ _ _ _) as [stars k'].
  repeat apply conj; reflexivity.
Qed.

Lemma first_tick_runs_backwards_witness :
  Nebula.spawnTimer
    (visuals (fst (fst (start Nebula.half 1200 [] 0 30000
                              (new_App Nebula.half 800 600)))))
  = - (30000 / 1000).
Proof.
  destruct (first_tick_runs_backwards Nebula.half 1200 [] 0 30000
              (new_App Nebula.half 800 600))
    as (_ & _ & _ & _ & _ & H).
  - reflexivity.
  - lra.
  - destruct (new_NebulaVisual_fields Nebula.half 0 800 600)
      as (Hp & Ht & Hr).
    destruct H as (_ & Hs & _).
    + exact Hp.
    + exact Ht.
    + unfold new_App. cbn [visuals]. rewrite Hr. lra.
    + unfold new_App, Breathing.new_detector.
      cbn [breathing Breathing.state Breathing.intensity]. lra.
    + exact Hs.
Defined.

(** ** Sessions *)

(** When the microphone is asked for and refused, [startSession] answers
    [false] and starts nothing: the detector is in manual mode and as
    active as before, the loop flag and the particle field are untouched,
    no event is emitted and no random number is drawn; only the audio
    engine has been initialised, without playing. *)
Theorem refused_microphone_starts_nothing (rnd : Rand) (k : nat)
        (frame : list nat) (created : option Engine.ContextState)
        (now perfNow : R) (app : BreathingCosmosApp) :
  exists app',
    startSession rnd k frame created true false now perfNow app
    = Some (app', k, [], false) /\
    Breathing.mode (breathing app') = Breathing.manual /\
    Breathing.state (breathing app') = Breathing.state (breathing app) /\
    visuals app' = visuals app /\
    isRunning app' = isRunning app /\
    audio app' = fst (Engine.init created (audio app)) /\
    Engine.isPlaying (audio app') = Engine.isPlaying (audio app).
Proof.
  unfold startSession, Breathing.initMicrophone. cbn [negb].
  eexists. repeat apply conj; try reflexivity.
  cbn [audio]. unfold Engine.init.
  destruct (Engine.isInitialized (audio app)); [reflexivity |].
  destruct created; reflexivity.
Qed.

(** [pauseSession] pauses the detector and stops the audio engine but
    leaves the loop running: the tick that follows emits no event and
    leaves the detector and the stopped engine as they are, and it still
    advances the particle field, with the breath state frozen at the
    pause. *)
Theorem paused_loop_keeps_animating (rnd : Rand) (k : nat)
        (frame : list nat) (now level now' currentTime : R)
        (app : BreathingCosmosApp) :
  isRunning app = true ->
  let paused := pauseSession now level app in
  let r := _animate rnd k frame now' currentTime paused in
  let app' := fst (fst r) in
  breathing app' = Breathing.pause (breathing app) /\
  snd r = [] /\
  audio app' = Engine.stop now level (audio app) /\
  isRunning app' = true /\ lastTime app' = currentTime /\
  visuals app' =
    fst (Nebula.update rnd k
           (Breathing.state (Breathing.pause (breathing app)))
           (frameDelta currentTime (lastTime app)) (visuals app)).
Proof.
  intros Hrun. cbv zeta. unfold _animate, pauseSession.
  cbn [isRunning lastTime breathing visuals audio]. rewrite Hrun.
  cbn [negb].
  rewrite (update_inactive frame _ (Breathing.pause (breathing app)))
    by reflexivity.
  destruct (Nebula.update rnd k _ _ (visuals app)) as [v k'] eqn:Ev.
  cbn [fst snd breathing audio isRunning lastTime visuals].
  assert (Hstop : forall bs t e,
             Engine.update bs t (Engine.stop now level e)
             = Engine.stop now level e).
  { intros bs t [c sy ini pl mu pal]. unfold Engine.stop, Engine.update.
    cbn [Engine.synth Engine.isPlaying Engine.isMuted].
    destruct sy; [| reflexivity]. destruct pl; reflexivity. }
  rewrite Hstop.
  repeat apply conj; reflexivity.
Qed.

Lemma paused_loop_keeps_animating_witness :
  breathing
    (fst (fst (_animate Nebula.half 0 [] 2 16
                 (pauseSession 1 0.3
                    (mkApp Breathing.session478
                           (Nebula.mkNebula 800 600 [Nebula.drifting] 800
                              1500 "deepSpace" 0 0.05 [])
                           Engine.started0 true 0)))))
  = Breathing.pause Breathing.session478.
Proof.
  refine (proj1 (paused_loop_keeps_animating Nebula.half 0 [] 1 0.3 2 16
                   (mkApp Breathing.session478
                          (Nebula.mkNebula 800 600 [Nebula.drifting] 800
                             1500 "deepSpace" 0 0.05 [])
                          Engine.started0 true 0) _)).
  reflexivity.
Defined.

End AppFacts.
